(** * Ownership-scoped prompt repository and its transactional service façade

    A shallow embedding of [data/prompt_repository.py], [core/models.py]
    and [service/prompt_service.py].

    - The relational store is a record of three tables ([prompts], [tags],
      [prompt_tags]) with the two auto-increment counters.
    - Every statement the repository sends through [db.cursor.execute] is a
      constructor of [stmt]; the WHERE clause that the Python code assembles
      by appending [" AND ..."] fragments is the list of AND-ed conditions.
    - Python exceptions are values of [exn]; the repository methods run in a
      state-and-exception monad over the database context (store, cursor,
      transaction snapshot and the log of what was executed).

    What is assumed of the database engine: strings compare exactly (a
    binary collation); columns and the [GROUP_CONCAT] aggregate are not
    cut to a maximal length; rows without an ORDER BY come in table order;
    an auto-increment identity is never handed out twice; a failing
    statement changes nothing. *)

From Stdlib Require Import List String Ascii Bool Arith ZArith Lia.
Import ListNotations.
Open Scope string_scope.
Open Scope list_scope.
Open Scope nat_scope.

(* ================================================================= *)
(** ** Python helpers *)

Module Py.

(** [s.split(sep)] for a one-character separator: the pieces between the
    occurrences of [sep]; the result is never the empty list. *)
Fixpoint split (sep : ascii) (s : string) : list string :=
  match s with
  | EmptyString => [EmptyString]
  | String c rest =>
      if Ascii.eqb c sep then EmptyString :: split sep rest
      else match split sep rest with
           | [] => [String c EmptyString]
           | w :: ws => String c w :: ws
           end
  end.

(** [sep.join(l)] *)
Definition join (sep : string) (l : list string) : string :=
  String.concat sep l.

(** Truth value of a string: only [""] is falsy. *)
Definition truthy_str (s : string) : bool :=
  match s with EmptyString => false | _ => true end.

(** Truth value of a list: only [[]] is falsy. *)
Definition truthy_list {A} (l : list A) : bool :=
  match l with [] => false | _ => true end.

(** [a == b] on [Optional[str]]. *)
Definition opt_str_eqb (a b : option string) : bool :=
  match a, b with
  | None, None => true
  | Some x, Some y => String.eqb x y
  | _, _ => false
  end.

(** [c in s] for a character. *)
Fixpoint contains (c : ascii) (s : string) : bool :=
  match s with
  | EmptyString => false
  | String d rest => Ascii.eqb d c || contains c rest
  end.

End Py.

Definition comma : ascii := ","%char.

(* ================================================================= *)
(** ** core/models.py *)

Definition datetime := nat.

Record User := mkUser {
  username : string;
  password : string;
  class_key : string
}.

(** [PromptCreate]: [content: str], [display_name: str],
    [author: Optional[str] = None], [tags: Optional[List[str]] = []]. *)
Record PromptCreate := mkPromptCreate {
  pc_content : string;
  pc_display_name : string;
  pc_author : option string;
  pc_tags : option (list string)
}.

(** The fields of [PromptUpdate], in declaration order. *)
Inductive field := Fcontent | Fdisplay_name | Ftags.

Definition field_eqb (a b : field) : bool :=
  match a, b with
  | Fcontent, Fcontent | Fdisplay_name, Fdisplay_name | Ftags, Ftags => true
  | _, _ => false
  end.

(** A [PromptUpdate] object: the three attribute values together with
    pydantic's record of which fields the constructor call supplied
    ([__fields_set__]). *)
Record PromptUpdate := mkPromptUpdate {
  pu_content : option string;
  pu_display_name : option string;
  pu_tags : option (list string);
  pu_fields_set : list field
}.

(** The keyword arguments handed to the [PromptUpdate] constructor: for
    each field, [None] when the key is absent, [Some None] for an explicit null and
    [Some (Some v)] for a value. *)
Record update_input := mkUpdateInput {
  in_content : option (option string);
  in_display_name : option (option string);
  in_tags : option (option (list string))
}.

Definition supplied {A} (f : field) (x : option A) : list field :=
  match x with Some _ => [f] | None => [] end.

(** The constructor call of [PromptUpdate] on keyword arguments: absent
    fields take the class defaults [content = None], [display_name = None], [tags = []]. *)
Definition PromptUpdate_init (kw : update_input) : PromptUpdate :=
  {| pu_content := match in_content kw with Some v => v | None => None end;
     pu_display_name :=
       match in_display_name kw with Some v => v | None => None end;
     pu_tags := match in_tags kw with Some v => v | None => Some [] end;
     pu_fields_set :=
       supplied Fcontent (in_content kw)
         ++ supplied Fdisplay_name (in_display_name kw)
         ++ supplied Ftags (in_tags kw) |}.

(** [prompt.dict()]: every field with its current value. *)
Definition PromptUpdate_dict (p : PromptUpdate) : update_input :=
  {| in_content := Some (pu_content p);
     in_display_name := Some (pu_display_name p);
     in_tags := Some (pu_tags p) |}.

(** The keys of [prompt.dict(exclude_unset=True)], in field order. *)
Definition dict_exclude_unset (p : PromptUpdate) : list field :=
  filter (fun f => existsb (field_eqb f) (pu_fields_set p))
         [Fcontent; Fdisplay_name; Ftags].

(** [Prompt(PromptUpdate)] adds [id], [guid], [created_at], [updated_at];
    it has no [author] attribute. *)
Record Prompt := mkPrompt {
  p_content : option string;
  p_display_name : option string;
  p_tags : option (list string);
  p_id : nat;
  p_guid : string;
  p_created_at : datetime;
  p_updated_at : datetime
}.

(* ================================================================= *)
(** ** Exceptions *)

(** The exception classes that can reach the façade. [TypeError] is
    Python's own; [IntegrityError] and [ProgrammingError] are the database
    driver's (duplicate key, malformed statement); [KeyError] is a missing
    column in a fetched row. *)
#[warnings="-register-all"]
Inductive exn :=
| PromptException (msg : string) (cause : option exn)
| DataValidationError (msg : string)
| UnauthorizedError (msg : string)
| RecordNotFoundError (msg : string)
| ConstraintViolationError (msg : string)
| TypeError
| KeyError
| IntegrityError
| ProgrammingError.

(** Modelled from the spec: [core/exceptions.py] is not among the sources;
    the recognised domain errors ([ValidationError], [UnauthorizedError],
    [RecordNotFoundError], [ConstraintViolationError]) are the subclasses
    of [PromptException] that the façade re-raises unchanged. *)
Definition isinstance_PromptException (e : exn) : bool :=
  match e with
  | PromptException _ _ | DataValidationError _ | UnauthorizedError _
  | RecordNotFoundError _ | ConstraintViolationError _ => true
  | TypeError | KeyError | IntegrityError | ProgrammingError => false
  end.

Definition unexpected_msg : string :=
  "An unexpected error occurred while processing your request.".

Definition unauthorized_msg : string :=
  "Attempting to update a prompt that does not belong to the user or is not NULL.".

(* ================================================================= *)
(** ** The relational store *)

(** A row of [prompts]. [id] is the auto-increment primary key; [author]
    is NULL ([None]) for a public prompt. *)
Record prompt_row := mkPromptRow {
  r_id : nat;
  r_guid : string;
  r_content : string;
  r_display_name : string;
  r_author : option string;
  r_created_at : datetime;
  r_updated_at : datetime
}.

(** A row of [tags]. *)
Record tag_row := mkTagRow {
  t_id : nat;
  t_tag : string
}.

(** A row of the link table [prompt_tags]. *)
Record link_row := mkLink {
  l_prompt_id : nat;
  l_tag_id : nat
}.

Definition link_eqb (a b : link_row) : bool :=
  (l_prompt_id a =? l_prompt_id b) && (l_tag_id a =? l_tag_id b).

(** Modelled from the spec: the schema file is not among the sources. The
    spec prescribes three tables, [prompts], [tags] with unique tag strings
    and [prompt_tags] with a uniqueness constraint on the (prompt, tag)
    pair, and nothing else: no foreign-key action is attached to the link
    table. Timestamps are storage-assigned from [clock] at insertion. *)
Record Store := mkStore {
  prompts : list prompt_row;
  tags : list tag_row;
  prompt_tags : list link_row;
  next_prompt_id : nat;
  next_tag_id : nat;
  clock : datetime
}.

Definition empty_store : Store :=
  {| prompts := []; tags := []; prompt_tags := [];
     next_prompt_id := 1; next_tag_id := 1; clock := 0 |}.

(* ================================================================= *)
(** ** Statements *)

(** The columns an UPDATE of [prompts] can assign from a [PromptUpdate]. *)
Inductive column := col_content | col_display_name.

(** One conjunct of a WHERE clause. *)
Inductive cond :=
| prompts_guid_eq (g : string)            (* prompts.guid = %s *)
| prompts_display_name_eq (n : string)    (* prompts.display_name = %s *)
| prompts_author_eq (u : string)          (* prompts.author = %s *)
| prompts_author_is_null                  (* prompts.author IS NULL *)
| tags_tag_eq (t : string)                (* tags.tag = %s *)
| tags_tag_in (ts : list string).         (* tags.tag IN (%s, ..., %s) *)

(** The statement shapes the repository executes; [where_] is the list of
    AND-ed conjuncts. *)
Inductive stmt :=
| INSERT_prompts (g c d : string) (a : option string)
    (* INSERT INTO prompts (guid, content, display_name, author) VALUES .. *)
| UPDATE_prompts (sets : list (column * string)) (where_ : list cond)
    (* UPDATE prompts SET col = %s, .. WHERE .. *)
| DELETE_prompts (where_ : list cond)
    (* DELETE FROM prompts WHERE .. *)
| SELECT_author (where_ : list cond)
    (* SELECT author FROM prompts WHERE .. *)
| SELECT_prompts_with_tags (where_ : list cond)
    (* SELECT prompts.*, GROUP_CONCAT(tags.tag) as tags FROM prompts
       LEFT JOIN prompt_tags .. LEFT JOIN tags .. WHERE .. GROUP BY prompts.id *)
| INSERT_tags_on_duplicate_update (t : string)
    (* INSERT INTO tags (tag) VALUES (%s) AS new
       ON DUPLICATE KEY UPDATE tag = new.tag *)
| INSERT_prompt_tags_select (where_ : list cond)
    (* INSERT INTO prompt_tags (prompt_id, tag_id)
       SELECT prompts.id, tags.id FROM prompts, tags WHERE .. *)
| DELETE_prompt_tags (join_tags : bool) (where_ : list cond).
    (* DELETE prompt_tags FROM prompt_tags INNER JOIN prompts ..
       [INNER JOIN tags ..] WHERE .. *)

(** A fetched row, as the dictionary cursor returns it. *)
Inductive result_row :=
| row_author (a : option string)                  (* {author} *)
| row_prompt (p : prompt_row) (tags_ : option string).  (* prompts.* and tags *)

(** A comparison with NULL is not true: a conjunct on [tags.tag] fails on
    the NULL-extended side of a LEFT JOIN, and [author = %s] fails on a
    NULL author. *)
Definition eval_cond (p : prompt_row) (t : option tag_row) (c : cond) : bool :=
  match c with
  | prompts_guid_eq g => String.eqb (r_guid p) g
  | prompts_display_name_eq n => String.eqb (r_display_name p) n
  | prompts_author_eq u =>
      match r_author p with Some a => String.eqb a u | None => false end
  | prompts_author_is_null =>
      match r_author p with Some _ => false | None => true end
  | tags_tag_eq x =>
      match t with Some tr => String.eqb (t_tag tr) x | None => false end
  | tags_tag_in xs =>
      match t with
      | Some tr => existsb (String.eqb (t_tag tr)) xs
      | None => false
      end
  end.

Definition eval_where (w : list cond) (p : prompt_row) (t : option tag_row)
  : bool :=
  forallb (eval_cond p t) w.

(** [IN ()] with no element is a syntax error of the statement. *)
Definition malformed (w : list cond) : bool :=
  existsb (fun c => match c with tags_tag_in [] => true | _ => false end) w.

(** The rows of [prompts LEFT JOIN prompt_tags LEFT JOIN tags] that stem
    from the prompt row [p]: the tag side of each, NULL-extended where a
    join finds no partner. *)
Definition joined_tags (s : Store) (p : prompt_row) : list (option tag_row) :=
  match filter (fun l => l_prompt_id l =? r_id p) (prompt_tags s) with
  | [] => [None]
  | ls =>
      flat_map
        (fun l =>
           match filter (fun t => t_id t =? l_tag_id l) (tags s) with
           | [] => [None]
           | ts => map Some ts
           end) ls
  end.

(** [GROUP_CONCAT(tags.tag)]: the non-NULL values joined by a comma, NULL
    when there is none. *)
Definition GROUP_CONCAT (g : list (option tag_row)) : option string :=
  match flat_map (fun o => match o with Some t => [t_tag t] | None => [] end) g
  with
  | [] => None
  | vs => Some (Py.join "," vs)
  end.

(** The grouped SELECT: [id] being the primary key, [GROUP BY prompts.id]
    forms one group per prompt row, out of the joined rows that pass the
    WHERE clause; a prompt none of whose joined rows pass yields no row. *)
Definition select_prompts_with_tags (w : list cond) (s : Store)
  : list result_row :=
  flat_map
    (fun p =>
       match filter (eval_where w p) (joined_tags s p) with
       | [] => []
       | g => [row_prompt p (GROUP_CONCAT g)]
       end) (prompts s).

Definition assign (p : prompt_row) (cv : column * string) : prompt_row :=
  match fst cv with
  | col_content =>
      mkPromptRow (r_id p) (r_guid p) (snd cv) (r_display_name p)
                  (r_author p) (r_created_at p) (r_updated_at p)
  | col_display_name =>
      mkPromptRow (r_id p) (r_guid p) (r_content p) (snd cv)
                  (r_author p) (r_created_at p) (r_updated_at p)
  end.

(** The (prompt id, tag id) pairs of [SELECT prompts.id, tags.id FROM
    prompts, tags WHERE ..]. *)
Definition select_pairs (w : list cond) (s : Store) : list link_row :=
  flat_map
    (fun p =>
       flat_map
         (fun t => if eval_where w p (Some t)
                   then [mkLink (r_id p) (t_id t)] else [])
         (tags s)) (prompts s).

Fixpoint has_dup (l : list link_row) : bool :=
  match l with
  | [] => false
  | x :: r => existsb (link_eqb x) r || has_dup r
  end.

(** Whether a link row is hit by the multi-table DELETE: it joins a prompt
    row (and, with [join_tags], a tag row) that passes the WHERE clause. *)
Definition link_selected (join_tags : bool) (w : list cond) (s : Store)
    (l : link_row) : bool :=
  existsb
    (fun p =>
       (r_id p =? l_prompt_id l) &&
       (if join_tags
        then existsb (fun t => (t_id t =? l_tag_id l)
                                 && eval_where w p (Some t)) (tags s)
        else eval_where w p None))
    (prompts s).

Definition with_prompts (s : Store) (ps : list prompt_row) (n : nat) : Store :=
  mkStore ps (tags s) (prompt_tags s) n (next_tag_id s) (clock s).

Definition with_tags (s : Store) (ts : list tag_row) (n : nat) : Store :=
  mkStore (prompts s) ts (prompt_tags s) (next_prompt_id s) n (clock s).

Definition with_prompt_tags (s : Store) (ls : list link_row) : Store :=
  mkStore (prompts s) (tags s) ls (next_prompt_id s) (next_tag_id s) (clock s).

(** One statement against the store: the new store and the result set, or
    the driver's error (the store is then as before). Rows come in table
    order, no ORDER BY being given. *)
Definition execute (q : stmt) (s : Store) : exn + (Store * list result_row) :=
  match q with
  | INSERT_prompts g c d a =>
      let row := mkPromptRow (next_prompt_id s) g c d a (clock s) (clock s) in
      inr (with_prompts s (prompts s ++ [row]) (S (next_prompt_id s)), [])
  | UPDATE_prompts sets w =>
      if malformed w then inl ProgrammingError else
      inr (with_prompts s
             (map (fun p => if eval_where w p None
                            then fold_left assign sets p else p) (prompts s))
             (next_prompt_id s), [])
  | DELETE_prompts w =>
      if malformed w then inl ProgrammingError else
      inr (with_prompts s
             (filter (fun p => negb (eval_where w p None)) (prompts s))
             (next_prompt_id s), [])
  | SELECT_author w =>
      if malformed w then inl ProgrammingError else
      inr (s, map (fun p => row_author (r_author p))
                  (filter (fun p => eval_where w p None) (prompts s)))
  | SELECT_prompts_with_tags w =>
      if malformed w then inl ProgrammingError else
      inr (s, select_prompts_with_tags w s)
  | INSERT_tags_on_duplicate_update x =>
      if existsb (fun t => String.eqb (t_tag t) x) (tags s)
      then inr (s, [])
      else inr (with_tags s (tags s ++ [mkTagRow (next_tag_id s) x])
                            (S (next_tag_id s)), [])
  | INSERT_prompt_tags_select w =>
      if malformed w then inl ProgrammingError else
      let new := select_pairs w s in
      if has_dup new
         || existsb (fun l => existsb (link_eqb l) (prompt_tags s)) new
      then inl IntegrityError
      else inr (with_prompt_tags s (prompt_tags s ++ new), [])
  | DELETE_prompt_tags j w =>
      if malformed w then inl ProgrammingError else
      inr (with_prompt_tags s
             (filter (fun l => negb (link_selected j w s l)) (prompt_tags s)),
           [])
  end.

(* ================================================================= *)
(** ** The database context and the monad of repository code *)

(** What the context was asked to do, in order. *)
Inductive event :=
| ev_begin
| ev_commit
| ev_rollback
| ev_execute (q : stmt).

(** Modelled from the spec: [data/__init__.py] ([DatabaseContext],
    [get_current_db_context]) is not among the sources. The context holds
    the store, the cursor's pending result set and the state saved by
    [begin_transaction], which [rollback_transaction] restores and
    [commit_transaction] drops. *)
Record DatabaseContext := mkCtx {
  store : Store;
  cursor : list result_row;
  snapshot : option Store;
  log : list event
}.

Definition fresh_context (s : Store) : DatabaseContext :=
  mkCtx s [] None [].

Inductive result (A : Type) :=
| Ok (a : A)
| Raise (e : exn).
Arguments Ok {A} a.
Arguments Raise {A} e.

(** A computation reads and changes the current context and either
    returns or raises; the context at the point of the raise is kept. *)
Definition M (A : Type) : Type := DatabaseContext -> result A * DatabaseContext.

Definition ret {A} (a : A) : M A := fun db => (Ok a, db).

Definition raise {A} (e : exn) : M A := fun db => (Raise e, db).

Definition bind {A B} (m : M A) (k : A -> M B) : M B :=
  fun db =>
    match m db with
    | (Ok a, db') => k a db'
    | (Raise e, db') => (Raise e, db')
    end.

Notation "x <- m ;; k" := (bind m (fun x => k))
  (at level 61, m at next level, right associativity).
Notation "m ;; k" := (bind m (fun _ => k))
  (at level 61, right associativity).

(** [for x in xs: body(x)] *)
Fixpoint for_each {A} (xs : list A) (body : A -> M unit) : M unit :=
  match xs with
  | [] => ret tt
  | x :: rest => body x ;; for_each rest body
  end.

(** [db.cursor.execute(sql, params)] *)
Definition cursor_execute (q : stmt) : M unit :=
  fun db =>
    let lg := log db ++ [ev_execute q] in
    match execute q (store db) with
    | inl e => (Raise e, mkCtx (store db) (cursor db) (snapshot db) lg)
    | inr (s', rows) => (Ok tt, mkCtx s' rows (snapshot db) lg)
    end.

(** [db.cursor.fetchone()] *)
Definition fetchone : M (option result_row) :=
  fun db =>
    match cursor db with
    | [] => (Ok None, db)
    | r :: rest => (Ok (Some r), mkCtx (store db) rest (snapshot db) (log db))
    end.

(** [db.cursor.fetchall()] *)
Definition fetchall : M (list result_row) :=
  fun db => (Ok (cursor db), mkCtx (store db) [] (snapshot db) (log db)).

Definition begin_transaction : M unit :=
  fun db =>
    (Ok tt, mkCtx (store db) (cursor db) (Some (store db)) (log db ++ [ev_begin])).

Definition commit_transaction : M unit :=
  fun db => (Ok tt, mkCtx (store db) (cursor db) None (log db ++ [ev_commit])).

Definition rollback_transaction : M unit :=
  fun db =>
    (Ok tt,
     mkCtx (match snapshot db with Some s => s | None => store db end)
           (cursor db) None (log db ++ [ev_rollback])).

(* ================================================================= *)
(** ** data/prompt_repository.py: [MySQLPromptRepository] *)

Module MySQLPromptRepository.

(** The ownership conjunct every scoped statement appends:
    [prompts.author = %s] with the user's name when a user is given,
    [prompts.author IS NULL] otherwise. *)
Definition author_clause (user : option User) : cond :=
  match user with
  | Some u => prompts_author_eq (username u)
  | None => prompts_author_is_null
  end.

(** [user.username if user else None] *)
Definition username_or_None (user : option User) : option string :=
  match user with Some u => Some (username u) | None => None end.

(** [row['author']] *)
Definition getitem_author (r : result_row) : option string :=
  match r with
  | row_author a => a
  | row_prompt p _ => r_author p
  end.

Definition _check_prompt_ownership (guid : string) (user : option User)
  : M unit :=
  cursor_execute (SELECT_author [prompts_guid_eq guid]) ;;
  r <- fetchone ;;
  match r with
  | None => raise TypeError                 (* None['author'] *)
  | Some row =>
      if negb (Py.opt_str_eqb (getitem_author row) (username_or_None user))
      then raise (UnauthorizedError unauthorized_msg)
      else ret tt
  end.

Definition add_tag_to_prompt (guid tag : string) (user : option User)
  : M unit :=
  cursor_execute (INSERT_tags_on_duplicate_update tag) ;;
  cursor_execute
    (INSERT_prompt_tags_select
       [prompts_guid_eq guid; tags_tag_eq tag; author_clause user]).

Definition remove_tag_from_prompt (guid tag : string) (user : option User)
  : M unit :=
  cursor_execute
    (DELETE_prompt_tags true
       [prompts_guid_eq guid; tags_tag_eq tag; author_clause user]).

Definition remove_all_tags_from_prompt (guid : string) (user : option User)
  : M unit :=
  cursor_execute
    (DELETE_prompt_tags false [prompts_guid_eq guid; author_clause user]).

(** [tags] is [None] when the caller passed [None]; iterating it is then
    a [TypeError]. *)
Definition _update_tags (guid : string) (tags_ : option (list string))
    (user : option User) : M unit :=
  _check_prompt_ownership guid user ;;
  remove_all_tags_from_prompt guid user ;;
  match tags_ with
  | None => raise TypeError
  | Some ts => for_each ts (fun tag => add_tag_to_prompt guid tag user)
  end.

(** [prompt_guid] is the value [core.make_guid()] returned. *)
Definition create_prompt (prompt_guid : string) (prompt : PromptCreate)
    (author : option User) : M string :=
  cursor_execute
    (INSERT_prompts prompt_guid (pc_content prompt) (pc_display_name prompt)
                    (username_or_None author)) ;;
  _update_tags prompt_guid (pc_tags prompt) author ;;
  ret prompt_guid.

(** [field not in ['guid', 'tags']]: the field names a column to set. *)
Definition column_of (f : field) : option column :=
  match f with
  | Fcontent => Some col_content
  | Fdisplay_name => Some col_display_name
  | Ftags => None
  end.

(** [getattr(prompt, field)] on the two scalar fields. *)
Definition getattr (prompt : PromptUpdate) (c : column) : option string :=
  match c with
  | col_content => pu_content prompt
  | col_display_name => pu_display_name prompt
  end.

(** One round of the loop over [prompt.dict(exclude_unset=True)]; the
    accumulator is the SET list built so far with [setting_a_field]. *)
Definition set_field (prompt : PromptUpdate)
    (acc : list (column * string) * bool) (f : field)
  : list (column * string) * bool :=
  match column_of f with
  | None => acc
  | Some c =>
      match getattr prompt c with
      | None => acc
      | Some v => (fst acc ++ [(c, v)], true)
      end
  end.

Definition build_sets (prompt : PromptUpdate)
  : list (column * string) * bool :=
  fold_left (set_field prompt) (dict_exclude_unset prompt) ([], false).

Definition update_prompt (guid : string) (prompt : PromptUpdate)
    (user : option User) : M unit :=
  let (sets, setting_a_field) := build_sets prompt in
  if negb setting_a_field
     && match pu_tags prompt with None => true | Some _ => false end
  then raise (DataValidationError "No fields to update")
  else
    (if setting_a_field
     then cursor_execute (UPDATE_prompts sets [prompts_guid_eq guid])
     else ret tt) ;;
    match pu_tags prompt with
    | Some ts => _update_tags guid (Some ts) user
    | None => ret tt
    end.

Definition delete_prompt (guid : string) (user : option User) : M unit :=
  _check_prompt_ownership guid user ;;
  cursor_execute (DELETE_prompts [prompts_guid_eq guid]) ;;
  remove_all_tags_from_prompt guid user.

(** The dictionary [make_result_dict] builds from the columns of a
    fetched row, handed to the [Prompt] constructor, which keeps the
    fields [Prompt] declares: [tags] is the aggregate split at the
    commas, or [[]] when the aggregate is NULL or empty. *)
Definition Prompt_of (p : prompt_row) (agg : option string) : Prompt :=
  {| p_content := Some (r_content p);
     p_display_name := Some (r_display_name p);
     p_tags :=
       Some (match agg with
             | Some s => if Py.truthy_str s then Py.split comma s else []
             | None => []
             end);
     p_id := r_id p;
     p_guid := r_guid p;
     p_created_at := r_created_at p;
     p_updated_at := r_updated_at p |}.

Definition make_result_dict (r : result_row) : M Prompt :=
  match r with
  | row_author _ => raise KeyError          (* result["id"] *)
  | row_prompt p agg => ret (Prompt_of p agg)
  end.

Definition fetch_prompt_or_not_found : M Prompt :=
  r <- fetchone ;;
  match r with
  | None => raise (RecordNotFoundError "Prompt not found")
  | Some row => make_result_dict row
  end.

Definition get_prompt (guid : string) (user : option User) : M Prompt :=
  cursor_execute
    (SELECT_prompts_with_tags [prompts_guid_eq guid; author_clause user]) ;;
  fetch_prompt_or_not_found.

Definition get_prompt_by_name (name : string) (user : option User)
  : M Prompt :=
  cursor_execute
    (SELECT_prompts_with_tags
       [prompts_display_name_eq name; author_clause user]) ;;
  fetch_prompt_or_not_found.

(** [[Prompt(make_result_dict(result)) for result in results]] *)
Fixpoint make_prompts (rows : list result_row) : M (list Prompt) :=
  match rows with
  | [] => ret []
  | r :: rest =>
      p <- make_result_dict r ;;
      ps <- make_prompts rest ;;
      ret (p :: ps)
  end.

Definition list_prompts (user : option User) : M (list Prompt) :=
  cursor_execute (SELECT_prompts_with_tags [author_clause user]) ;;
  results <- fetchall ;;
  make_prompts results.

Definition list_prompts_by_tags (tags_list : list string)
    (user : option User) : M (list Prompt) :=
  cursor_execute
    (SELECT_prompts_with_tags [tags_tag_in tags_list; author_clause user]) ;;
  results <- fetchall ;;
  make_prompts results.

End MySQLPromptRepository.

(* ================================================================= *)
(** ** service/prompt_service.py: [PromptService] *)

Module PromptService.

(** [self.prompt_repository] is the MySQL repository. *)
Import MySQLPromptRepository.

(** [except PromptException: raise known_exc] /
    [except Exception as e: raise PromptException(..) from e] *)
Definition reraise (e : exn) : exn :=
  if isinstance_PromptException e then e
  else PromptException unexpected_msg (Some e).

(** The write path: begin, run the repository call, commit; roll back
    and re-raise on any exception. *)
Definition in_transaction {A} (body : M A) : M A :=
  fun db =>
    let (_, db0) := begin_transaction db in
    match body db0 with
    | (Ok a, db1) => let (_, db2) := commit_transaction db1 in (Ok a, db2)
    | (Raise e, db1) =>
        let (_, db2) := rollback_transaction db1 in (Raise (reraise e), db2)
    end.

(** The read path: no transaction calls; exceptions are re-raised the
    same way. *)
Definition guarded {A} (body : M A) : M A :=
  fun db =>
    match body db with
    | (Ok a, db1) => (Ok a, db1)
    | (Raise e, db1) => (Raise (reraise e), db1)
    end.

Definition create_prompt (prompt_guid : string) (prompt : PromptCreate)
    (author : option User) : M string :=
  in_transaction (MySQLPromptRepository.create_prompt prompt_guid prompt author).

(** The façade first rebuilds the object from [prompt.dict()], which
    supplies every field. *)
Definition update_prompt (guid : string) (prompt : PromptUpdate)
    (user : option User) : M unit :=
  let prompt' := PromptUpdate_init (PromptUpdate_dict prompt) in
  in_transaction (MySQLPromptRepository.update_prompt guid prompt' user).

Definition delete_prompt (guid : string) (user : option User) : M unit :=
  in_transaction (MySQLPromptRepository.delete_prompt guid user).

Definition get_prompt (guid : string) (user : option User) : M Prompt :=
  guarded (MySQLPromptRepository.get_prompt guid user).

Definition get_prompt_by_name (name : string) (user : option User)
  : M Prompt :=
  guarded (MySQLPromptRepository.get_prompt_by_name name user).

Definition add_tag_to_prompt (guid tag : string) (user : option User)
  : M unit :=
  in_transaction (MySQLPromptRepository.add_tag_to_prompt guid tag user).

Definition remove_tag_from_prompt (guid tag : string) (user : option User)
  : M unit :=
  in_transaction (MySQLPromptRepository.remove_tag_from_prompt guid tag user).

Definition list_prompts (user : option User) : M (list Prompt) :=
  guarded (MySQLPromptRepository.list_prompts user).

Definition list_prompts_by_tags (tags_ : string) (user : option User)
  : M (list Prompt) :=
  guarded
    (let tags_list := Py.split comma tags_ in
     if negb (Py.truthy_list tags_list)
     then raise (DataValidationError "No tags provided.")
     else MySQLPromptRepository.list_prompts_by_tags tags_list user).

End PromptService.

(* ================================================================= *)
(** ** service/user_service.py: [UserService] *)

Module UserService.


End UserService.

(* ================================================================= *)
(** ** web/routers: the two routers *)

(** [l[start:stop]] on a list, for arbitrary integers: a negative index
    counts from the end, and both ends are clamped to the list. *)
Definition slice_index (n : nat) (i : Z) : nat :=
  if (i <? 0)%Z then Z.to_nat (Z.max 0 (i + Z.of_nat n))
  else Nat.min (Z.to_nat i) n.

Definition slice {A} (l : list A) (start stop : Z) : list A :=
  let a := slice_index (List.length l) start in
  let b := slice_index (List.length l) stop in
  firstn (b - a) (skipn a l).

(** What a route function ends with: its return value, the
    [HTTPException] it raised, or an exception it let through. *)
Inductive outcome (A : Type) :=
| Returned (a : A)
| HTTPException (status_code : nat) (detail : string)
| Uncaught (e : exn).
Arguments Returned {A} a.
Arguments HTTPException {A} status_code detail.
Arguments Uncaught {A} e.

(** [try: return body except RecordNotFoundError: raise
    HTTPException(status_code=404, detail="Prompt not found")] *)
Definition not_found_is_404 {A} (body : M A)
  : DatabaseContext -> outcome A * DatabaseContext :=
  fun db =>
    match body db with
    | (Ok a, db1) => (Returned a, db1)
    | (Raise (RecordNotFoundError _), db1) =>
        (HTTPException 404 "Prompt not found", db1)
    | (Raise e, db1) => (Uncaught e, db1)
    end.

(** web/routers/private_prompts.py; [user] is the logged-in user that
    [require_current_user] supplies. *)
Module PrivateRouter.

Definition add_prompt (prompt_guid : string) (prompt : PromptCreate)
    (user : User) : M string :=
  PromptService.create_prompt prompt_guid prompt (Some user).

Definition delete_prompt (guid : string) (user : User) : M unit :=
  PromptService.delete_prompt guid (Some user) ;; ret tt.

Definition update_prompt (guid : string) (prompt : PromptUpdate)
    (user : User) : M unit :=
  PromptService.update_prompt guid prompt (Some user) ;; ret tt.

Definition get_prompt (guid : string) (user : User)
  : DatabaseContext -> outcome Prompt * DatabaseContext :=
  not_found_is_404 (PromptService.get_prompt guid (Some user)).

Definition get_prompt_by_name (name : string) (user : User)
  : DatabaseContext -> outcome Prompt * DatabaseContext :=
  not_found_is_404 (PromptService.get_prompt_by_name name (Some user)).

(** [service.list_prompts(user)[skip: skip + limit]] *)
Definition list_prompts (skip limit : Z) (user : User) : M (list Prompt) :=
  ps <- PromptService.list_prompts (Some user) ;;
  ret (slice ps skip (skip + limit)).

Definition list_prompts_by_tag (tags_ : string) (user : User)
  : M (list Prompt) :=
  PromptService.list_prompts_by_tags tags_ (Some user).

Definition add_tag_to_prompt (guid tag : string) (user : User) : M unit :=
  PromptService.add_tag_to_prompt guid tag (Some user) ;; ret tt.

Definition remove_tag_from_prompt (guid tag : string) (user : User)
  : M unit :=
  PromptService.remove_tag_from_prompt guid tag (Some user) ;; ret tt.

End PrivateRouter.

(** web/routers/public_prompts.py: every call reaches the service without
    a user. [get_prompt_by_name], which first decodes the name with
    [urllib.parse.unquote_plus], is left out. *)
Module PublicRouter.

Definition add_prompt (prompt_guid : string) (prompt : PromptCreate)
  : M string :=
  PromptService.create_prompt prompt_guid prompt None.

Definition delete_prompt (guid : string) : M unit :=
  PromptService.delete_prompt guid None ;; ret tt.

Definition update_prompt (guid : string) (prompt : PromptUpdate) : M unit :=
  PromptService.update_prompt guid prompt None ;; ret tt.

Definition get_prompt (guid : string)
  : DatabaseContext -> outcome Prompt * DatabaseContext :=
  not_found_is_404 (PromptService.get_prompt guid None).

Definition list_prompts (skip limit : Z) : M (list Prompt) :=
  ps <- PromptService.list_prompts None ;;
  ret (slice ps skip (skip + limit)).

Definition list_prompts_by_tag (tags_ : string) : M (list Prompt) :=
  PromptService.list_prompts_by_tags tags_ None.

Definition add_tag_to_prompt (guid tag : string) : M unit :=
  PromptService.add_tag_to_prompt guid tag None ;; ret tt.

Definition remove_tag_from_prompt (guid tag : string) : M unit :=
  PromptService.remove_tag_from_prompt guid tag None ;; ret tt.

End PublicRouter.

(* ================================================================= *)
(** ** Observations on a store *)

Import MySQLPromptRepository.

(** The ownership scope of a caller: a row is in scope when its author is
    the caller's username, or is NULL for the anonymous caller. *)
Definition in_scope (user : option User) (p : prompt_row) : bool :=
  Py.opt_str_eqb (r_author p) (username_or_None user).

Definition has_guid (g : string) (p : prompt_row) : bool :=
  String.eqb (r_guid p) g.

Definition has_name (n : string) (p : prompt_row) : bool :=
  String.eqb (r_display_name p) n.

(** The tag strings linked to the prompt with identity [pid]. *)
Definition tags_of (s : Store) (pid : nat) : list string :=
  flat_map
    (fun l => map t_tag (filter (fun t => t_id t =? l_tag_id l) (tags s)))
    (filter (fun l => l_prompt_id l =? pid) (prompt_tags s)).

(** Whether some tag linked to [p] is one of [ts]. *)
Definition has_tag_in (s : Store) (ts : list string) (p : prompt_row) : bool :=
  existsb (fun x => existsb (String.eqb x) ts) (tags_of s (r_id p)).

(** A returned [Prompt] carries the columns of the row [p]. *)
Definition represents (pr : Prompt) (p : prompt_row) : Prop :=
  p_id pr = r_id p /\ p_guid pr = r_guid p
  /\ p_content pr = Some (r_content p)
  /\ p_display_name pr = Some (r_display_name p)
  /\ p_created_at pr = r_created_at p /\ p_updated_at pr = r_updated_at p.

(** The schema's keys and the counters: primary keys and guids are
    unique, tag strings are unique, a (prompt, tag) pair is linked at most
    once, and no identity at or above a counter is in use. *)
Record wf_store (s : Store) : Prop := mkWf {
  wf_prompt_ids : NoDup (map r_id (prompts s));
  wf_prompt_guids : NoDup (map r_guid (prompts s));
  wf_prompt_bound : forall p, In p (prompts s) -> r_id p < next_prompt_id s;
  wf_tag_ids : NoDup (map t_id (tags s));
  wf_tag_strings : NoDup (map t_tag (tags s));
  wf_tag_bound : forall t, In t (tags s) -> t_id t < next_tag_id s;
  wf_links : has_dup (prompt_tags s) = false;
  wf_link_bound :
    forall l, In l (prompt_tags s) ->
              l_prompt_id l < next_prompt_id s /\ l_tag_id l < next_tag_id s
}.

(** Two callers and a store with one private prompt of [alice], tagged
    [a] and [c]. *)
Definition alice : User := mkUser "alice" "pw" "k".
Definition bob : User := mkUser "bob" "pw" "k".

Definition demo_row : prompt_row :=
  mkPromptRow 1 "g1" "hello" "name" (Some "alice") 0 0.

Definition demo_store : Store :=
  mkStore [demo_row] [mkTagRow 1 "a"; mkTagRow 2 "c"]
          [mkLink 1 1; mkLink 1 2] 2 3 0.

Definition demo_db : DatabaseContext := fresh_context demo_store.

(** The update input that supplies [display_name] alone, and the one that
    supplies nothing. *)
Definition rename_only : update_input :=
  mkUpdateInput None (Some (Some "new")) None.

Definition empty_input : update_input := mkUpdateInput None None None.

(** A computation under which the schema's keys survive. *)
Definition preserves_wf {A} (m : M A) : Prop :=
  forall db, wf_store (store db) -> wf_store (store (snd (m db))).

(** Every statement but the insertion of a prompt row, which needs a
    guid that is not in use. *)
Definition not_insert_prompts (q : stmt) : Prop :=
  match q with INSERT_prompts _ _ _ _ => False | _ => True end.

(** A computation that never raises the validation error. *)
Definition never_invalid {A} (m : M A) : Prop :=
  forall db msg, fst (m db) <> Raise (DataValidationError msg).



(** A write through the façade is all or nothing: when it raises, the
    store is the one it started from and the last thing done is the
    rollback; when it returns, the last thing done is the commit. Either
    way no transaction is left open. *)
Definition atomic {A} (m : M A) : Prop :=
  forall db,
    snapshot (snd (m db)) = None
    /\ (forall e, fst (m db) = Raise e ->
                  store (snd (m db)) = store db
                  /\ exists lg, log (snd (m db)) = lg ++ [ev_rollback])
    /\ (forall a, fst (m db) = Ok a ->
                  exists lg, log (snd (m db)) = lg ++ [ev_commit]).

(** A read through the façade: the store and the transaction state are
    as before, and the one thing done is the SELECT [q]. *)
Definition reads_with {A} (q : stmt) (m : M A) : Prop :=
  forall db,
    store (snd (m db)) = store db
    /\ snapshot (snd (m db)) = snapshot db
    /\ log (snd (m db)) = log db ++ [ev_execute q].

(** A computation that removes no row of the tag vocabulary. *)
Definition keeps_vocabulary {A} (m : M A) : Prop :=
  forall db t, In t (tags (store db)) -> In t (tags (store (snd (m db)))).

(** A computation that only adds to the log of the context. *)
Definition appends_log {A} (m : M A) : Prop :=
  forall db, exists rest, log (snd (m db)) = log db ++ rest.

(** A computation that leaves the saved transaction state alone. *)
Definition keeps_snapshot {A} (m : M A) : Prop :=
  forall db, snapshot (snd (m db)) = snapshot db.

(* ================================================================= *)
(** ** Basic facts *)

Lemma opt_str_eqb_true (a b : option string) :
  Py.opt_str_eqb a b = true <-> a = b.
Proof.
  destruct a as [x|], b as [y|]; simpl; split; intro H;
    try discriminate; try reflexivity.
  - apply String.eqb_eq in H. now subst.
  - inversion H. apply String.eqb_refl.
Qed.

Lemma opt_str_eqb_false (a b : option string) :
  Py.opt_str_eqb a b = false <-> a <> b.
Proof.
  split.
  - intros H E. apply opt_str_eqb_true in E. congruence.
  - intro H. destruct (Py.opt_str_eqb a b) eqn:E; [|reflexivity].
    apply opt_str_eqb_true in E. contradiction.
Qed.

Lemma split_not_nil (sep : ascii) (s : string) : Py.split sep s <> [].
Proof.
  induction s as [|c rest IH]; simpl.
  - discriminate.
  - destruct (Ascii.eqb c sep); [discriminate|].
    destruct (Py.split sep rest); discriminate.
Qed.

Lemma truthy_split (sep : ascii) (s : string) :
  Py.truthy_list (Py.split sep s) = true.
Proof.
  pose proof (split_not_nil sep s) as H.
  destruct (Py.split sep s); [contradiction|reflexivity].
Qed.

Lemma eval_where_single (c : cond) (p : prompt_row) (t : option tag_row) :
  eval_where [c] p t = eval_cond p t c.
Proof. unfold eval_where. simpl. apply andb_true_r. Qed.

Lemma filter_none {A} (f : A -> bool) (l : list A) :
  (forall x, In x l -> f x = false) -> filter f l = [].
Proof.
  induction l as [|a l IH]; simpl; intro H; [reflexivity|].
  rewrite (H a (or_introl eq_refl)). apply IH. intros x Hx. apply H. now right.
Qed.

Lemma filter_all {A} (f : A -> bool) (l : list A) :
  (forall x, In x l -> f x = true) -> filter f l = l.
Proof.
  induction l as [|a l IH]; simpl; intro H; [reflexivity|].
  rewrite (H a (or_introl eq_refl)). f_equal. apply IH.
  intros x Hx. apply H. now right.
Qed.

Lemma map_untouched {A} (f : A -> bool) (g : A -> A) (l : list A) :
  (forall x, In x l -> f x = false) ->
  map (fun x => if f x then g x else x) l = l.
Proof.
  induction l as [|a l IH]; simpl; intro H; [reflexivity|].
  rewrite (H a (or_introl eq_refl)). f_equal. apply IH.
  intros x Hx. apply H. now right.
Qed.

Lemma find_filter_hd {A} (f : A -> bool) (l : list A) :
  hd_error (filter f l) = find f l.
Proof.
  induction l as [|a l IH]; simpl; [reflexivity|].
  destruct (f a); [reflexivity|exact IH].
Qed.

Lemma find_none_iff {A} (f : A -> bool) (l : list A) :
  find f l = None <-> forall x, In x l -> f x = false.
Proof.
  split.
  - apply find_none.
  - induction l as [|a l IH]; simpl; intro H; [reflexivity|].
    rewrite (H a (or_introl eq_refl)). apply IH. intros x Hx. apply H. now right.
Qed.

Lemma bind_ok {A B} (m : M A) (k : A -> M B) (db db1 : DatabaseContext)
    (a : A) :
  m db = (Ok a, db1) -> bind m k db = k a db1.
Proof. intro H. unfold bind. now rewrite H. Qed.

Lemma bind_raise {A B} (m : M A) (k : A -> M B) (db db1 : DatabaseContext)
    (e : exn) :
  m db = (Raise e, db1) -> bind m k db = (Raise e, db1).
Proof. intro H. unfold bind. now rewrite H. Qed.

Lemma cursor_execute_ok (q : stmt) (db : DatabaseContext) (s' : Store)
    (rows : list result_row) :
  execute q (store db) = inr (s', rows) ->
  cursor_execute q db
  = (Ok tt, mkCtx s' rows (snapshot db) (log db ++ [ev_execute q])).
Proof. intro H. unfold cursor_execute. now rewrite H. Qed.

Lemma cursor_execute_raise (q : stmt) (db : DatabaseContext) (e : exn) :
  execute q (store db) = inl e ->
  cursor_execute q db
  = (Raise e,
     mkCtx (store db) (cursor db) (snapshot db) (log db ++ [ev_execute q])).
Proof. intro H. unfold cursor_execute. now rewrite H. Qed.

(** The ownership check reads one row and changes nothing: it fails with
    [TypeError] when no row has the guid, with [UnauthorizedError] when the
    first such row is out of the caller's scope. *)
Lemma check_prompt_ownership_spec (g : string) (user : option User)
    (db : DatabaseContext) :
  let r := _check_prompt_ownership g user db in
  store (snd r) = store db
  /\ snapshot (snd r) = snapshot db
  /\ log (snd r) = log db ++ [ev_execute (SELECT_author [prompts_guid_eq g])]
  /\ fst r = match find (has_guid g) (prompts (store db)) with
             | None => Raise TypeError
             | Some p => if in_scope user p then Ok tt
                         else Raise (UnauthorizedError unauthorized_msg)
             end.
Proof.
  unfold _check_prompt_ownership, bind, cursor_execute, fetchone. simpl.
  rewrite <- find_filter_hd.
  rewrite (filter_ext (has_guid g)
             (fun p => eval_where [prompts_guid_eq g] p None)).
  2:{ intro p. now rewrite eval_where_single. }
  destruct (filter _ (prompts (store db))) as [|p rest]; simpl.
  - repeat split; reflexivity.
  - unfold in_scope. unfold raise, ret.
    destruct (Py.opt_str_eqb (r_author p) (username_or_None user)); simpl;
      repeat split; reflexivity.
Qed.

Lemma find_guid_missing (g : string) (s : Store) :
  (forall p, In p (prompts s) -> r_guid p <> g) ->
  find (has_guid g) (prompts s) = None.
Proof.
  intro H. apply find_none_iff. intros p Hp. unfold has_guid.
  apply String.eqb_neq. now apply H.
Qed.

Lemma keeps_ret {A} (a : A) : keeps_snapshot (ret a).
Proof. intro db. reflexivity. Qed.

Lemma keeps_raise {A} (e : exn) : keeps_snapshot (@raise A e).
Proof. intro db. reflexivity. Qed.

Lemma keeps_bind {A B} (m : M A) (k : A -> M B) :
  keeps_snapshot m -> (forall a, keeps_snapshot (k a)) ->
  keeps_snapshot (bind m k).
Proof.
  intros Hm Hk db. unfold bind. specialize (Hm db).
  destruct (m db) as [[a|e] db1]; simpl in *; [|exact Hm].
  now rewrite Hk.
Qed.

Lemma keeps_cursor_execute (q : stmt) : keeps_snapshot (cursor_execute q).
Proof.
  intro db. unfold cursor_execute.
  destruct (execute q (store db)) as [e|[s' rows]]; reflexivity.
Qed.

Lemma keeps_fetchone : keeps_snapshot fetchone.
Proof. intro db. unfold fetchone. destruct (cursor db); reflexivity. Qed.

Lemma keeps_fetchall : keeps_snapshot fetchall.
Proof. intro db. reflexivity. Qed.

Lemma keeps_for_each {A} (xs : list A) (body : A -> M unit) :
  (forall x, keeps_snapshot (body x)) -> keeps_snapshot (for_each xs body).
Proof.
  intro H. induction xs as [|x xs IH]; simpl.
  - apply keeps_ret.
  - apply keeps_bind; [apply H|intros _; exact IH].
Qed.

Create HintDb snap discriminated.
#[local] Hint Resolve keeps_ret keeps_raise keeps_cursor_execute keeps_fetchone
  keeps_fetchall : snap.
#[local] Hint Extern 2 (keeps_snapshot (bind _ _)) =>
  apply keeps_bind; [|intro] : snap.
#[local] Hint Extern 2 (keeps_snapshot (for_each _ _)) =>
  apply keeps_for_each; intro : snap.
#[local] Hint Extern 3 (keeps_snapshot (match ?x with _ => _ end)) =>
  destruct x : snap.
#[local] Hint Extern 3 (keeps_snapshot (if ?x then _ else _)) =>
  destruct x : snap.

Lemma keeps_check (g : string) (user : option User) :
  keeps_snapshot (_check_prompt_ownership g user).
Proof. unfold _check_prompt_ownership. auto 10 with snap. Qed.

Lemma keeps_add_tag (g t : string) (user : option User) :
  keeps_snapshot (add_tag_to_prompt g t user).
Proof. unfold add_tag_to_prompt. auto with snap. Qed.

Lemma keeps_remove_all (g : string) (user : option User) :
  keeps_snapshot (remove_all_tags_from_prompt g user).
Proof. unfold remove_all_tags_from_prompt. auto with snap. Qed.

#[local] Hint Resolve keeps_check keeps_add_tag keeps_remove_all : snap.

Lemma keeps_update_tags (g : string) (ts : option (list string))
    (user : option User) :
  keeps_snapshot (_update_tags g ts user).
Proof. unfold _update_tags. auto 10 with snap. Qed.

#[local] Hint Resolve keeps_update_tags : snap.

Lemma keeps_create_prompt (g : string) (prompt : PromptCreate)
    (author : option User) :
  keeps_snapshot (create_prompt g prompt author).
Proof. unfold create_prompt. auto 10 with snap. Qed.

Lemma keeps_update_prompt (g : string) (prompt : PromptUpdate)
    (user : option User) :
  keeps_snapshot (update_prompt g prompt user).
Proof.
  unfold update_prompt. destruct (build_sets prompt) as [sets setting].
  auto 10 with snap.
Qed.

Lemma keeps_delete_prompt (g : string) (user : option User) :
  keeps_snapshot (delete_prompt g user).
Proof. unfold delete_prompt. auto 10 with snap. Qed.

Lemma keeps_remove_tag (g t : string) (user : option User) :
  keeps_snapshot (remove_tag_from_prompt g t user).
Proof. unfold remove_tag_from_prompt. auto with snap. Qed.

(** What the façade makes of a raising body: the exception is re-raised
    (wrapped unless it is a domain error), the store is the one the
    transaction began with, and the last thing done is the rollback. *)
Lemma in_transaction_raise {A} (body : M A) (db : DatabaseContext) (e : exn) :
  keeps_snapshot body ->
  fst (body (snd (begin_transaction db))) = Raise e ->
  let r := PromptService.in_transaction body db in
  fst r = Raise (PromptService.reraise e)
  /\ store (snd r) = store db
  /\ exists lg, log (snd r) = lg ++ [ev_rollback].
Proof.
  unfold PromptService.in_transaction. simpl. intro K.
  specialize (K (snd (begin_transaction db))). simpl in K.
  destruct (body _) as [[a|e'] db1] eqn:E; simpl in *; intro H;
    [discriminate|].
  inversion H; subst. split; [reflexivity|]. rewrite K.
  split; [reflexivity|]. now exists (log db1).
Qed.


Lemma delete_prompt_check_fails (g : string) (user : option User)
    (db : DatabaseContext) (e : exn) :
  fst (_check_prompt_ownership g user db) = Raise e ->
  fst (delete_prompt g user db) = Raise e
  /\ store (snd (delete_prompt g user db)) = store db
  /\ log (snd (delete_prompt g user db))
     = log db ++ [ev_execute (SELECT_author [prompts_guid_eq g])].
Proof.
  intro H. unfold delete_prompt, bind.
  destruct (check_prompt_ownership_spec g user db) as (Hs & _ & Hl & _).
  destruct (_check_prompt_ownership g user db) as [[u|e'] db1]; simpl in *;
    [discriminate|].
  inversion H; subst. auto.
Qed.

Lemma update_tags_check_fails (g : string) (ts : option (list string))
    (user : option User) (db : DatabaseContext) (e : exn) :
  fst (_check_prompt_ownership g user db) = Raise e ->
  fst (_update_tags g ts user db) = Raise e
  /\ store (snd (_update_tags g ts user db)) = store db.
Proof.
  intro H. unfold _update_tags, bind.
  destruct (check_prompt_ownership_spec g user db) as (Hs & _ & Hl & _).
  destruct (_check_prompt_ownership g user db) as [[u|e'] db1]; simpl in *;
    [discriminate|].
  inversion H; subst. auto.
Qed.

(** The column update touches no row when no row has the guid. *)
Lemma update_statement_missing (g : string) (sets : list (column * string))
    (db : DatabaseContext) :
  find (has_guid g) (prompts (store db)) = None ->
  let r := cursor_execute (UPDATE_prompts sets [prompts_guid_eq g]) db in
  fst r = Ok tt /\ store (snd r) = store db.
Proof.
  intro H. unfold cursor_execute. simpl. split; [reflexivity|].
  unfold with_prompts. rewrite map_untouched.
  - now destruct (store db).
  - intros p Hp. cbv beta. rewrite andb_true_r.
    exact (proj1 (find_none_iff _ _) H p Hp).
Qed.

Lemma update_prompt_missing (g : string) (prompt : PromptUpdate)
    (ts : list string) (user : option User) (db : DatabaseContext) :
  pu_tags prompt = Some ts ->
  find (has_guid g) (prompts (store db)) = None ->
  fst (update_prompt g prompt user db) = Raise TypeError.
Proof.
  intros Ht Hf. unfold update_prompt.
  destruct (build_sets prompt) as [sets setting]. rewrite Ht.
  rewrite andb_false_r. unfold bind at 1.
  assert (Hc : forall db', store db' = store db ->
            fst (_update_tags g (Some ts) user db') = Raise TypeError).
  { intros db' Hs. apply update_tags_check_fails.
    destruct (check_prompt_ownership_spec g user db') as (_ & _ & _ & Hr).
    simpl in Hr. rewrite Hr, Hs, Hf. reflexivity. }
  destruct setting.
  - destruct (update_statement_missing g sets db Hf) as [Hr Hs].
    destruct (cursor_execute _ db) as [[u|e] db1]; simpl in *;
      [|discriminate].
    now apply Hc.
  - simpl. now apply Hc.
Qed.

(** ** Claims *)

(** C10. For a guid that no prompt row carries, and for every caller,
    [delete_prompt] and an [update_prompt] that carries tags raise neither
    [RecordNotFoundError] nor [UnauthorizedError]: the ownership check
    subscripts the missing row, which is a [TypeError] in the repository,
    and the façade surfaces it as the generic [PromptException] after
    rolling the transaction back, the store being as before. *)
Theorem missing_guid_unexpected_error (g : string) (user : option User)
    (db : DatabaseContext) :
  (forall p, In p (prompts (store db)) -> r_guid p <> g) ->
  (fst (delete_prompt g user db) = Raise TypeError
   /\ let r := PromptService.delete_prompt g user db in
      fst r = Raise (PromptException unexpected_msg (Some TypeError))
      /\ store (snd r) = store db
      /\ exists lg, log (snd r) = lg ++ [ev_rollback])
  /\ forall prompt ts, pu_tags prompt = Some ts ->
       fst (update_prompt g prompt user db) = Raise TypeError
       /\ let r := PromptService.update_prompt g prompt user db in
          fst r = Raise (PromptException unexpected_msg (Some TypeError))
          /\ store (snd r) = store db
          /\ exists lg, log (snd r) = lg ++ [ev_rollback].
Proof.
  intro Hmiss. pose proof (find_guid_missing g (store db) Hmiss) as Hf.
  assert (Hdel : forall db', store db' = store db ->
            fst (delete_prompt g user db') = Raise TypeError).
  { intros db' Hs. apply delete_prompt_check_fails.
    destruct (check_prompt_ownership_spec g user db') as (_ & _ & _ & Hr).
    simpl in Hr. rewrite Hr, Hs, Hf. reflexivity. }
  split.
  - split; [now apply Hdel|].
    apply (in_transaction_raise (delete_prompt g user) db TypeError).
    + apply keeps_delete_prompt.
    + now apply Hdel.
  - intros prompt ts Ht. split.
    + now apply update_prompt_missing with (ts := ts).
    + unfold PromptService.update_prompt.
      apply (in_transaction_raise _ db TypeError).
      * apply keeps_update_prompt.
      * apply update_prompt_missing with (ts := ts); [exact Ht|exact Hf].
Qed.

Lemma missing_guid_unexpected_error_witness :
  (forall p, In p (prompts (store demo_db)) -> r_guid p <> "g2")
  /\ fst (PromptService.delete_prompt "g2" (Some alice) demo_db)
     = Raise (PromptException unexpected_msg (Some TypeError)).
Proof.
  assert (H : forall p, In p (prompts (store demo_db)) -> r_guid p <> "g2").
  { simpl. intros p [<-|[]]. discriminate. }
  split; [exact H|].
  exact (proj1 (proj2 (proj1
           (missing_guid_unexpected_error "g2" (Some alice) demo_db H)))).
Defined.

(** C5. [delete_prompt] called by a caller whose scope differs from the
    stored author of the prompt (another user, or exactly one side being
    the public scope) raises [UnauthorizedError]; only the ownership SELECT
    has been executed by then, and the store, prompt row and tag links
    included, is as before. The façade re-raises the error unchanged. *)
Theorem delete_by_non_owner_unauthorized (g : string) (user : option User)
    (db : DatabaseContext) (p : prompt_row) :
  find (has_guid g) (prompts (store db)) = Some p ->
  r_author p <> username_or_None user ->
  (let r := delete_prompt g user db in
   fst r = Raise (UnauthorizedError unauthorized_msg)
   /\ store (snd r) = store db
   /\ log (snd r) = log db ++ [ev_execute (SELECT_author [prompts_guid_eq g])])
  /\ (let r := PromptService.delete_prompt g user db in
      fst r = Raise (UnauthorizedError unauthorized_msg)
      /\ store (snd r) = store db).
Proof.
  intros Hf Ha.
  assert (Hchk : forall db', store db' = store db ->
            fst (_check_prompt_ownership g user db')
            = Raise (UnauthorizedError unauthorized_msg)).
  { intros db' Hs.
    destruct (check_prompt_ownership_spec g user db') as (_ & _ & _ & Hr).
    simpl in Hr. rewrite Hr, Hs, Hf. unfold in_scope.
    now rewrite (proj2 (opt_str_eqb_false _ _) Ha). }
  split.
  - apply delete_prompt_check_fails. now apply Hchk.
  - destruct (in_transaction_raise (delete_prompt g user) db
                (UnauthorizedError unauthorized_msg)) as (H1 & H2 & _).
    + apply keeps_delete_prompt.
    + apply delete_prompt_check_fails. now apply Hchk.
    + split; assumption.
Qed.

Lemma delete_by_non_owner_unauthorized_witness :
  find (has_guid "g1") (prompts (store demo_db)) = Some demo_row
  /\ r_author demo_row <> username_or_None (Some bob)
  /\ fst (delete_prompt "g1" (Some bob) demo_db)
     = Raise (UnauthorizedError unauthorized_msg)
  /\ store (snd (delete_prompt "g1" (Some bob) demo_db)) = demo_store.
Proof.
  assert (H1 : find (has_guid "g1") (prompts (store demo_db)) = Some demo_row)
    by reflexivity.
  assert (H2 : r_author demo_row <> username_or_None (Some bob))
    by (simpl; discriminate).
  pose proof (proj1 (delete_by_non_owner_unauthorized
                       "g1" (Some bob) demo_db demo_row H1 H2))
    as (Ha & Hb & _).
  split; [exact H1|]. split; [exact H2|]. split; [exact Ha|exact Hb].
Defined.

(* ----------------------------------------------------------------- *)
(** *** The grouped SELECT *)

Lemma joined_tags_not_nil (s : Store) (p : prompt_row) : joined_tags s p <> [].
Proof.
  unfold joined_tags.
  destruct (filter _ (prompt_tags s)) as [|l ls]; [discriminate|].
  simpl. destruct (filter _ (tags s)); discriminate.
Qed.

Lemma flat_map_flat_map {A B C} (f : A -> list B) (g : B -> list C)
    (l : list A) :
  flat_map g (flat_map f l) = flat_map (fun a => flat_map g (f a)) l.
Proof.
  induction l as [|a l IH]; simpl; [reflexivity|].
  now rewrite flat_map_app, IH.
Qed.

Lemma flat_map_some_map {A B} (f : A -> B) (l : list A) :
  flat_map (fun o : option A => match o with Some t => [f t] | None => [] end)
           (map Some l) = map f l.
Proof. induction l as [|a l IH]; simpl; [reflexivity|now rewrite IH]. Qed.

(** The non-NULL tag strings among the joined rows of a prompt are the
    tags linked to it. *)
Lemma joined_tags_tags_of (s : Store) (p : prompt_row) :
  flat_map (fun o => match o with Some t => [t_tag t] | None => [] end)
           (joined_tags s p) = tags_of s (r_id p).
Proof.
  unfold joined_tags, tags_of.
  destruct (filter _ (prompt_tags s)) as [|l ls] eqn:E; [reflexivity|].
  rewrite flat_map_flat_map. apply flat_map_ext. intro l'.
  destruct (filter _ (tags s)) as [|t ts] eqn:Et; [reflexivity|].
  apply (flat_map_some_map t_tag (t :: ts)).
Qed.

Lemma existsb_pointwise {A} (f g : A -> bool) (l : list A) :
  (forall x, f x = g x) -> existsb f l = existsb g l.
Proof.
  intro H. induction l as [|a l IH]; simpl; [reflexivity|].
  now rewrite H, IH.
Qed.

Lemma existsb_const {A} (b : bool) (l : list A) :
  l <> [] -> existsb (fun _ => b) l = b.
Proof.
  induction l as [|a l IH]; [contradiction|]. intros _. simpl.
  destruct b; [reflexivity|]. simpl.
  destruct l; [reflexivity|]. apply IH. discriminate.
Qed.

Lemma filter_const {A} (b : bool) (l : list A) :
  filter (fun _ => b) l = if b then l else [].
Proof.
  destruct b; [apply filter_all|apply filter_none]; reflexivity.
Qed.

Lemma existsb_some_tag (f : string -> bool) (l : list (option tag_row)) :
  existsb (fun o => match o with Some t => f (t_tag t) | None => false end) l
  = existsb f
      (flat_map (fun o => match o with Some t => [t_tag t] | None => [] end) l).
Proof.
  induction l as [|[t|] l IH]; simpl; [reflexivity| |exact IH].
  now rewrite IH.
Qed.

Lemma author_clause_in_scope (user : option User) (p : prompt_row)
    (t : option tag_row) :
  eval_cond p t (author_clause user) = in_scope user p.
Proof.
  unfold in_scope. destruct user as [u|]; simpl;
    destruct (r_author p) as [a|]; reflexivity.
Qed.

(** One result row per prompt that has a joined row passing the WHERE
    clause, in table order. *)
Lemma select_prompts_with_tags_eq (w : list cond) (s : Store) :
  select_prompts_with_tags w s
  = map (fun p => row_prompt p
                    (GROUP_CONCAT (filter (eval_where w p) (joined_tags s p))))
        (filter (fun p => existsb (eval_where w p) (joined_tags s p))
                (prompts s)).
Proof.
  unfold select_prompts_with_tags.
  induction (prompts s) as [|p ps IH]; simpl; [reflexivity|].
  rewrite IH.
  destruct (filter (eval_where w p) (joined_tags s p)) as [|x xs] eqn:E.
  - assert (H : existsb (eval_where w p) (joined_tags s p) = false).
    { destruct (existsb _ _) eqn:Ex; [|reflexivity].
      apply existsb_exists in Ex. destruct Ex as (y & Hy & Hw).
      assert (Hin : In y (filter (eval_where w p) (joined_tags s p)))
        by (apply filter_In; auto).
      rewrite E in Hin. contradiction. }
    rewrite H. reflexivity.
  - assert (H : existsb (eval_where w p) (joined_tags s p) = true).
    { apply existsb_exists. exists x.
      apply filter_In. rewrite E. now left. }
    rewrite H. simpl. rewrite E. reflexivity.
Qed.

Lemma make_prompts_rows (f : prompt_row -> option string)
    (l : list prompt_row) (db : DatabaseContext) :
  make_prompts (map (fun p => row_prompt p (f p)) l) db
  = (Ok (map (fun p => Prompt_of p (f p)) l), db).
Proof.
  induction l as [|p l IH]; simpl; [reflexivity|].
  unfold bind at 1. simpl. unfold bind at 1. now rewrite IH.
Qed.

Lemma represents_Prompt_of (p : prompt_row) (agg : option string) :
  represents (Prompt_of p agg) p.
Proof. repeat split. Qed.

Lemma Forall2_represents (f : prompt_row -> option string)
    (l : list prompt_row) :
  Forall2 represents (map (fun p => Prompt_of p (f p)) l) l.
Proof.
  induction l; simpl; constructor; [apply represents_Prompt_of|assumption].
Qed.

(** Which prompts each of the four scoped SELECTs keeps. *)
Lemma where_list (user : option User) (s : Store) (p : prompt_row) :
  existsb (eval_where [author_clause user] p) (joined_tags s p)
  = in_scope user p.
Proof.
  rewrite (existsb_pointwise _ (fun _ => in_scope user p)).
  - apply existsb_const, joined_tags_not_nil.
  - intro t. rewrite eval_where_single. apply author_clause_in_scope.
Qed.

Lemma where_guid (g : string) (user : option User) (s : Store)
    (p : prompt_row) :
  existsb (eval_where [prompts_guid_eq g; author_clause user] p)
          (joined_tags s p)
  = has_guid g p && in_scope user p.
Proof.
  rewrite (existsb_pointwise _ (fun _ => has_guid g p && in_scope user p)).
  - apply existsb_const, joined_tags_not_nil.
  - intro t. unfold eval_where. simpl.
    now rewrite andb_true_r, author_clause_in_scope.
Qed.

Lemma where_name (n : string) (user : option User) (s : Store)
    (p : prompt_row) :
  existsb (eval_where [prompts_display_name_eq n; author_clause user] p)
          (joined_tags s p)
  = has_name n p && in_scope user p.
Proof.
  rewrite (existsb_pointwise _ (fun _ => has_name n p && in_scope user p)).
  - apply existsb_const, joined_tags_not_nil.
  - intro t. unfold eval_where. simpl.
    now rewrite andb_true_r, author_clause_in_scope.
Qed.

Lemma where_tags (ts : list string) (user : option User) (s : Store)
    (p : prompt_row) :
  existsb (eval_where [tags_tag_in ts; author_clause user] p)
          (joined_tags s p)
  = in_scope user p && has_tag_in s ts p.
Proof.
  unfold has_tag_in. rewrite <- joined_tags_tags_of.
  rewrite <- (existsb_some_tag (fun x => existsb (String.eqb x) ts)).
  destruct (in_scope user p) eqn:Hs; simpl.
  - apply existsb_pointwise. intro t. unfold eval_where. simpl.
    rewrite author_clause_in_scope, Hs.
    destruct t; simpl; [now rewrite andb_true_r|reflexivity].
  - rewrite (existsb_pointwise _ (fun _ => false)).
    + induction (joined_tags s p); simpl; auto.
    + intro t. unfold eval_where. simpl.
      rewrite author_clause_in_scope, Hs. now rewrite andb_false_r.
Qed.

Lemma select_all_spec (w : list cond) (db : DatabaseContext) :
  malformed w = false ->
  (cursor_execute (SELECT_prompts_with_tags w) ;;
   results <- fetchall ;; make_prompts results) db
  = (Ok (map (fun p => Prompt_of p
                 (GROUP_CONCAT
                    (filter (eval_where w p) (joined_tags (store db) p))))
             (filter (fun p => existsb (eval_where w p)
                                       (joined_tags (store db) p))
                     (prompts (store db)))),
     mkCtx (store db) [] (snapshot db)
           (log db ++ [ev_execute (SELECT_prompts_with_tags w)])).
Proof.
  intro Hm. unfold bind, cursor_execute, fetchall. simpl. rewrite Hm. simpl.
  rewrite select_prompts_with_tags_eq.
  apply (make_prompts_rows
           (fun p => GROUP_CONCAT
                       (filter (eval_where w p) (joined_tags (store db) p)))).
Qed.

Lemma select_one_spec (w : list cond) (db : DatabaseContext) :
  malformed w = false ->
  let r := (cursor_execute (SELECT_prompts_with_tags w) ;;
            fetch_prompt_or_not_found) db in
  store (snd r) = store db
  /\ fst r
     = match find (fun p => existsb (eval_where w p)
                                    (joined_tags (store db) p))
                  (prompts (store db)) with
       | Some p =>
           Ok (Prompt_of p
                 (GROUP_CONCAT
                    (filter (eval_where w p) (joined_tags (store db) p))))
       | None => Raise (RecordNotFoundError "Prompt not found")
       end.
Proof.
  intro Hm.
  unfold bind, cursor_execute, fetch_prompt_or_not_found, fetchone, bind.
  simpl. rewrite Hm. simpl. rewrite select_prompts_with_tags_eq.
  rewrite <- find_filter_hd.
  destruct (filter _ (prompts (store db))) as [|p ps]; simpl; auto.
Qed.

Lemma malformed_scoped (c : cond) (user : option User) :
  (forall ts, c = tags_tag_in ts -> ts <> []) ->
  malformed [c; author_clause user] = false.
Proof.
  intro H. unfold malformed. simpl.
  assert (Hu : match author_clause user with
               | tags_tag_in [] => true | _ => false end = false)
    by (destruct user; reflexivity).
  rewrite Hu.
  destruct c as [| | | | |ts]; try reflexivity.
  destruct ts; [now specialize (H [] eq_refl)|reflexivity].
Qed.

Lemma find_pointwise {A} (f g : A -> bool) (l : list A) :
  (forall x, f x = g x) -> find f l = find g l.
Proof.
  intro H. induction l as [|a l IH]; simpl; [reflexivity|].
  now rewrite H, IH.
Qed.

(** [get_prompt]: the first row with the guid inside the caller's scope, or
    [RecordNotFoundError]. *)
Lemma get_prompt_spec (g : string) (user : option User)
    (db : DatabaseContext) :
  store (snd (get_prompt g user db)) = store db
  /\ fst (get_prompt g user db)
     = match find (fun p => has_guid g p && in_scope user p)
                  (prompts (store db)) with
       | Some p =>
           Ok (Prompt_of p
                 (GROUP_CONCAT
                    (filter (eval_where [prompts_guid_eq g; author_clause user] p)
                            (joined_tags (store db) p))))
       | None => Raise (RecordNotFoundError "Prompt not found")
       end.
Proof.
  unfold get_prompt.
  destruct (select_one_spec [prompts_guid_eq g; author_clause user] db)
    as [Hs Hr].
  { apply malformed_scoped. discriminate. }
  split; [exact Hs|]. simpl in Hr. rewrite Hr.
  rewrite (find_pointwise _ (fun p => has_guid g p && in_scope user p));
    [reflexivity|].
  intro p. apply where_guid.
Qed.

Lemma get_prompt_by_name_spec (n : string) (user : option User)
    (db : DatabaseContext) :
  store (snd (get_prompt_by_name n user db)) = store db
  /\ fst (get_prompt_by_name n user db)
     = match find (fun p => has_name n p && in_scope user p)
                  (prompts (store db)) with
       | Some p =>
           Ok (Prompt_of p
                 (GROUP_CONCAT
                    (filter (eval_where
                               [prompts_display_name_eq n; author_clause user] p)
                            (joined_tags (store db) p))))
       | None => Raise (RecordNotFoundError "Prompt not found")
       end.
Proof.
  unfold get_prompt_by_name.
  destruct (select_one_spec [prompts_display_name_eq n; author_clause user] db)
    as [Hs Hr].
  { apply malformed_scoped. discriminate. }
  split; [exact Hs|]. simpl in Hr. rewrite Hr.
  rewrite (find_pointwise _ (fun p => has_name n p && in_scope user p));
    [reflexivity|].
  intro p. apply where_name.
Qed.

(** [list_prompts_by_tags] on a non-empty tag list: the rows in scope with
    a linked tag among those asked for. *)
Lemma list_prompts_by_tags_spec (ts : list string) (user : option User)
    (db : DatabaseContext) :
  ts <> [] ->
  exists ps,
    list_prompts_by_tags ts user db
    = (Ok ps,
       mkCtx (store db) [] (snapshot db)
             (log db ++ [ev_execute
                           (SELECT_prompts_with_tags
                              [tags_tag_in ts; author_clause user])]))
    /\ Forall2 represents ps
         (filter (fun p => in_scope user p && has_tag_in (store db) ts p)
                 (prompts (store db))).
Proof.
  intro Hts. unfold list_prompts_by_tags.
  rewrite select_all_spec.
  2:{ apply malformed_scoped. intros ts' E. now inversion E; subst. }
  eexists. split; [reflexivity|].
  rewrite (filter_ext _ (fun p => in_scope user p && has_tag_in (store db) ts p)).
  - apply (Forall2_represents
             (fun p => GROUP_CONCAT
                         (filter (eval_where
                                    [tags_tag_in ts; author_clause user] p)
                                 (joined_tags (store db) p)))).
  - intro p. apply where_tags.
Qed.

Lemma list_prompts_spec (user : option User) (db : DatabaseContext) :
  exists ps,
    list_prompts user db
    = (Ok ps,
       mkCtx (store db) [] (snapshot db)
             (log db ++ [ev_execute
                           (SELECT_prompts_with_tags [author_clause user])]))
    /\ Forall2 represents ps (filter (in_scope user) (prompts (store db))).
Proof.
  unfold list_prompts. rewrite select_all_spec.
  2:{ unfold malformed. simpl. destruct user; reflexivity. }
  eexists. split; [reflexivity|].
  rewrite (filter_ext _ (in_scope user)).
  - apply (Forall2_represents
             (fun p => GROUP_CONCAT
                         (filter (eval_where [author_clause user] p)
                                 (joined_tags (store db) p)))).
  - intro p. apply where_list.
Qed.

(** C4. Every read is scoped by the caller's identity. [list_prompts]
    returns exactly the rows whose author is the caller's username, or is
    NULL for the anonymous caller; [list_prompts_by_tags] (on a non-empty
    tag list) those of them with a linked tag among the ones asked for;
    [get_prompt] and [get_prompt_by_name] return the first row that matches
    the key inside that scope and raise [RecordNotFoundError] exactly when
    there is none, so that a guid held only by rows of another scope
    answers like a guid no row has. The two kinds of scope never overlap:
    a row is in the scope of one identity only. *)
Theorem read_operations_ownership_scoped (user : option User)
    (db : DatabaseContext) :
  let s := store db in
  (exists ps, fst (list_prompts user db) = Ok ps
              /\ Forall2 represents ps (filter (in_scope user) (prompts s)))
  /\ (forall ts, ts <> [] ->
        exists ps,
          fst (list_prompts_by_tags ts user db) = Ok ps
          /\ Forall2 represents ps
               (filter (fun p => in_scope user p && has_tag_in s ts p)
                       (prompts s)))
  /\ (forall g,
        match find (fun p => has_guid g p && in_scope user p) (prompts s) with
        | Some p => exists pr, fst (get_prompt g user db) = Ok pr
                               /\ represents pr p
        | None => fst (get_prompt g user db)
                  = Raise (RecordNotFoundError "Prompt not found")
        end)
  /\ (forall n,
        match find (fun p => has_name n p && in_scope user p) (prompts s) with
        | Some p => exists pr, fst (get_prompt_by_name n user db) = Ok pr
                               /\ represents pr p
        | None => fst (get_prompt_by_name n user db)
                  = Raise (RecordNotFoundError "Prompt not found")
        end)
  /\ (forall g g',
        (forall p, In p (prompts s) -> r_guid p = g -> in_scope user p = false) ->
        (forall p, In p (prompts s) -> r_guid p <> g') ->
        fst (get_prompt g user db) = fst (get_prompt g' user db))
  /\ (forall p, in_scope user p = true <-> r_author p = username_or_None user)
  /\ (forall user' p, in_scope user p = true -> in_scope user' p = true ->
                      username_or_None user = username_or_None user').
Proof.
  cbv zeta. repeat apply conj.
  - destruct (list_prompts_spec user db) as (ps & E & F).
    exists ps. now rewrite E.
  - intros ts Hts.
    destruct (list_prompts_by_tags_spec ts user db Hts) as (ps & E & F).
    exists ps. now rewrite E.
  - intro g. destruct (get_prompt_spec g user db) as [_ Hr]. rewrite Hr.
    destruct (find _ _) as [p|]; [|reflexivity].
    eexists. split; [reflexivity|apply represents_Prompt_of].
  - intro n. destruct (get_prompt_by_name_spec n user db) as [_ Hr]. rewrite Hr.
    destruct (find _ _) as [p|]; [|reflexivity].
    eexists. split; [reflexivity|apply represents_Prompt_of].
  - intros g g' Hg Hg'.
    destruct (get_prompt_spec g user db) as [_ Hr]. rewrite Hr.
    destruct (get_prompt_spec g' user db) as [_ Hr']. rewrite Hr'.
    rewrite (proj2 (find_none_iff _ _)).
    + rewrite (proj2 (find_none_iff _ _)); [reflexivity|].
      intros p Hp. unfold has_guid.
      rewrite (proj2 (String.eqb_neq _ _) (Hg' p Hp)). reflexivity.
    + intros p Hp. unfold has_guid.
      destruct (String.eqb (r_guid p) g) eqn:E; [|reflexivity].
      apply String.eqb_eq in E. simpl. now apply Hg.
  - intro p. apply opt_str_eqb_true.
  - intros user' p H1 H2. apply opt_str_eqb_true in H1, H2. congruence.
Qed.

Lemma read_operations_ownership_scoped_witness :
  ["a"] <> []
  /\ exists ps,
       fst (list_prompts_by_tags ["a"] (Some alice) demo_db) = Ok ps
       /\ Forall2 represents ps
            (filter (fun p => in_scope (Some alice) p
                              && has_tag_in demo_store ["a"] p)
                    (prompts demo_store)).
Proof.
  assert (H : ["a"] <> []) by discriminate.
  split; [exact H|].
  exact (proj1 (proj2 (read_operations_ownership_scoped (Some alice) demo_db))
           ["a"] H).
Defined.

(* ----------------------------------------------------------------- *)
(** *** The empty tag filter *)

Lemma service_list_prompts_by_tags_spec (tags_ : string) (user : option User)
    (db : DatabaseContext) :
  exists ps,
    PromptService.list_prompts_by_tags tags_ user db
    = (Ok ps,
       mkCtx (store db) [] (snapshot db)
             (log db ++ [ev_execute
                           (SELECT_prompts_with_tags
                              [tags_tag_in (Py.split comma tags_);
                               author_clause user])])).
Proof.
  unfold PromptService.list_prompts_by_tags, PromptService.guarded.
  cbv zeta. rewrite truthy_split. change (negb true) with false. cbv iota.
  destruct (list_prompts_by_tags_spec (Py.split comma tags_) user db
              (split_not_nil comma tags_)) as (ps & E & _).
  rewrite E. now exists ps.
Qed.

(** C8. The façade's [list_prompts_by_tags] never raises the validation
    error it guards with [if not tags_list]: [split] returns at least one
    piece, so the empty string becomes the one-element list with the empty
    tag, the store is queried with it and a list of prompts is returned.
    On the empty list itself the repository sends a malformed statement
    and fails with the driver's error. *)
Theorem empty_tag_filter_not_rejected (user : option User)
    (db : DatabaseContext) :
  Py.split comma "" = [""]
  /\ (forall tags_ msg,
        fst (PromptService.list_prompts_by_tags tags_ user db)
        <> Raise (DataValidationError msg))
  /\ (let r := PromptService.list_prompts_by_tags "" user db in
      (exists ps, fst r = Ok ps)
      /\ log (snd r)
         = log db ++ [ev_execute
                        (SELECT_prompts_with_tags
                           [tags_tag_in [""]; author_clause user])])
  /\ fst (list_prompts_by_tags [] user db) = Raise ProgrammingError.
Proof.
  split; [reflexivity|]. split; [|split].
  - intros tags_ msg.
    destruct (service_list_prompts_by_tags_spec tags_ user db) as (ps & E).
    rewrite E. simpl. discriminate.
  - destruct (service_list_prompts_by_tags_spec "" user db) as (ps & E).
    cbv zeta. rewrite E. simpl. split; [now exists ps|reflexivity].
  - reflexivity.
Qed.

(* ----------------------------------------------------------------- *)
(** *** Deleting a prompt *)

(** When the ownership check passes, [delete_prompt] removes the rows with
    the guid and nothing else: by the time the link removal joins
    [prompt_tags] with [prompts], no row with the guid is left to join, so
    no link is removed. *)
Lemma check_prompt_ownership_passes (g : string) (user : option User)
    (db : DatabaseContext) (p : prompt_row) :
  find (has_guid g) (prompts (store db)) = Some p ->
  in_scope user p = true ->
  exists db1,
    _check_prompt_ownership g user db = (Ok tt, db1)
    /\ store db1 = store db.
Proof.
  intros Hf Hs.
  destruct (check_prompt_ownership_spec g user db) as (Hst & _ & _ & Hr).
  destruct (_check_prompt_ownership g user db) as [r db1]. simpl in *.
  rewrite Hf, Hs in Hr. subst r. now exists db1.
Qed.

Lemma delete_prompt_spec (g : string) (user : option User)
    (db : DatabaseContext) (p : prompt_row) :
  find (has_guid g) (prompts (store db)) = Some p ->
  in_scope user p = true ->
  fst (delete_prompt g user db) = Ok tt
  /\ store (snd (delete_prompt g user db))
     = with_prompts (store db)
         (filter (fun q => negb (has_guid g q)) (prompts (store db)))
         (next_prompt_id (store db)).
Proof.
  intros Hf Hs. unfold delete_prompt.
  destruct (check_prompt_ownership_passes g user db p Hf Hs)
    as (db1 & Hc & Hst).
  rewrite (bind_ok _ _ _ _ _ Hc).
  rewrite (bind_ok _ _ _ _ _
             (cursor_execute_ok (DELETE_prompts [prompts_guid_eq g]) db1
                _ _ eq_refl)).
  unfold remove_all_tags_from_prompt.
  erewrite cursor_execute_ok.
  2:{ cbn [execute].
      rewrite (malformed_scoped (prompts_guid_eq g) user) by discriminate.
      reflexivity. }
  simpl fst. simpl snd. simpl store.
  split; [reflexivity|]. rewrite Hst.
  set (ps := filter (fun q => negb (has_guid g q)) (prompts (store db))).
  assert (Hps : filter (fun p0 => negb (String.eqb (r_guid p0) g && true))
                       (prompts (store db)) = ps).
  { apply filter_ext. intro q. now rewrite andb_true_r. }
  rewrite Hps. unfold with_prompt_tags. simpl. unfold with_prompts. f_equal.
  apply filter_all. intros l _. apply negb_true_iff.
  unfold link_selected. simpl prompts.
  apply not_true_is_false. intro Hex. apply existsb_exists in Hex.
  destruct Hex as (q & Hq & Hsel). apply filter_In in Hq.
  destruct Hq as [_ Hq]. apply negb_true_iff in Hq.
  apply andb_true_iff in Hsel. destruct Hsel as [_ Hsel].
  unfold eval_where in Hsel. simpl in Hsel. unfold has_guid in Hq.
  rewrite Hq in Hsel. discriminate.
Qed.

(** C6, evaluated on the store with the tagged prompt of [alice]: her
    [delete_prompt] succeeds, in the repository and through the façade,
    and removes the prompt row, but both links of the deleted prompt are
    still in [prompt_tags]; the tag vocabulary is as before. *)
Theorem delete_leaves_tag_links :
  let r := delete_prompt "g1" (Some alice) demo_db in
  let r' := PromptService.delete_prompt "g1" (Some alice) demo_db in
  fst r = Ok tt
  /\ prompts (store (snd r)) = []
  /\ tags (store (snd r)) = tags demo_store
  /\ prompt_tags (store (snd r)) = [mkLink 1 1; mkLink 1 2]
  /\ fst r' = Ok tt
  /\ store (snd r') = store (snd r).
Proof. cbv zeta. repeat split. Qed.

(* ----------------------------------------------------------------- *)
(** *** Updating a prompt *)

(** A field the input omits takes the class default, and the default of
    [tags] is the empty list, not [None]. *)
Lemma PromptUpdate_init_tags_default (kw : update_input) :
  in_tags kw = None -> pu_tags (PromptUpdate_init kw) = Some [].
Proof. intro H. unfold PromptUpdate_init. simpl. now rewrite H. Qed.

(** The same holds behind the façade, which rebuilds the object. *)
Lemma PromptUpdate_rebuild_tags (p : PromptUpdate) :
  pu_tags (PromptUpdate_init (PromptUpdate_dict p)) = pu_tags p.
Proof. reflexivity. Qed.

(** With [tags] set to [None] and no scalar value given, [update_prompt]
    raises the validation error and has executed nothing. *)
Lemma update_prompt_nothing_to_do (g : string) (prompt : PromptUpdate)
    (user : option User) (db : DatabaseContext) :
  snd (build_sets prompt) = false ->
  pu_tags prompt = None ->
  update_prompt g prompt user db
  = (Raise (DataValidationError "No fields to update"), db).
Proof.
  intros Hb Ht. unfold update_prompt.
  destruct (build_sets prompt) as [sets setting]. simpl in Hb. subst.
  now rewrite Ht.
Qed.

(** With [tags] set to [None], [update_prompt] executes at most the column
    update, whose WHERE clause is the guid alone: no ownership check. *)
Lemma update_prompt_tags_None_log (g : string) (prompt : PromptUpdate)
    (user : option User) (db : DatabaseContext) :
  pu_tags prompt = None ->
  log (snd (update_prompt g prompt user db))
  = log db ++ (if snd (build_sets prompt)
               then [ev_execute (UPDATE_prompts (fst (build_sets prompt))
                                                [prompts_guid_eq g])]
               else []).
Proof.
  intro Ht. unfold update_prompt.
  destruct (build_sets prompt) as [sets [|]]; rewrite Ht; simpl.
  - reflexivity.
  - now rewrite app_nil_r.
Qed.

Lemma appends_ret {A} (a : A) : appends_log (ret a).
Proof. intro db. exists []. simpl. now rewrite app_nil_r. Qed.

Lemma appends_raise {A} (e : exn) : appends_log (@raise A e).
Proof. intro db. exists []. simpl. now rewrite app_nil_r. Qed.

Lemma appends_bind {A B} (m : M A) (k : A -> M B) :
  appends_log m -> (forall a, appends_log (k a)) -> appends_log (bind m k).
Proof.
  intros Hm Hk db. unfold bind. destruct (Hm db) as [r1 H1].
  destruct (m db) as [[a|e] db1]; simpl in *.
  - destruct (Hk a db1) as [r2 H2]. exists (r1 ++ r2).
    now rewrite H2, H1, app_assoc.
  - now exists r1.
Qed.

Lemma appends_cursor_execute (q : stmt) : appends_log (cursor_execute q).
Proof.
  intro db. exists [ev_execute q]. unfold cursor_execute.
  destruct (execute q (store db)) as [e|[s' rows]]; reflexivity.
Qed.

Lemma appends_for_each {A} (xs : list A) (body : A -> M unit) :
  (forall x, appends_log (body x)) -> appends_log (for_each xs body).
Proof.
  intro H. induction xs as [|x xs IH]; simpl.
  - apply appends_ret.
  - apply appends_bind; [apply H|intros _; exact IH].
Qed.

Lemma appends_add_tag (g t : string) (user : option User) :
  appends_log (add_tag_to_prompt g t user).
Proof.
  unfold add_tag_to_prompt.
  apply appends_bind; [|intros _]; apply appends_cursor_execute.
Qed.

(** The log after [m ;; k] starts with the log after [m]. *)
Lemma bind_log_prefix {A B} (m : M A) (k : A -> M B) (db : DatabaseContext) :
  (forall a, appends_log (k a)) ->
  exists rest, log (snd (bind m k db)) = log (snd (m db)) ++ rest.
Proof.
  intro Hk. unfold bind. destruct (m db) as [[a|e] db1]; simpl.
  - apply Hk.
  - exists []. now rewrite app_nil_r.
Qed.

Lemma update_tags_log (g : string) (ts : option (list string))
    (user : option User) (db : DatabaseContext) :
  exists rest,
    log (snd (_update_tags g ts user db))
    = log db ++ [ev_execute (SELECT_author [prompts_guid_eq g])] ++ rest.
Proof.
  unfold _update_tags.
  destruct (bind_log_prefix (_check_prompt_ownership g user)
              (fun _ => remove_all_tags_from_prompt g user ;;
                        match ts with
                        | None => raise TypeError
                        | Some l => for_each l
                                      (fun tag => add_tag_to_prompt g tag user)
                        end) db) as [rest Hr].
  - intros _. apply appends_bind.
    + apply appends_cursor_execute.
    + intros _. destruct ts as [l|].
      * apply appends_for_each. intro x. apply appends_add_tag.
      * apply appends_raise.
  - exists rest. rewrite Hr.
    destruct (check_prompt_ownership_spec g user db) as (_ & _ & Hl & _).
    simpl in Hl. rewrite Hl. now rewrite <- app_assoc.
Qed.

(** With [tags] not [None], the ownership SELECT is executed, after the
    column update if there is one and before any statement of the tag
    replacement. *)
Lemma update_prompt_tags_Some_log (g : string) (prompt : PromptUpdate)
    (ts : list string) (user : option User) (db : DatabaseContext) :
  pu_tags prompt = Some ts ->
  exists rest,
    log (snd (update_prompt g prompt user db))
    = log db ++ (if snd (build_sets prompt)
                 then [ev_execute (UPDATE_prompts (fst (build_sets prompt))
                                                  [prompts_guid_eq g])]
                 else [])
             ++ [ev_execute (SELECT_author [prompts_guid_eq g])] ++ rest.
Proof.
  intro Ht. unfold update_prompt.
  destruct (build_sets prompt) as [sets setting]. rewrite Ht.
  rewrite andb_false_r. simpl fst. simpl snd.
  destruct setting; unfold bind at 1.
  - unfold cursor_execute at 1. simpl execute. cbv iota beta.
    match goal with
    | |- context [_update_tags g (Some ts) user ?d] =>
        destruct (update_tags_log g (Some ts) user d) as [rest Hr]
    end.
    exists rest. rewrite Hr. simpl. now rewrite <- !app_assoc.
  - simpl. apply update_tags_log.
Qed.

(** C1, evaluated on the store with the prompt of [alice] tagged [a] and
    [c]: her update with an input that supplies [display_name] alone
    succeeds and changes [display_name], leaves [content] as it was, and
    empties the tag set of the prompt, because the omitted [tags] field
    takes the default [[]] and is then replaced as if it had been given. *)
Theorem update_display_name_only_clears_tags :
  let prompt := PromptUpdate_init rename_only in
  let r := update_prompt "g1" prompt (Some alice) demo_db in
  let r' := PromptService.update_prompt "g1" prompt (Some alice) demo_db in
  dict_exclude_unset prompt = [Fdisplay_name]
  /\ fst (get_prompt "g1" (Some alice) demo_db)
     = Ok (mkPrompt (Some "hello") (Some "name") (Some ["a"; "c"]) 1 "g1" 0 0)
  /\ fst r = Ok tt
  /\ fst (get_prompt "g1" (Some alice) (snd r))
     = Ok (mkPrompt (Some "hello") (Some "new") (Some []) 1 "g1" 0 0)
  /\ fst r' = Ok tt
  /\ fst (get_prompt "g1" (Some alice) (snd r'))
     = Ok (mkPrompt (Some "hello") (Some "new") (Some []) 1 "g1" 0 0).
Proof. cbv zeta. repeat split. Qed.

(** C2, evaluated on the same store: an update whose input supplies no
    field at all is not rejected. No scalar assignment is built, yet
    [tags] is the default [[]] rather than [None], so the validation error
    is skipped, the call returns normally and storage has changed: the
    links of the prompt are gone. *)
Theorem update_without_fields_not_rejected :
  let prompt := PromptUpdate_init empty_input in
  let r := update_prompt "g1" prompt (Some alice) demo_db in
  let r' := PromptService.update_prompt "g1" prompt (Some alice) demo_db in
  dict_exclude_unset prompt = []
  /\ build_sets prompt = ([], false)
  /\ fst r = Ok tt
  /\ tags_of demo_store 1 = ["a"; "c"]
  /\ tags_of (store (snd r)) 1 = []
  /\ fst r' = Ok tt
  /\ tags_of (store (snd r')) 1 = [].
Proof. cbv zeta. repeat split. Qed.

(** C3, evaluated on the same store: an update by [bob] whose input
    supplies [display_name] alone, a scalar-only update, does run the
    ownership check. The repository executes the column update, with the
    guid as its only condition, and then the ownership SELECT, and raises
    [UnauthorizedError]; the façade passes the error on. *)
Theorem scalar_only_update_checks_ownership :
  let prompt := PromptUpdate_init rename_only in
  let r := update_prompt "g1" prompt (Some bob) demo_db in
  let r' := PromptService.update_prompt "g1" prompt (Some bob) demo_db in
  in_tags rename_only = None
  /\ fst r = Raise (UnauthorizedError unauthorized_msg)
  /\ log (snd r)
     = [ev_execute (UPDATE_prompts [(col_display_name, "new")]
                                   [prompts_guid_eq "g1"]);
        ev_execute (SELECT_author [prompts_guid_eq "g1"])]
  /\ fst r' = Raise (UnauthorizedError unauthorized_msg)
  /\ store (snd r') = demo_store.
Proof. cbv zeta. repeat split. Qed.

(* ----------------------------------------------------------------- *)
(** *** Tag links *)

Lemma NoDup_map_inj {A B} (f : A -> B) (l : list A) (x y : A) :
  NoDup (map f l) -> In x l -> In y l -> f x = f y -> x = y.
Proof.
  induction l as [|a l IH]; simpl; intros Hn Hx Hy E; [contradiction|].
  inversion Hn as [|? ? Hna Hn']; subst.
  destruct Hx as [->|Hx], Hy as [->|Hy]; auto.
  - exfalso. apply Hna. rewrite E. now apply in_map.
  - exfalso. apply Hna. rewrite <- E. now apply in_map.
Qed.

(** A predicate that singles out one element of a duplicate-free list. *)
Lemma filter_unique {A} (P : A -> bool) (l : list A) (a : A) :
  NoDup l -> In a l -> P a = true ->
  (forall x, In x l -> P x = true -> x = a) ->
  filter P l = [a].
Proof.
  induction l as [|b l IH]; simpl; intros Hn Ha Pa Hu; [contradiction|].
  inversion Hn as [|? ? Hnb Hn']; subst.
  destruct Ha as [->|Ha].
  - rewrite Pa. f_equal. apply filter_none. intros x Hx.
    destruct (P x) eqn:Px; [|reflexivity].
    exfalso. apply Hnb. now rewrite <- (Hu x (or_intror Hx) Px).
  - destruct (P b) eqn:Pb.
    + exfalso. apply Hnb. now rewrite (Hu b (or_introl eq_refl) Pb).
    + apply IH; auto.
Qed.

Lemma flat_map_filter {A B} (P : A -> bool) (h : A -> list B) (l : list A) :
  flat_map (fun x => if P x then h x else []) l = flat_map h (filter P l).
Proof.
  induction l as [|a l IH]; simpl; [reflexivity|].
  destruct (P a); simpl; now rewrite IH.
Qed.

Lemma link_eqb_eq (a b : link_row) : link_eqb a b = true <-> a = b.
Proof.
  unfold link_eqb. rewrite andb_true_iff, !Nat.eqb_eq.
  destruct a, b; simpl. split.
  - intros [-> ->]. reflexivity.
  - intro E. inversion E. auto.
Qed.

Lemma existsb_link_In (x : link_row) (l : list link_row) :
  existsb (link_eqb x) l = true <-> In x l.
Proof.
  rewrite existsb_exists. split.
  - intros (y & Hy & E). apply link_eqb_eq in E. now subst.
  - intro H. exists x. split; [exact H|]. now apply link_eqb_eq.
Qed.

Lemma has_dup_snoc (l : list link_row) (x : link_row) :
  has_dup l = false -> ~ In x l -> has_dup (l ++ [x]) = false.
Proof.
  induction l as [|a l IH]; simpl; intros Hd Hx; [reflexivity|].
  apply orb_false_iff in Hd. destruct Hd as [Ha Hd].
  apply orb_false_iff. split.
  - rewrite existsb_app. simpl. rewrite Ha. simpl.
    rewrite orb_false_r. apply not_true_is_false. intro E.
    apply link_eqb_eq in E. subst. apply Hx. now left.
  - apply IH; [exact Hd|]. intro H. apply Hx. now right.
Qed.

(** A tag string is among the tags of a prompt when a link of the prompt
    points to a vocabulary row with that string. *)
Lemma tags_of_In (s : Store) (pid : nat) (x : string) :
  In x (tags_of s pid) <->
  exists l t, In l (prompt_tags s) /\ l_prompt_id l = pid
              /\ In t (tags s) /\ t_id t = l_tag_id l /\ t_tag t = x.
Proof.
  unfold tags_of. rewrite in_flat_map. split.
  - intros (l & Hl & Hx). apply filter_In in Hl. destruct Hl as [Hl Hp].
    apply Nat.eqb_eq in Hp. apply in_map_iff in Hx.
    destruct Hx as (t & Ht & Hin). apply filter_In in Hin.
    destruct Hin as [Hin Hid]. apply Nat.eqb_eq in Hid.
    exists l, t. auto.
  - intros (l & t & Hl & Hp & Ht & Hid & Hx). exists l. split.
    + apply filter_In. split; [exact Hl|]. now apply Nat.eqb_eq.
    + apply in_map_iff. exists t. split; [exact Hx|].
      apply filter_In. split; [exact Ht|]. now apply Nat.eqb_eq.
Qed.

(** Under the schema's keys, the link for a (prompt, tag row) pair is in
    the table exactly when the tag is among the tags of the prompt. *)
Lemma link_In_tags_of (s : Store) (pid : nat) (tx : tag_row) :
  wf_store s -> In tx (tags s) ->
  In (mkLink pid (t_id tx)) (prompt_tags s) <-> In (t_tag tx) (tags_of s pid).
Proof.
  intros W Htx. rewrite tags_of_In. split.
  - intro H. exists (mkLink pid (t_id tx)), tx. simpl. auto.
  - intros (l & t & Hl & Hp & Ht & Hid & Hx).
    assert (t = tx)
      by (apply (NoDup_map_inj t_tag (tags s)); auto; apply W).
    subst t. destruct l as [lp lt]. simpl in *. now subst.
Qed.

Lemma tags_of_snoc_link (s : Store) (pid : nat) (tx : tag_row) :
  wf_store s -> In tx (tags s) ->
  tags_of (with_prompt_tags s (prompt_tags s ++ [mkLink pid (t_id tx)])) pid
  = tags_of s pid ++ [t_tag tx].
Proof.
  intros W Htx. unfold tags_of. simpl. rewrite filter_app, flat_map_app.
  f_equal. simpl. rewrite Nat.eqb_refl. simpl. rewrite app_nil_r.
  rewrite (filter_unique (fun t => t_id t =? t_id tx) (tags s) tx).
  - reflexivity.
  - apply (NoDup_map_inv t_id). apply W.
  - exact Htx.
  - apply Nat.eqb_refl.
  - intros t Ht E. apply Nat.eqb_eq in E.
    apply (NoDup_map_inj t_id (tags s)); auto. apply W.
Qed.

Lemma wf_snoc_link (s : Store) (p : prompt_row) (tx : tag_row) :
  wf_store s -> In p (prompts s) -> In tx (tags s) ->
  ~ In (mkLink (r_id p) (t_id tx)) (prompt_tags s) ->
  wf_store (with_prompt_tags s
              (prompt_tags s ++ [mkLink (r_id p) (t_id tx)])).
Proof.
  intros W Hp Htx Hn. destruct W. constructor; simpl; auto.
  - now apply has_dup_snoc.
  - intros l Hl. apply in_app_or in Hl. destruct Hl as [Hl|[<-|[]]]; auto.
    simpl. split; auto.
Qed.

Lemma NoDup_snoc {A} (l : list A) (a : A) :
  NoDup l -> ~ In a l -> NoDup (l ++ [a]).
Proof.
  intros Hn Ha. apply NoDup_app; [exact Hn|repeat constructor; auto| ].
  intros x Hx [<-|[]]. contradiction.
Qed.

Lemma flat_map_ext_in {A B} (f g : A -> list B) (l : list A) :
  (forall x, In x l -> f x = g x) -> flat_map f l = flat_map g l.
Proof.
  induction l as [|a l IH]; simpl; intro H; [reflexivity|].
  rewrite (H a (or_introl eq_refl)). f_equal. apply IH.
  intros x Hx. apply H. now right.
Qed.

Lemma flat_map_nil {A B} (l : list A) :
  flat_map (fun _ : A => @nil B) l = [].
Proof. induction l; simpl; auto. Qed.

Lemma bound_not_In {A} (f : A -> nat) (l : list A) (n : nat) :
  (forall x, In x l -> f x < n) -> ~ In n (map f l).
Proof.
  intros H Hin. apply in_map_iff in Hin. destruct Hin as (x & E & Hx).
  specialize (H x Hx). lia.
Qed.

(** The vocabulary upsert: it keeps the schema's keys, leaves every
    prompt's tags as they were, and afterwards the tag string has a row. *)
Lemma upsert_tag_spec (x : string) (s : Store) :
  wf_store s ->
  exists s1,
    execute (INSERT_tags_on_duplicate_update x) s = inr (s1, [])
    /\ wf_store s1
    /\ prompts s1 = prompts s
    /\ prompt_tags s1 = prompt_tags s
    /\ (forall pid, tags_of s1 pid = tags_of s pid)
    /\ (exists tx, In tx (tags s1) /\ t_tag tx = x)
    /\ (In x (map t_tag (tags s)) -> s1 = s).
Proof.
  intro W. cbn [execute].
  destruct (existsb (fun t => String.eqb (t_tag t) x) (tags s)) eqn:E.
  - exists s. split; [reflexivity|]. split; [exact W|].
    do 3 (split; [reflexivity|]). split; [|reflexivity].
    apply existsb_exists in E. destruct E as (tx & Htx & Ex).
    apply String.eqb_eq in Ex. now exists tx.
  - assert (Hx : ~ In x (map t_tag (tags s))).
    { intro Hin. apply in_map_iff in Hin. destruct Hin as (t & Et & Ht).
      assert (existsb (fun t => String.eqb (t_tag t) x) (tags s) = true).
      { apply existsb_exists. exists t. split; [exact Ht|].
        now apply String.eqb_eq. }
      congruence. }
    eexists. split; [reflexivity|]. destruct W.
    split; [|split; [reflexivity|split; [reflexivity|split; [|split]]]].
    + constructor; simpl; auto.
      * rewrite map_app. apply NoDup_snoc; auto. now apply bound_not_In.
      * rewrite map_app. apply NoDup_snoc; auto.
      * intros t Ht. apply in_app_or in Ht. destruct Ht as [Ht|[<-|[]]].
        -- specialize (wf_tag_bound0 t Ht). lia.
        -- simpl. lia.
      * intros l Hl. destruct (wf_link_bound0 l Hl). split; [assumption|lia].
    + intro pid. unfold tags_of. simpl. apply flat_map_ext_in.
      intros l Hl. apply filter_In in Hl. destruct Hl as [Hl _].
      rewrite filter_app. simpl.
      destruct (wf_link_bound0 l Hl) as [_ Hb].
      destruct (next_tag_id s =? l_tag_id l) eqn:En.
      * apply Nat.eqb_eq in En. lia.
      * now rewrite app_nil_r.
    + exists (mkTagRow (next_tag_id s) x). split; [|reflexivity].
      apply in_or_app. right. now left.
    + intro Hin. contradiction.
Qed.

(** The cross join of the link insert selects exactly one pair: the
    prompt with the guid in the caller's scope and the row of the tag. *)
Lemma select_pairs_single (g x : string) (user : option User) (s : Store)
    (p : prompt_row) (tx : tag_row) :
  wf_store s ->
  In p (prompts s) -> r_guid p = g -> in_scope user p = true ->
  In tx (tags s) -> t_tag tx = x ->
  select_pairs [prompts_guid_eq g; tags_tag_eq x; author_clause user] s
  = [mkLink (r_id p) (t_id tx)].
Proof.
  intros W Hp Hg Hs Htx Hx. unfold select_pairs.
  rewrite (flat_map_ext _
             (fun q => if has_guid g q && in_scope user q
                       then flat_map
                              (fun t => if String.eqb (t_tag t) x
                                        then [mkLink (r_id q) (t_id t)]
                                        else []) (tags s)
                       else [])).
  2:{ intro q.
      assert (Hw : forall t,
                eval_where [prompts_guid_eq g; tags_tag_eq x; author_clause user]
                           q (Some t)
                = (has_guid g q && in_scope user q) && String.eqb (t_tag t) x).
      { intro t. unfold eval_where. cbn [forallb].
        rewrite author_clause_in_scope. cbn [eval_cond]. unfold has_guid.
        destruct (String.eqb (r_guid q) g), (in_scope user q),
                 (String.eqb (t_tag t) x); reflexivity. }
      destruct (has_guid g q && in_scope user q) eqn:G.
      - apply flat_map_ext. intro t. now rewrite Hw.
      - transitivity (flat_map (fun _ : tag_row => @nil link_row) (tags s)).
        + apply flat_map_ext. intro t. now rewrite Hw.
        + apply flat_map_nil. }
  rewrite flat_map_filter.
  rewrite (filter_unique (fun q => has_guid g q && in_scope user q)
             (prompts s) p).
  - simpl. rewrite app_nil_r. rewrite flat_map_filter.
    rewrite (filter_unique (fun t => String.eqb (t_tag t) x) (tags s) tx).
    + reflexivity.
    + apply (NoDup_map_inv t_id). apply W.
    + exact Htx.
    + now apply String.eqb_eq.
    + intros t Ht E. apply String.eqb_eq in E.
      apply (NoDup_map_inj t_tag (tags s)); auto; [apply W|congruence].
  - apply (NoDup_map_inv r_id). apply W.
  - exact Hp.
  - rewrite Hs. unfold has_guid. rewrite Hg. now rewrite String.eqb_refl.
  - intros q Hq E. apply andb_true_iff in E. destruct E as [E _].
    apply String.eqb_eq in E.
    apply (NoDup_map_inj r_guid (prompts s)); auto; [apply W|congruence].
Qed.

Lemma malformed_add_tag (g x : string) (user : option User) :
  malformed [prompts_guid_eq g; tags_tag_eq x; author_clause user] = false.
Proof. unfold malformed. simpl. destruct user; reflexivity. Qed.

(** Adding a tag the prompt does not have yet: the call succeeds and the
    tag is appended to the tags of the prompt. *)
Lemma add_tag_fresh (g x : string) (user : option User)
    (db : DatabaseContext) (p : prompt_row) :
  wf_store (store db) ->
  In p (prompts (store db)) -> r_guid p = g -> in_scope user p = true ->
  ~ In x (tags_of (store db) (r_id p)) ->
  exists db1,
    add_tag_to_prompt g x user db = (Ok tt, db1)
    /\ wf_store (store db1)
    /\ prompts (store db1) = prompts (store db)
    /\ tags_of (store db1) (r_id p) = tags_of (store db) (r_id p) ++ [x].
Proof.
  intros W Hp Hg Hs Hx.
  destruct (upsert_tag_spec x (store db) W)
    as (s1 & E1 & W1 & P1 & L1 & T1 & (tx & Htx & Etx) & _).
  unfold add_tag_to_prompt.
  rewrite (bind_ok _ _ _ _ _ (cursor_execute_ok _ db _ _ E1)).
  assert (Hp1 : In p (prompts s1)) by now rewrite P1.
  assert (Hnl : ~ In (mkLink (r_id p) (t_id tx)) (prompt_tags s1)).
  { intro H. apply (link_In_tags_of s1 (r_id p) tx W1 Htx) in H.
    rewrite Etx, T1 in H. contradiction. }
  erewrite cursor_execute_ok.
  2:{ cbn [execute store]. rewrite malformed_add_tag.
      rewrite (select_pairs_single g x user s1 p tx W1 Hp1 Hg Hs Htx Etx).
      cbn [has_dup existsb]. rewrite orb_false_r. simpl orb.
      assert (H : existsb (link_eqb (mkLink (r_id p) (t_id tx)))
                          (prompt_tags s1) = false).
      { apply not_true_is_false. intro H. apply existsb_link_In in H.
        contradiction. }
      now rewrite H. }
  eexists. split; [reflexivity|]. cbn [store].
  split; [now apply wf_snoc_link|]. split; [exact P1|].
  rewrite (tags_of_snoc_link s1 (r_id p) tx W1 Htx). now rewrite T1, Etx.
Qed.

(** Adding a tag the prompt already has: the link insert violates the
    uniqueness of the (prompt, tag) pair, the driver raises, and the store
    is as before. *)
Lemma add_tag_present (g x : string) (user : option User)
    (db : DatabaseContext) (p : prompt_row) :
  wf_store (store db) ->
  In p (prompts (store db)) -> r_guid p = g -> in_scope user p = true ->
  In x (tags_of (store db) (r_id p)) ->
  exists db1,
    add_tag_to_prompt g x user db = (Raise IntegrityError, db1)
    /\ store db1 = store db.
Proof.
  intros W Hp Hg Hs Hx.
  destruct (upsert_tag_spec x (store db) W)
    as (s1 & E1 & W1 & P1 & L1 & T1 & (tx & Htx & Etx) & Hsame).
  assert (s1 = store db).
  { apply Hsame. apply tags_of_In in Hx.
    destruct Hx as (l & t & _ & _ & Ht & _ & Et).
    apply in_map_iff. now exists t. }
  subst s1.
  unfold add_tag_to_prompt.
  rewrite (bind_ok _ _ _ _ _ (cursor_execute_ok _ db _ _ E1)).
  erewrite cursor_execute_raise.
  - eexists. split; reflexivity.
  - cbn [execute store]. rewrite malformed_add_tag.
    rewrite (select_pairs_single g x user (store db) p tx W Hp Hg Hs Htx Etx).
    cbn [has_dup existsb]. rewrite orb_false_r. simpl orb.
    assert (H : existsb (link_eqb (mkLink (r_id p) (t_id tx)))
                        (prompt_tags (store db)) = true).
    { apply existsb_link_In. apply (link_In_tags_of _ _ _ W Htx).
      now rewrite Etx. }
    now rewrite H.
Qed.

(** C7, as amended. For a prompt in the caller's scope that does not carry
    the tag yet, in a store that respects the schema's keys: the first
    [add_tag_to_prompt] succeeds and the tag is then among the tags of the
    prompt exactly once; the second call does not change the store, so the
    tag still occurs once, but it is an error, not a silent no-op: the link
    insert breaks the uniqueness of the (prompt, tag) pair, the repository
    raises the driver's [IntegrityError], and the façade rolls back and
    raises the generic [PromptException]. *)
Theorem add_tag_twice_membership (g x : string) (user : option User)
    (db : DatabaseContext) (p : prompt_row) :
  wf_store (store db) ->
  In p (prompts (store db)) -> r_guid p = g -> in_scope user p = true ->
  ~ In x (tags_of (store db) (r_id p)) ->
  exists db1 db2,
    add_tag_to_prompt g x user db = (Ok tt, db1)
    /\ count_occ string_dec (tags_of (store db1) (r_id p)) x = 1
    /\ add_tag_to_prompt g x user db1 = (Raise IntegrityError, db2)
    /\ store db2 = store db1
    /\ (let r := PromptService.add_tag_to_prompt g x user db1 in
        fst r = Raise (PromptException unexpected_msg (Some IntegrityError))
        /\ store (snd r) = store db1).
Proof.
  intros W Hp Hg Hs Hx.
  destruct (add_tag_fresh g x user db p W Hp Hg Hs Hx)
    as (db1 & E1 & W1 & P1 & T1).
  assert (Hp1 : In p (prompts (store db1))) by now rewrite P1.
  assert (Hx1 : In x (tags_of (store db1) (r_id p))).
  { rewrite T1. apply in_or_app. right. now left. }
  destruct (add_tag_present g x user db1 p W1 Hp1 Hg Hs Hx1)
    as (db2 & E2 & S2).
  exists db1, db2. split; [exact E1|]. split; [|split; [exact E2|split]].
  - rewrite T1, count_occ_app.
    rewrite (proj1 (count_occ_not_In string_dec _ _) Hx). simpl.
    destruct (string_dec x x); [reflexivity|contradiction].
  - exact S2.
  - destruct (add_tag_present g x user (snd (begin_transaction db1)) p
                W1 Hp1 Hg Hs Hx1) as (db3 & E3 & _).
    destruct (in_transaction_raise (add_tag_to_prompt g x user) db1
                IntegrityError) as (H1 & H2 & _).
    + apply keeps_add_tag.
    + now rewrite E3.
    + split; assumption.
Qed.

Lemma wf_demo_store : wf_store demo_store.
Proof.
  constructor; simpl.
  - repeat constructor; simpl; intuition discriminate.
  - repeat constructor; simpl; intuition discriminate.
  - intros p [<-|[]]. simpl. lia.
  - repeat constructor; simpl; intuition discriminate.
  - repeat constructor; simpl; intuition discriminate.
  - intros t [<-|[<-|[]]]; simpl; lia.
  - reflexivity.
  - intros l [<-|[<-|[]]]; simpl; lia.
Qed.

Lemma add_tag_twice_membership_witness :
  wf_store (store demo_db)
  /\ In demo_row (prompts (store demo_db))
  /\ r_guid demo_row = "g1"
  /\ in_scope (Some alice) demo_row = true
  /\ ~ In "x" (tags_of (store demo_db) (r_id demo_row))
  /\ exists db1 db2,
       add_tag_to_prompt "g1" "x" (Some alice) demo_db = (Ok tt, db1)
       /\ count_occ string_dec (tags_of (store db1) (r_id demo_row)) "x" = 1
       /\ add_tag_to_prompt "g1" "x" (Some alice) db1
          = (Raise IntegrityError, db2)
       /\ store db2 = store db1.
Proof.
  assert (H1 : In demo_row (prompts (store demo_db))) by (simpl; auto).
  assert (H2 : ~ In "x" (tags_of (store demo_db) (r_id demo_row))).
  { simpl. intros [H|[H|[]]]; discriminate. }
  split; [exact wf_demo_store|]. split; [exact H1|].
  split; [reflexivity|]. split; [reflexivity|]. split; [exact H2|].
  destruct (add_tag_twice_membership "g1" "x" (Some alice) demo_db demo_row
              wf_demo_store H1 eq_refl eq_refl H2)
    as (db1 & db2 & A & B & C & D & _).
  exists db1, db2. auto.
Defined.

(** C7 as stated fails on the tagged prompt of [alice]: the second of two
    equal [add_tag_to_prompt] calls does not return, it raises. *)
Lemma add_tag_twice_second_call_raises :
  let db1 := snd (add_tag_to_prompt "g1" "x" (Some alice) demo_db) in
  fst (add_tag_to_prompt "g1" "x" (Some alice) demo_db) = Ok tt
  /\ fst (add_tag_to_prompt "g1" "x" (Some alice) db1) <> Ok tt
  /\ fst (add_tag_to_prompt "g1" "x" (Some alice) db1) = Raise IntegrityError
  /\ fst (PromptService.add_tag_to_prompt "g1" "x" (Some alice) db1)
     = Raise (PromptException unexpected_msg (Some IntegrityError)).
Proof. cbv zeta. repeat split. discriminate. Qed.

(* ----------------------------------------------------------------- *)
(** *** Creating a prompt and reading it back *)

Lemma split_no_comma (a : string) :
  Py.contains comma a = false -> Py.split comma a = [a].
Proof.
  induction a as [|c a IH]; simpl; intro H; [reflexivity|].
  apply orb_false_iff in H. destruct H as [Hc Ha].
  rewrite Hc. now rewrite (IH Ha).
Qed.

Lemma split_app_comma (a rest : string) :
  Py.contains comma a = false ->
  Py.split comma (a ++ String comma rest)%string = a :: Py.split comma rest.
Proof.
  induction a as [|c a IH]; simpl; intro H.
  - reflexivity.
  - apply orb_false_iff in H. destruct H as [Hc Ha].
    rewrite Hc. now rewrite (IH Ha).
Qed.

(** Splitting the comma-joined aggregate gives the tags back when no tag
    contains a comma. *)
Lemma split_join (ts : list string) :
  ts <> [] -> Forall (fun t => Py.contains comma t = false) ts ->
  Py.split comma (Py.join "," ts) = ts.
Proof.
  unfold Py.join. induction ts as [|a ts IH]; intros Hne Hall; [contradiction|].
  inversion Hall as [|? ? Ha Hts]; subst.
  destruct ts as [|b ts].
  - simpl. now apply split_no_comma.
  - change (String.concat "," (a :: b :: ts))
      with (a ++ String comma (String.concat "," (b :: ts)))%string.
    rewrite (split_app_comma _ _ Ha). f_equal. apply IH; [discriminate|exact Hts].
Qed.

Lemma truthy_join (ts : list string) :
  ts <> [] -> ts <> [""] -> Py.truthy_str (Py.join "," ts) = true.
Proof.
  unfold Py.join. destruct ts as [|a [|b ts]]; intros H1 H2.
  - contradiction.
  - simpl. destruct a; [contradiction|reflexivity].
  - change (String.concat "," (a :: b :: ts))
      with (a ++ String comma (String.concat "," (b :: ts)))%string.
    destruct a; reflexivity.
Qed.

Lemma GROUP_CONCAT_joined (s : Store) (p : prompt_row) :
  GROUP_CONCAT (joined_tags s p)
  = match tags_of s (r_id p) with
    | [] => None
    | vs => Some (Py.join "," vs)
    end.
Proof. unfold GROUP_CONCAT. now rewrite joined_tags_tags_of. Qed.

Lemma find_snoc_fresh {A} (f : A -> bool) (l : list A) (a : A) :
  (forall x, In x l -> f x = false) -> f a = true ->
  find f (l ++ [a]) = Some a.
Proof.
  intros Hl Ha. induction l as [|b l IH]; simpl.
  - now rewrite Ha.
  - rewrite (Hl b (or_introl eq_refl)). apply IH.
    intros x Hx. apply Hl. now right.
Qed.

Lemma with_prompt_tags_same (s : Store) :
  with_prompt_tags s (prompt_tags s) = s.
Proof. now destruct s. Qed.

(** The tag loop of [_update_tags] on distinct tags none of which the
    prompt carries: every insert succeeds and the tags are appended. *)
Lemma for_each_add_tags (g : string) (user : option User) (p : prompt_row)
    (ts : list string) :
  forall db,
    wf_store (store db) ->
    In p (prompts (store db)) -> r_guid p = g -> in_scope user p = true ->
    NoDup ts ->
    (forall t, In t ts -> ~ In t (tags_of (store db) (r_id p))) ->
    exists db1,
      for_each ts (fun tag => add_tag_to_prompt g tag user) db = (Ok tt, db1)
      /\ wf_store (store db1)
      /\ prompts (store db1) = prompts (store db)
      /\ tags_of (store db1) (r_id p) = tags_of (store db) (r_id p) ++ ts.
Proof.
  induction ts as [|x ts IH]; intros db W Hp Hg Hs Hn Hf; simpl.
  - exists db. rewrite app_nil_r. auto.
  - inversion Hn as [|? ? Hx Hn']; subst.
    destruct (add_tag_fresh (r_guid p) x user db p W Hp eq_refl Hs
                (Hf x (or_introl eq_refl))) as (db1 & E1 & W1 & P1 & T1).
    rewrite (bind_ok _ _ _ _ _ E1).
    destruct (IH db1 W1) as (db2 & E2 & W2 & P2 & T2); auto.
    + now rewrite P1.
    + intros t Ht Hin. rewrite T1 in Hin. apply in_app_or in Hin.
      destruct Hin as [Hin|[<-|[]]].
      * apply (Hf t (or_intror Ht) Hin).
      * contradiction.
    + exists db2. split; [exact E2|]. split; [exact W2|].
      split; [congruence|]. rewrite T2, T1. now rewrite <- app_assoc.
Qed.

(** Inserting a row under a guid no row carries keeps the schema's keys;
    the new prompt has the next identity and no tags. *)
Lemma insert_prompt_wf (s : Store) (g c d : string) (a : option string) :
  wf_store s ->
  (forall q, In q (prompts s) -> r_guid q <> g) ->
  let row := mkPromptRow (next_prompt_id s) g c d a (clock s) (clock s) in
  let s0 := with_prompts s (prompts s ++ [row]) (S (next_prompt_id s)) in
  wf_store s0
  /\ tags_of s0 (r_id row) = []
  /\ (forall l, In l (prompt_tags s0) -> l_prompt_id l <> r_id row).
Proof.
  intros W Hg row s0. destruct W.
  assert (Hl : forall l, In l (prompt_tags s) ->
                         l_prompt_id l <> next_prompt_id s).
  { intros l Hl. destruct (wf_link_bound0 l Hl). lia. }
  split; [|split].
  - constructor; simpl; auto.
    + rewrite map_app. apply NoDup_snoc; auto. now apply bound_not_In.
    + rewrite map_app. apply NoDup_snoc; auto. simpl.
      intro Hin. apply in_map_iff in Hin. destruct Hin as (q & E & Hq).
      now apply (Hg q Hq).
    + intros q Hq. apply in_app_or in Hq. destruct Hq as [Hq|[<-|[]]].
      * specialize (wf_prompt_bound0 q Hq). lia.
      * simpl. lia.
    + intros l Hin. destruct (wf_link_bound0 l Hin). split; [lia|assumption].
  - unfold tags_of. simpl. rewrite filter_none; [reflexivity|].
    intros l Hin. apply Nat.eqb_neq. now apply Hl.
  - exact Hl.
Qed.

(** [create_prompt] under a fresh guid with distinct tags: it returns the
    guid, keeps the schema's keys, and the new row, appended to [prompts],
    carries exactly the given tags. *)
Lemma create_prompt_spec (g : string) (prompt : PromptCreate)
    (author : option User) (db : DatabaseContext) (ts : list string) :
  wf_store (store db) ->
  (forall q, In q (prompts (store db)) -> r_guid q <> g) ->
  pc_tags prompt = Some ts ->
  NoDup ts ->
  let row := mkPromptRow (next_prompt_id (store db)) g (pc_content prompt)
               (pc_display_name prompt) (username_or_None author)
               (clock (store db)) (clock (store db)) in
  exists db1,
    create_prompt g prompt author db = (Ok g, db1)
    /\ wf_store (store db1)
    /\ prompts (store db1) = prompts (store db) ++ [row]
    /\ tags_of (store db1) (r_id row) = ts.
Proof.
  intros W Hg Ht Hn row.
  destruct (insert_prompt_wf (store db) g (pc_content prompt)
              (pc_display_name prompt) (username_or_None author) W Hg)
    as (W0 & T0 & L0).
  fold row in W0, T0, L0.
  set (s0 := with_prompts (store db) (prompts (store db) ++ [row])
                          (S (next_prompt_id (store db)))) in *.
  assert (Hscope : in_scope author row = true)
    by (apply opt_str_eqb_true; reflexivity).
  assert (Hfind : find (has_guid g) (prompts s0) = Some row).
  { simpl. apply find_snoc_fresh.
    - intros q Hq. apply String.eqb_neq. now apply Hg.
    - apply String.eqb_refl. }
  unfold create_prompt.
  rewrite (bind_ok _ _ _ _ _
             (cursor_execute_ok (INSERT_prompts _ _ _ _) db s0 [] eq_refl)).
  rewrite Ht. unfold _update_tags. unfold bind at 1. unfold bind at 1.
  match goal with
  | |- context [_check_prompt_ownership g author ?d] =>
      destruct (check_prompt_ownership_passes g author d row Hfind Hscope)
        as (db1 & Ec & Sc)
  end.
  cbn [store] in Sc. rewrite Ec.
  unfold remove_all_tags_from_prompt. unfold bind at 1.
  erewrite cursor_execute_ok.
  2:{ cbn [execute].
      rewrite (malformed_scoped (prompts_guid_eq g) author) by discriminate.
      rewrite Sc. rewrite filter_all.
      - rewrite with_prompt_tags_same. reflexivity.
      - intros l Hl. apply negb_true_iff. apply not_true_is_false.
        intro Hsel. unfold link_selected in Hsel.
        apply existsb_exists in Hsel. destruct Hsel as (q & Hq & Hsel).
        apply andb_true_iff in Hsel. destruct Hsel as [Hid Hw].
        apply Nat.eqb_eq in Hid.
        unfold eval_where in Hw. cbn [forallb eval_cond] in Hw.
        apply andb_true_iff in Hw. destruct Hw as [Hgq _].
        apply String.eqb_eq in Hgq.
        simpl in Hq. apply in_app_or in Hq. destruct Hq as [Hq|[<-|[]]].
        + now apply (Hg q Hq).
        + now apply (L0 l Hl). }
  match goal with
  | |- context [for_each ts _ ?d] =>
      destruct (for_each_add_tags g author row ts d) as (db2 & Ef & Wf & Pf & Tf)
  end; auto.
  - simpl. apply in_or_app. right. now left.
  - intros t _. cbn [store]. rewrite T0. auto.
  - rewrite Ef. cbn [store] in Pf, Tf. rewrite T0 in Tf.
    exists db2. unfold ret. auto.
Qed.

(** C9, as amended. Under a guid no row carries yet, in a store that
    respects the schema's keys, for an input whose tags are distinct,
    contain no comma and are not just the empty string: [create_prompt]
    returns the guid, and [get_prompt] of that guid by the same caller
    returns a prompt with the content and the display name of the input
    and with the same set of tags. *)
Theorem create_get_roundtrip (g : string) (prompt : PromptCreate)
    (author : option User) (db : DatabaseContext) (ts : list string) :
  wf_store (store db) ->
  (forall q, In q (prompts (store db)) -> r_guid q <> g) ->
  pc_tags prompt = Some ts ->
  NoDup ts ->
  Forall (fun t => Py.contains comma t = false) ts ->
  ts <> [""] ->
  exists db1 pr,
    create_prompt g prompt author db = (Ok g, db1)
    /\ fst (get_prompt g author db1) = Ok pr
    /\ p_guid pr = g
    /\ p_content pr = Some (pc_content prompt)
    /\ p_display_name pr = Some (pc_display_name prompt)
    /\ exists l, p_tags pr = Some l /\ forall t, In t l <-> In t ts.
Proof.
  intros W Hg Ht Hn Hc He.
  destruct (create_prompt_spec g prompt author db ts W Hg Ht Hn)
    as (db1 & Ecr & W1 & P1 & T1).
  set (row := mkPromptRow (next_prompt_id (store db)) g (pc_content prompt)
                (pc_display_name prompt) (username_or_None author)
                (clock (store db)) (clock (store db))) in *.
  assert (Hscope : in_scope author row = true)
    by (apply opt_str_eqb_true; reflexivity).
  destruct (get_prompt_spec g author db1) as [_ Hr].
  rewrite P1 in Hr.
  rewrite (find_snoc_fresh _ _ row) in Hr.
  2:{ intros q Hq. unfold has_guid.
      rewrite (proj2 (String.eqb_neq _ _) (Hg q Hq)). reflexivity. }
  2:{ rewrite Hscope. unfold has_guid. simpl. now rewrite String.eqb_refl. }
  rewrite filter_all in Hr.
  2:{ intros t _. unfold eval_where. cbn [forallb].
      rewrite author_clause_in_scope, Hscope. simpl.
      now rewrite String.eqb_refl. }
  rewrite GROUP_CONCAT_joined, T1 in Hr.
  exists db1. eexists. split; [exact Ecr|]. split; [exact Hr|].
  do 3 (split; [reflexivity|]).
  exists ts. split; [|tauto]. unfold Prompt_of; cbn [p_tags]. f_equal.
  destruct ts as [|x ts']; [reflexivity|]. lazy iota beta.
  rewrite truthy_join by (auto; discriminate).
  apply split_join; [discriminate|exact Hc].
Qed.

Lemma wf_empty_store : wf_store empty_store.
Proof.
  constructor; simpl; try constructor; try contradiction; reflexivity.
Qed.

Lemma create_get_roundtrip_witness :
  wf_store (store (fresh_context empty_store))
  /\ NoDup ["a"; "b"]
  /\ Forall (fun t => Py.contains comma t = false) ["a"; "b"]
  /\ ["a"; "b"] <> [""]
  /\ exists db1 pr,
       create_prompt "g1" (mkPromptCreate "hello" "name" None (Some ["a"; "b"]))
                     (Some alice) (fresh_context empty_store) = (Ok "g1", db1)
       /\ fst (get_prompt "g1" (Some alice) db1) = Ok pr
       /\ p_content pr = Some "hello"
       /\ p_display_name pr = Some "name"
       /\ exists l, p_tags pr = Some l /\ forall t, In t l <-> In t ["a"; "b"].
Proof.
  assert (H1 : NoDup ["a"; "b"]).
  { repeat constructor; simpl; intuition discriminate. }
  assert (H2 : Forall (fun t => Py.contains comma t = false) ["a"; "b"])
    by (repeat constructor).
  assert (H3 : ["a"; "b"] <> [""]) by discriminate.
  split; [exact wf_empty_store|]. split; [exact H1|].
  split; [exact H2|]. split; [exact H3|].
  destruct (create_get_roundtrip "g1"
              (mkPromptCreate "hello" "name" None (Some ["a"; "b"]))
              (Some alice) (fresh_context empty_store) ["a"; "b"]
              wf_empty_store (fun q (H : In q []) => match H with end)
              eq_refl H1 H2 H3)
    as (db1 & pr & A & B & _ & C & D & E).
  exists db1, pr. auto.
Defined.

(** C9 as stated fails for a tag that contains a comma: the created
    prompt is read back with the two halves as its tags. *)
Lemma create_get_comma_tag_differs :
  let input := mkPromptCreate "hello" "name" None (Some ["a,b"]) in
  let r := create_prompt "g2" input (Some alice) (fresh_context empty_store) in
  fst r = Ok "g2"
  /\ fst (get_prompt "g2" (Some alice) (snd r))
     = Ok (mkPrompt (Some "hello") (Some "name") (Some ["a"; "b"]) 1 "g2" 0 0)
  /\ ~ (forall t, In t ["a"; "b"] <-> In t ["a,b"]).
Proof.
  cbv zeta. split; [reflexivity|]. split; [reflexivity|].
  intro H. destruct (proj1 (H "a") (or_introl eq_refl)) as [E|[]].
  discriminate.
Qed.

(* ----------------------------------------------------------------- *)
(** *** The schema's keys are kept by every repository operation *)

Lemma has_dup_NoDup (l : list link_row) : has_dup l = false <-> NoDup l.
Proof.
  induction l as [|a l IH]; simpl.
  - split; [constructor|reflexivity].
  - rewrite orb_false_iff, IH. split.
    + intros [Ha Hn]. constructor; [|exact Hn].
      intro Hin. apply existsb_link_In in Hin. congruence.
    + intro H. inversion H as [|? ? Ha Hn]; subst. split; [|exact Hn].
      apply not_true_is_false. intro E. apply existsb_link_In in E.
      contradiction.
Qed.

Lemma NoDup_map_filter {A B} (f : A -> B) (P : A -> bool) (l : list A) :
  NoDup (map f l) -> NoDup (map f (filter P l)).
Proof.
  induction l as [|a l IH]; simpl; intro H; [constructor|].
  inversion H as [|? ? Ha Hn]; subst.
  destruct (P a); simpl; [|now apply IH].
  constructor; [|now apply IH].
  intro Hin. apply Ha. apply in_map_iff in Hin.
  destruct Hin as (x & E & Hx). apply filter_In in Hx.
  apply in_map_iff. exists x. tauto.
Qed.

(** The column update changes neither identity, guid nor author. *)
Lemma assign_keeps (sets : list (column * string)) (p : prompt_row) :
  r_id (fold_left assign sets p) = r_id p
  /\ r_guid (fold_left assign sets p) = r_guid p
  /\ r_author (fold_left assign sets p) = r_author p.
Proof.
  revert p. induction sets as [|[c v] sets IH]; intro p; simpl; [auto|].
  destruct (IH (assign p (c, v))) as (H1 & H2 & H3).
  rewrite H1, H2, H3. destruct c; auto.
Qed.

Lemma select_pairs_In (w : list cond) (s : Store) (l : link_row) :
  In l (select_pairs w s) ->
  exists p t, In p (prompts s) /\ In t (tags s)
              /\ l = mkLink (r_id p) (t_id t).
Proof.
  unfold select_pairs. intro H. apply in_flat_map in H.
  destruct H as (p & Hp & H). apply in_flat_map in H.
  destruct H as (t & Ht & H).
  destruct (eval_where w p (Some t)); [|contradiction].
  destruct H as [<-|[]]. now exists p, t.
Qed.

Lemma execute_wf (q : stmt) (s s' : Store) (rows : list result_row) :
  wf_store s ->
  (forall g c d a, q = INSERT_prompts g c d a ->
                   forall p, In p (prompts s) -> r_guid p <> g) ->
  execute q s = inr (s', rows) ->
  wf_store s'.
Proof.
  intros W Hfresh E. destruct q; cbn [execute] in E.
  - inversion E; subst.
    apply (insert_prompt_wf s g c d a W (Hfresh g c d a eq_refl)).
  - destruct (malformed where_); [discriminate|]. inversion E; subst.
    set (f := fun p => if eval_where where_ p None
                       then fold_left assign sets p else p).
    assert (Hid : forall p, r_id (f p) = r_id p /\ r_guid (f p) = r_guid p).
    { intro p. unfold f. destruct (eval_where where_ p None); [|auto].
      destruct (assign_keeps sets p) as (H1 & H2 & _). auto. }
    destruct W. constructor; simpl; auto.
    + rewrite map_map. rewrite (map_ext _ r_id); [assumption|].
      intro p. apply Hid.
    + rewrite map_map. rewrite (map_ext _ r_guid); [assumption|].
      intro p. apply Hid.
    + intros p Hp. apply in_map_iff in Hp. destruct Hp as (p0 & <- & Hp0).
      rewrite (proj1 (Hid p0)). auto.
  - destruct (malformed where_); [discriminate|]. inversion E; subst.
    destruct W. constructor; simpl; auto.
    + now apply NoDup_map_filter.
    + now apply NoDup_map_filter.
    + intros p Hp. apply filter_In in Hp. apply wf_prompt_bound0, Hp.
  - destruct (malformed where_); [discriminate|]. now inversion E; subst.
  - destruct (malformed where_); [discriminate|]. now inversion E; subst.
  - destruct (upsert_tag_spec t s W) as (s1 & E1 & W1 & _).
    cbn [execute] in E1. rewrite E in E1. now inversion E1; subst.
  - destruct (malformed where_); [discriminate|].
    destruct (has_dup (select_pairs where_ s)
              || existsb (fun l => existsb (link_eqb l) (prompt_tags s))
                         (select_pairs where_ s)) eqn:D; [discriminate|].
    inversion E; subst. apply orb_false_iff in D. destruct D as [D1 D2].
    destruct W. constructor; simpl; auto.
    + apply has_dup_NoDup. apply NoDup_app.
      * now apply has_dup_NoDup.
      * now apply has_dup_NoDup.
      * intros l Hl Hn.
        assert (existsb (fun l => existsb (link_eqb l) (prompt_tags s))
                        (select_pairs where_ s) = true); [|congruence].
        apply existsb_exists. exists l. split; [exact Hn|].
        now apply existsb_link_In.
    + intros l Hl. apply in_app_or in Hl. destruct Hl as [Hl|Hl]; auto.
      apply select_pairs_In in Hl. destruct Hl as (p & t & Hp & Ht & ->).
      simpl. auto.
  - destruct (malformed where_); [discriminate|]. inversion E; subst.
    destruct W. constructor; simpl; auto.
    + apply has_dup_NoDup. apply NoDup_filter. now apply has_dup_NoDup.
    + intros l Hl. apply filter_In in Hl. apply wf_link_bound0, Hl.
Qed.

Lemma wf_ret {A} (a : A) : preserves_wf (ret a).
Proof. intros db W. exact W. Qed.

Lemma wf_raise {A} (e : exn) : preserves_wf (@raise A e).
Proof. intros db W. exact W. Qed.

Lemma wf_bind {A B} (m : M A) (k : A -> M B) :
  preserves_wf m -> (forall a, preserves_wf (k a)) -> preserves_wf (bind m k).
Proof.
  intros Hm Hk db W. unfold bind. specialize (Hm db W).
  destruct (m db) as [[a|e] db1]; simpl in *; [|exact Hm].
  now apply Hk.
Qed.

Lemma wf_cursor_execute (q : stmt) :
  not_insert_prompts q -> preserves_wf (cursor_execute q).
Proof.
  intros Hq db W. unfold cursor_execute.
  destruct (execute q (store db)) as [e|[s' rows]] eqn:E; simpl; [exact W|].
  apply (execute_wf q (store db) s' rows W); [|exact E].
  intros g c d a ->. contradiction.
Qed.

Lemma wf_fetchone : preserves_wf fetchone.
Proof. intros db W. unfold fetchone. destruct (cursor db); exact W. Qed.

Lemma wf_fetchall : preserves_wf fetchall.
Proof. intros db W. exact W. Qed.

Lemma wf_for_each {A} (xs : list A) (body : A -> M unit) :
  (forall x, preserves_wf (body x)) -> preserves_wf (for_each xs body).
Proof.
  intro H. induction xs as [|x xs IH]; simpl.
  - apply wf_ret.
  - apply wf_bind; [apply H|intros _; exact IH].
Qed.

Lemma wf_make_prompts (rows : list result_row) :
  preserves_wf (make_prompts rows).
Proof.
  induction rows as [|r rows IH]; simpl; [apply wf_ret|].
  apply wf_bind.
  - destruct r; [apply wf_raise|apply wf_ret].
  - intro p. apply wf_bind; [exact IH|intro; apply wf_ret].
Qed.

Create HintDb wf discriminated.
#[local] Hint Resolve wf_ret wf_raise wf_fetchone wf_fetchall wf_make_prompts
  : wf.
#[local] Hint Extern 1 (not_insert_prompts _) => exact I : wf.
#[local] Hint Extern 2 (preserves_wf (cursor_execute _)) =>
  apply wf_cursor_execute : wf.
#[local] Hint Extern 2 (preserves_wf (bind _ _)) =>
  apply wf_bind; [|intro] : wf.
#[local] Hint Extern 2 (preserves_wf (for_each _ _)) =>
  apply wf_for_each; intro : wf.
#[local] Hint Extern 3 (preserves_wf (match ?x with _ => _ end)) =>
  destruct x : wf.

Lemma wf_update_tags (g : string) (ts : option (list string))
    (user : option User) :
  preserves_wf (_update_tags g ts user).
Proof.
  unfold _update_tags, _check_prompt_ownership, remove_all_tags_from_prompt,
    add_tag_to_prompt.
  auto 12 with wf.
Qed.

(** X21. The schema's keys hold in the empty store and are kept by every
    repository operation; [create_prompt] needs a guid that is not in
    use, as the identifier generator is expected to provide. *)
Theorem repository_preserves_wf :
  wf_store empty_store
  /\ (forall g prompt author db,
        wf_store (store db) ->
        (forall p, In p (prompts (store db)) -> r_guid p <> g) ->
        wf_store (store (snd (create_prompt g prompt author db))))
  /\ (forall g prompt user, preserves_wf (update_prompt g prompt user))
  /\ (forall g user, preserves_wf (delete_prompt g user))
  /\ (forall g t user, preserves_wf (add_tag_to_prompt g t user))
  /\ (forall g t user, preserves_wf (remove_tag_from_prompt g t user))
  /\ (forall g user, preserves_wf (get_prompt g user))
  /\ (forall n user, preserves_wf (get_prompt_by_name n user))
  /\ (forall user, preserves_wf (list_prompts user))
  /\ (forall ts user, preserves_wf (list_prompts_by_tags ts user)).
Proof.
  split; [exact wf_empty_store|]. repeat apply conj.
  - intros g prompt author db W Hg. unfold create_prompt. unfold bind at 1.
    unfold cursor_execute at 1. cbn [execute].
    apply (wf_bind (_update_tags g (pc_tags prompt) author)
                   (fun _ => ret g)).
    + apply wf_update_tags.
    + intro. apply wf_ret.
    + cbn [store].
      apply (insert_prompt_wf (store db) g _ _ _ W Hg).
  - intros g prompt user. unfold update_prompt.
    destruct (build_sets prompt) as [sets setting].
    destruct (negb setting && _); [apply wf_raise|].
    apply wf_bind.
    + destruct setting; auto with wf.
    + intros _. destruct (pu_tags prompt); [apply wf_update_tags|apply wf_ret].
  - intros g user.
    unfold delete_prompt, _check_prompt_ownership,
      remove_all_tags_from_prompt.
    auto 12 with wf.
  - intros g t user. unfold add_tag_to_prompt. auto with wf.
  - intros g t user. unfold remove_tag_from_prompt. auto with wf.
  - intros g user. unfold get_prompt, fetch_prompt_or_not_found,
      make_result_dict.
    auto 12 with wf.
  - intros n user. unfold get_prompt_by_name, fetch_prompt_or_not_found,
      make_result_dict.
    auto 12 with wf.
  - intros user. unfold list_prompts. auto 12 with wf.
  - intros ts user. unfold list_prompts_by_tags. auto 12 with wf.
Qed.

(* ----------------------------------------------------------------- *)
(** *** What an update that omits [tags] does to the tags *)

Lemma find_by_guid (g : string) (s : Store) (p : prompt_row) :
  wf_store s -> In p (prompts s) -> r_guid p = g ->
  find (has_guid g) (prompts s) = Some p.
Proof.
  intros W Hp Hg.
  destruct (find (has_guid g) (prompts s)) as [q|] eqn:E.
  - apply find_some in E. destruct E as [Hq Eq]. apply String.eqb_eq in Eq.
    f_equal. apply (NoDup_map_inj r_guid (prompts s)); auto; [apply W|congruence].
  - apply (proj1 (find_none_iff _ _)) with (x := p) in E; [|exact Hp].
    unfold has_guid in E. rewrite Hg, String.eqb_refl in E. discriminate.
Qed.

(** [remove_all_tags_from_prompt] on a prompt in the caller's scope leaves
    it without tags. *)
Lemma remove_all_tags_clears (g : string) (user : option User)
    (db : DatabaseContext) (p : prompt_row) :
  In p (prompts (store db)) -> r_guid p = g -> in_scope user p = true ->
  exists db1,
    remove_all_tags_from_prompt g user db = (Ok tt, db1)
    /\ prompts (store db1) = prompts (store db)
    /\ tags_of (store db1) (r_id p) = [].
Proof.
  intros Hp Hg Hs. unfold remove_all_tags_from_prompt.
  erewrite cursor_execute_ok.
  2:{ cbn [execute].
      rewrite (malformed_scoped (prompts_guid_eq g) user) by discriminate.
      reflexivity. }
  eexists. split; [reflexivity|]. split; [reflexivity|].
  unfold tags_of. cbn [store with_prompt_tags prompt_tags].
  rewrite (filter_none (fun l => l_prompt_id l =? r_id p)); [reflexivity|].
  intros l Hl. apply filter_In in Hl. destruct Hl as [_ Hl].
  apply negb_true_iff in Hl. apply not_true_is_false. intro E.
  apply Nat.eqb_eq in E.
  assert (link_selected false [prompts_guid_eq g; author_clause user]
                        (store db) l = true); [|congruence].
  unfold link_selected. apply existsb_exists. exists p. split; [exact Hp|].
  rewrite E, Nat.eqb_refl. unfold eval_where. cbn [forallb].
  rewrite author_clause_in_scope, Hs. cbn [eval_cond].
  rewrite Hg. now rewrite String.eqb_refl.
Qed.

(** For every store that respects the schema's keys and every prompt in
    the caller's scope: an update whose input omits [tags] succeeds and
    leaves the prompt without any tag, whatever tags it had. *)
Lemma update_prompt_omitted_tags_clears (g : string) (kw : update_input)
    (user : option User) (db : DatabaseContext) (p : prompt_row) :
  in_tags kw = None ->
  wf_store (store db) ->
  In p (prompts (store db)) -> r_guid p = g -> in_scope user p = true ->
  exists db1,
    update_prompt g (PromptUpdate_init kw) user db = (Ok tt, db1)
    /\ tags_of (store db1) (r_id p) = [].
Proof.
  intros Hk W Hp Hg Hs. unfold update_prompt.
  rewrite (PromptUpdate_init_tags_default kw Hk).
  destruct (build_sets (PromptUpdate_init kw)) as [sets setting].
  rewrite andb_false_r.
  assert (Htags : forall db' p',
            wf_store (store db') -> In p' (prompts (store db')) ->
            r_guid p' = g -> in_scope user p' = true -> r_id p' = r_id p ->
            exists db1,
              _update_tags g (Some []) user db' = (Ok tt, db1)
              /\ tags_of (store db1) (r_id p) = []).
  { intros db' p' W' Hp' Hg' Hs' Hid. unfold _update_tags.
    destruct (check_prompt_ownership_passes g user db' p'
                (find_by_guid g (store db') p' W' Hp' Hg') Hs')
      as (db1 & Ec & Sc).
    rewrite (bind_ok _ _ _ _ _ Ec).
    destruct (remove_all_tags_clears g user db1 p') as (db2 & Er & _ & Tr);
      try assumption.
    { now rewrite Sc. }
    rewrite (bind_ok _ _ _ _ _ Er). simpl. exists db2.
    split; [reflexivity|]. now rewrite <- Hid. }
  destruct setting.
  - set (q := UPDATE_prompts sets [prompts_guid_eq g]).
    set (f := fun r => if eval_where [prompts_guid_eq g] r None
                       then fold_left assign sets r else r).
    assert (E : execute q (store db)
                = inr (with_prompts (store db) (map f (prompts (store db)))
                                    (next_prompt_id (store db)), []))
      by reflexivity.
    rewrite (bind_ok _ _ _ _ _ (cursor_execute_ok q db _ _ E)).
    assert (Hf : r_id (f p) = r_id p /\ r_guid (f p) = r_guid p
                 /\ r_author (f p) = r_author p).
    { unfold f. destruct (eval_where _ p None); [|auto].
      apply assign_keeps. }
    destruct Hf as (F1 & F2 & F3).
    apply (Htags _ (f p)); cbn [store]; auto.
    + apply (execute_wf q (store db) _ [] W); [|exact E].
      intros g0 c d a Hq. discriminate.
    + simpl. now apply in_map.
    + congruence.
    + unfold in_scope in *. now rewrite F3.
  - rewrite (bind_ok _ _ db db tt eq_refl). now apply (Htags db p).
Qed.

(* ----------------------------------------------------------------- *)
(** *** When an update is rejected as empty *)

Lemma execute_errors (q : stmt) (s : Store) (e : exn) :
  execute q s = inl e -> e = ProgrammingError \/ e = IntegrityError.
Proof.
  destruct q; cbn [execute]; try discriminate;
    try (destruct (malformed where_); [intro H; inversion H; auto|]);
    try discriminate.
  - destruct (existsb _ (tags s)); discriminate.
  - destruct (_ || _); [intro H; inversion H; auto|discriminate].
Qed.

Lemma valid_ret {A} (a : A) : never_invalid (ret a).
Proof. intros db msg. discriminate. Qed.

Lemma valid_bind {A B} (m : M A) (k : A -> M B) :
  never_invalid m -> (forall a, never_invalid (k a)) -> never_invalid (bind m k).
Proof.
  intros Hm Hk db msg. unfold bind. specialize (Hm db msg).
  destruct (m db) as [[a|e] db1]; simpl in *; [apply Hk|].
  intro H. apply Hm. inversion H. reflexivity.
Qed.

Lemma valid_cursor_execute (q : stmt) : never_invalid (cursor_execute q).
Proof.
  intros db msg. unfold cursor_execute.
  destruct (execute q (store db)) as [e|[s' rows]] eqn:E; simpl;
    [|discriminate].
  destruct (execute_errors q (store db) e E); subst; discriminate.
Qed.

Lemma valid_for_each {A} (xs : list A) (body : A -> M unit) :
  (forall x, never_invalid (body x)) -> never_invalid (for_each xs body).
Proof.
  intro H. induction xs as [|x xs IH]; simpl.
  - apply valid_ret.
  - apply valid_bind; [apply H|intros _; exact IH].
Qed.

Lemma valid_update_tags (g : string) (ts : option (list string))
    (user : option User) :
  never_invalid (_update_tags g ts user).
Proof.
  unfold _update_tags. apply valid_bind; [|intros _; apply valid_bind].
  - unfold _check_prompt_ownership.
    apply valid_bind; [apply valid_cursor_execute|intros _].
    apply valid_bind.
    + intros db msg. unfold fetchone. destruct (cursor db); discriminate.
    + intros [row|] db msg; [|discriminate]. unfold raise, ret.
      destruct (negb _); discriminate.
  - apply valid_cursor_execute.
  - intros _. destruct ts as [l|]; [|intros db msg; discriminate].
    apply valid_for_each. intro x. unfold add_tag_to_prompt.
    apply valid_bind; [|intros _]; apply valid_cursor_execute.
Qed.

(** [update_prompt] raises the validation error exactly when no scalar
    assignment was built and [tags] is [None]. *)
Lemma update_prompt_rejected_iff (g : string) (prompt : PromptUpdate)
    (user : option User) (db : DatabaseContext) :
  (exists msg, fst (update_prompt g prompt user db)
               = Raise (DataValidationError msg))
  <-> snd (build_sets prompt) = false /\ pu_tags prompt = None.
Proof.
  split.
  - intros [msg H]. unfold update_prompt in H.
    destruct (build_sets prompt) as [sets setting]. simpl.
    destruct setting, (pu_tags prompt) as [ts|]; cbn [negb andb] in H;
      auto; exfalso; revert H.
    + apply (valid_bind (cursor_execute _)
               (fun _ => _update_tags g (Some ts) user)).
      * apply valid_cursor_execute.
      * intros _. apply valid_update_tags.
    + apply (valid_bind (cursor_execute _) (fun _ => ret tt)).
      * apply valid_cursor_execute.
      * intros _. apply valid_ret.
    + apply (valid_bind (ret tt) (fun _ => _update_tags g (Some ts) user)).
      * apply valid_ret.
      * intros _. apply valid_update_tags.
  - intros [Hb Ht]. rewrite (update_prompt_nothing_to_do g prompt user db Hb Ht).
    eexists. reflexivity.
Qed.

(** In terms of the input: the rejection needs [tags] given as an
    explicit null; an input that omits [tags] is never rejected. *)
Lemma update_prompt_omitted_tags_accepted (g : string) (kw : update_input)
    (user : option User) (db : DatabaseContext) (msg : string) :
  in_tags kw = None ->
  fst (update_prompt g (PromptUpdate_init kw) user db)
  <> Raise (DataValidationError msg).
Proof.
  intros Hk H.
  destruct (proj1 (update_prompt_rejected_iff g (PromptUpdate_init kw) user db)
              (ex_intro _ msg H)) as [_ Ht].
  rewrite (PromptUpdate_init_tags_default kw Hk) in Ht. discriminate.
Qed.

(* ================================================================= *)
(** ** Further properties of the façade *)





Lemma in_transaction_atomic {A} (body : M A) :
  keeps_snapshot body -> atomic (PromptService.in_transaction body).
Proof.
  intros K db. unfold PromptService.in_transaction. simpl.
  specialize (K (snd (begin_transaction db))). simpl in K.
  destruct (body _) as [[a|e] db1]; simpl in *.
  - split; [reflexivity|]. split; [intros e H; discriminate|].
    intros a' _. now exists (log db1).
  - split; [reflexivity|]. split; [|intros a H; discriminate].
    intros e' _. rewrite K. split; [reflexivity|]. now exists (log db1).
Qed.

(** X2. Each of the five writes of the prompt service is all or nothing:
    when it raises, the store is the one the call started from and the
    transaction has been rolled back; when it returns, the transaction
    has been committed. *)
Theorem service_writes_atomic :
  (forall g prompt author, atomic (PromptService.create_prompt g prompt author))
  /\ (forall g prompt user, atomic (PromptService.update_prompt g prompt user))
  /\ (forall g user, atomic (PromptService.delete_prompt g user))
  /\ (forall g t user, atomic (PromptService.add_tag_to_prompt g t user))
  /\ (forall g t user, atomic (PromptService.remove_tag_from_prompt g t user)).
Proof.
  repeat apply conj; intros; apply in_transaction_atomic.
  - apply keeps_create_prompt.
  - apply keeps_update_prompt.
  - apply keeps_delete_prompt.
  - apply keeps_add_tag.
  - apply keeps_remove_tag.
Qed.

Lemma guarded_snd {A} (body : M A) (db : DatabaseContext) :
  snd (PromptService.guarded body db) = snd (body db).
Proof.
  unfold PromptService.guarded. now destruct (body db) as [[a|e] db1].
Qed.

Lemma make_prompts_frame (rows : list result_row) (db : DatabaseContext) :
  snd (make_prompts rows db) = db.
Proof.
  revert db. induction rows as [|r rows IH]; intro db; simpl; [reflexivity|].
  unfold bind at 1. destruct r as [a|p agg]; simpl; [reflexivity|].
  unfold bind. specialize (IH db).
  destruct (make_prompts rows db) as [[ps|e] db1]; simpl in *; exact IH.
Qed.

Lemma select_one_reads (w : list cond) :
  malformed w = false ->
  reads_with (SELECT_prompts_with_tags w)
    (cursor_execute (SELECT_prompts_with_tags w) ;; fetch_prompt_or_not_found).
Proof.
  intros Hm db.
  unfold bind, cursor_execute, fetch_prompt_or_not_found, fetchone, bind.
  cbn [execute]. rewrite Hm. cbn [store cursor snapshot log].
  destruct (select_prompts_with_tags w (store db)) as [|[a|p agg] rows];
    simpl; auto.
Qed.

Lemma select_all_reads (w : list cond) :
  malformed w = false ->
  reads_with (SELECT_prompts_with_tags w)
    (cursor_execute (SELECT_prompts_with_tags w) ;;
     results <- fetchall ;; make_prompts results).
Proof.
  intros Hm db. unfold bind at 1. unfold cursor_execute.
  cbn [execute]. rewrite Hm. unfold bind, fetchall.
  cbn [store cursor snapshot log]. rewrite make_prompts_frame. simpl. auto.
Qed.

Lemma reads_guarded {A} (q : stmt) (body : M A) :
  reads_with q body -> reads_with q (PromptService.guarded body).
Proof. intros H db. rewrite guarded_snd. apply H. Qed.

(** X3. The four reads of the prompt service change neither the store nor
    the transaction state, found or not: each executes its one SELECT,
    scoped to the caller, and nothing else, and no transaction is begun. *)
Theorem service_reads_only_select :
  (forall g user,
     reads_with (SELECT_prompts_with_tags [prompts_guid_eq g; author_clause user])
                (PromptService.get_prompt g user))
  /\ (forall n user,
        reads_with (SELECT_prompts_with_tags
                      [prompts_display_name_eq n; author_clause user])
                   (PromptService.get_prompt_by_name n user))
  /\ (forall user,
        reads_with (SELECT_prompts_with_tags [author_clause user])
                   (PromptService.list_prompts user))
  /\ (forall tags_ user,
        reads_with (SELECT_prompts_with_tags
                      [tags_tag_in (Py.split comma tags_); author_clause user])
                   (PromptService.list_prompts_by_tags tags_ user)).
Proof.
  repeat apply conj; intros.
  - apply reads_guarded. apply select_one_reads.
    apply malformed_scoped. discriminate.
  - apply reads_guarded. apply select_one_reads.
    apply malformed_scoped. discriminate.
  - apply reads_guarded. apply select_all_reads.
    unfold malformed. simpl. destruct user; reflexivity.
  - unfold PromptService.list_prompts_by_tags. apply reads_guarded.
    cbv zeta. rewrite truthy_split. change (negb true) with false. cbv iota.
    apply select_all_reads. apply malformed_scoped.
    intros ts E. inversion E. apply split_not_nil.
Qed.

Lemma build_sets_rebuild (kw : update_input) :
  build_sets (PromptUpdate_init (PromptUpdate_dict (PromptUpdate_init kw)))
  = build_sets (PromptUpdate_init kw).
Proof.
  destruct kw as [[[c|]|] [[d|]|] [[t|]|]]; reflexivity.
Qed.

Lemma update_prompt_rebuild (g : string) (kw : update_input)
    (user : option User) :
  update_prompt g (PromptUpdate_init (PromptUpdate_dict (PromptUpdate_init kw)))
                user
  = update_prompt g (PromptUpdate_init kw) user.
Proof.
  unfold update_prompt. rewrite build_sets_rebuild.
  now rewrite PromptUpdate_rebuild_tags.
Qed.

(** X4. The object the façade rebuilds from [prompt.dict()] has every field
    set, yet it updates what the original does: for an object built from
    any input, the façade's [update_prompt] is the repository's
    [update_prompt] on that very object, run in a transaction. *)
Theorem service_update_rebuild_transparent (g : string) (kw : update_input)
    (user : option User) (db : DatabaseContext) :
  PromptService.update_prompt g (PromptUpdate_init kw) user db
  = PromptService.in_transaction
      (update_prompt g (PromptUpdate_init kw) user) db.
Proof.
  unfold PromptService.update_prompt. now rewrite update_prompt_rebuild.
Qed.

(* ================================================================= *)
(** ** Further properties of the tag operations *)

Lemma filter_comm {A} (f g : A -> bool) (l : list A) :
  filter f (filter g l) = filter g (filter f l).
Proof.
  induction l as [|a l IH]; simpl; [reflexivity|].
  destruct (f a) eqn:F, (g a) eqn:G; simpl; rewrite ?F, ?G, IH; reflexivity.
Qed.

Lemma flat_map_filter_pieces {A B} (keep : A -> bool) (ne : B -> bool)
    (h : A -> list B) (l : list A) :
  (forall a, In a l -> filter ne (h a) = if keep a then h a else []) ->
  flat_map h (filter keep l) = filter ne (flat_map h l).
Proof.
  induction l as [|a l IH]; simpl; intro H; [reflexivity|].
  rewrite filter_app, (H a (or_introl eq_refl)).
  destruct (keep a); simpl; rewrite IH; auto.
Qed.

(** Which links the removal of one tag hits. *)
Lemma remove_tag_selected (g x : string) (user : option User) (s : Store)
    (l : link_row) :
  link_selected true [prompts_guid_eq g; tags_tag_eq x; author_clause user] s l
  = true
  <-> exists p t, In p (prompts s) /\ r_id p = l_prompt_id l
                  /\ In t (tags s) /\ t_id t = l_tag_id l
                  /\ r_guid p = g /\ t_tag t = x /\ in_scope user p = true.
Proof.
  unfold link_selected. rewrite existsb_exists. split.
  - intros (p & Hp & H). apply andb_true_iff in H. destruct H as [Hid H].
    apply existsb_exists in H. destruct H as (t & Ht & H).
    apply andb_true_iff in H. destruct H as [Htid Hw].
    unfold eval_where in Hw. cbn [forallb] in Hw.
    rewrite author_clause_in_scope in Hw. cbn [eval_cond] in Hw.
    apply andb_true_iff in Hw. destruct Hw as [Hg Hw].
    apply andb_true_iff in Hw. destruct Hw as [Hx Hw].
    apply andb_true_iff in Hw. destruct Hw as [Hs _].
    exists p, t. apply Nat.eqb_eq in Hid, Htid.
    apply String.eqb_eq in Hg, Hx. auto 10.
  - intros (p & t & Hp & Hid & Ht & Htid & Hg & Hx & Hs).
    exists p. split; [exact Hp|]. apply andb_true_iff. split.
    + now apply Nat.eqb_eq.
    + apply existsb_exists. exists t. split; [exact Ht|].
      apply andb_true_iff. split; [now apply Nat.eqb_eq|].
      unfold eval_where. cbn [forallb]. rewrite author_clause_in_scope.
      cbn [eval_cond]. rewrite Hs, Hg, Hx, !String.eqb_refl. reflexivity.
Qed.

Lemma remove_tag_runs (g x : string) (user : option User)
    (db : DatabaseContext) :
  remove_tag_from_prompt g x user db
  = (Ok tt,
     mkCtx (with_prompt_tags (store db)
              (filter (fun l => negb (link_selected true
                          [prompts_guid_eq g; tags_tag_eq x; author_clause user]
                          (store db) l))
                      (prompt_tags (store db))))
           [] (snapshot db)
           (log db ++ [ev_execute
                         (DELETE_prompt_tags true
                            [prompts_guid_eq g; tags_tag_eq x;
                             author_clause user])])).
Proof.
  unfold remove_tag_from_prompt. apply cursor_execute_ok.
  cbn [execute]. now rewrite malformed_add_tag.
Qed.

(** Removing a tag from a prompt in the caller's scope filters it out of
    the tags of the prompt. *)
Lemma remove_tag_tags_of (g x : string) (user : option User)
    (db : DatabaseContext) (p : prompt_row) :
  wf_store (store db) ->
  In p (prompts (store db)) -> r_guid p = g -> in_scope user p = true ->
  tags_of (store (snd (remove_tag_from_prompt g x user db))) (r_id p)
  = filter (fun y => negb (String.eqb y x)) (tags_of (store db) (r_id p)).
Proof.
  intros W Hp Hg Hs. rewrite remove_tag_runs. cbn [fst snd store].
  unfold tags_of. cbn [prompt_tags with_prompt_tags tags].
  rewrite filter_comm. apply flat_map_filter_pieces.
  intros l Hl. apply filter_In in Hl. destruct Hl as [Hl Hpid].
  apply Nat.eqb_eq in Hpid.
  destruct (link_selected true _ (store db) l) eqn:Sel; cbn [negb].
  - apply remove_tag_selected in Sel.
    destruct Sel as (p' & t & _ & _ & Ht & Htid & _ & Hx & _).
    apply filter_none. intros y Hy. apply in_map_iff in Hy.
    destruct Hy as (u & <- & Hu). apply filter_In in Hu.
    destruct Hu as [Hu Huid]. apply Nat.eqb_eq in Huid.
    assert (u = t).
    { apply (NoDup_map_inj t_id (tags (store db))); auto; [apply W|].
      congruence. }
    subst u. rewrite Hx, String.eqb_refl. reflexivity.
  - apply filter_all. intros y Hy. apply in_map_iff in Hy.
    destruct Hy as (u & <- & Hu). apply filter_In in Hu.
    destruct Hu as [Hu Huid]. apply Nat.eqb_eq in Huid.
    apply negb_true_iff. apply not_true_is_false. intro E.
    apply String.eqb_eq in E.
    assert (link_selected true
              [prompts_guid_eq g; tags_tag_eq x; author_clause user]
              (store db) l = true); [|congruence].
    apply remove_tag_selected. exists p, u. auto 10.
Qed.

(** X5. [remove_tag_from_prompt] on a prompt in the caller's scope always
    returns; afterwards the prompt has its former tags without the one
    removed, in particular the same tags when it did not carry the tag;
    the tags of every other prompt, the prompt rows and the vocabulary
    are as before. *)
Theorem remove_tag_effect (g x : string) (user : option User)
    (db : DatabaseContext) (p : prompt_row) :
  wf_store (store db) ->
  In p (prompts (store db)) -> r_guid p = g -> in_scope user p = true ->
  let r := remove_tag_from_prompt g x user db in
  fst r = Ok tt
  /\ tags_of (store (snd r)) (r_id p)
     = filter (fun y => negb (String.eqb y x)) (tags_of (store db) (r_id p))
  /\ (forall pid, pid <> r_id p ->
                  tags_of (store (snd r)) pid = tags_of (store db) pid)
  /\ prompts (store (snd r)) = prompts (store db)
  /\ tags (store (snd r)) = tags (store db).
Proof.
  intros W Hp Hg Hs. cbv zeta.
  split; [now rewrite remove_tag_runs|].
  split; [now apply remove_tag_tags_of|].
  rewrite remove_tag_runs. cbn [fst snd store].
  split; [|split; reflexivity].
  intros pid Hne. unfold tags_of. cbn [prompt_tags with_prompt_tags tags].
  rewrite filter_comm. f_equal. apply filter_all.
  intros l Hl. apply filter_In in Hl. destruct Hl as [Hl Hpid].
  apply Nat.eqb_eq in Hpid. apply negb_true_iff.
  apply not_true_is_false. intro Sel. apply remove_tag_selected in Sel.
  destruct Sel as (p' & t & Hp' & Hid' & _ & _ & Hg' & _ & _).
  assert (p' = p).
  { apply (NoDup_map_inj r_guid (prompts (store db))); auto; [apply W|].
    congruence. }
  subst p'. congruence.
Qed.

Lemma remove_tag_effect_witness :
  wf_store (store demo_db)
  /\ tags_of (store (snd (remove_tag_from_prompt "g1" "a" (Some alice) demo_db)))
             (r_id demo_row)
     = filter (fun y => negb (String.eqb y "a"))
              (tags_of (store demo_db) (r_id demo_row)).
Proof.
  split; [exact wf_demo_store|].
  exact (proj1 (proj2 (remove_tag_effect "g1" "a" (Some alice) demo_db demo_row
                         wf_demo_store (or_introl eq_refl) eq_refl eq_refl))).
Defined.

Lemma select_pairs_none (g x : string) (user : option User) (s : Store) :
  (forall p, In p (prompts s) -> r_guid p = g -> in_scope user p = false) ->
  select_pairs [prompts_guid_eq g; tags_tag_eq x; author_clause user] s = [].
Proof.
  intro H. unfold select_pairs.
  rewrite (flat_map_ext_in _ (fun _ => @nil link_row));
    [apply flat_map_nil|].
  intros p Hp.
  rewrite (flat_map_ext _ (fun _ => @nil link_row)); [apply flat_map_nil|].
  intro t. unfold eval_where. cbn [forallb].
  rewrite author_clause_in_scope. cbn [eval_cond].
  destruct (String.eqb (r_guid p) g) eqn:E; [|reflexivity].
  apply String.eqb_eq in E. rewrite (H p Hp E).
  now rewrite andb_false_r.
Qed.

(** X6. On a guid that no row in the caller's scope carries (nobody's, or
    another caller's prompt) the two tag operations are silent: both
    return normally, no link is added or removed and no prompt row
    changes. [add_tag_to_prompt] still enters the tag in the vocabulary. *)
Theorem tag_operations_out_of_scope (g x : string) (user : option User)
    (db : DatabaseContext) :
  (forall p, In p (prompts (store db)) -> r_guid p = g ->
             in_scope user p = false) ->
  (let r := remove_tag_from_prompt g x user db in
   fst r = Ok tt /\ store (snd r) = store db)
  /\ (let r := add_tag_to_prompt g x user db in
      fst r = Ok tt
      /\ prompts (store (snd r)) = prompts (store db)
      /\ prompt_tags (store (snd r)) = prompt_tags (store db)
      /\ In x (map t_tag (tags (store (snd r))))).
Proof.
  intro H. split; cbv zeta.
  - rewrite remove_tag_runs. cbn [fst snd store]. split; [reflexivity|].
    rewrite filter_all; [apply with_prompt_tags_same|].
    intros l _. apply negb_true_iff. apply not_true_is_false. intro Sel.
    apply remove_tag_selected in Sel.
    destruct Sel as (p & t & Hp & _ & _ & _ & Hg & _ & Hs).
    rewrite (H p Hp Hg) in Hs. discriminate.
  - unfold add_tag_to_prompt.
    set (s1 := if existsb (fun t => String.eqb (t_tag t) x) (tags (store db))
               then store db
               else with_tags (store db)
                      (tags (store db) ++ [mkTagRow (next_tag_id (store db)) x])
                      (S (next_tag_id (store db)))).
    assert (E1 : execute (INSERT_tags_on_duplicate_update x) (store db)
                 = inr (s1, [])).
    { cbn [execute]. unfold s1. now destruct (existsb _ _). }
    assert (P1 : prompts s1 = prompts (store db))
      by (unfold s1; now destruct (existsb _ _)).
    assert (L1 : prompt_tags s1 = prompt_tags (store db))
      by (unfold s1; now destruct (existsb _ _)).
    assert (V1 : In x (map t_tag (tags s1))).
    { unfold s1. destruct (existsb _ _) eqn:Ex.
      - apply existsb_exists in Ex. destruct Ex as (t & Ht & Et).
        apply String.eqb_eq in Et. apply in_map_iff. now exists t.
      - simpl. rewrite map_app. apply in_or_app. right. now left. }
    rewrite (bind_ok _ _ _ _ _ (cursor_execute_ok _ db _ _ E1)).
    erewrite cursor_execute_ok.
    2:{ cbn [execute store]. rewrite malformed_add_tag.
        rewrite select_pairs_none by (rewrite P1; exact H).
        reflexivity. }
    cbn [fst snd store]. rewrite app_nil_r.
    split; [reflexivity|]. split; [exact P1|]. split; [exact L1|exact V1].
Qed.

Lemma tag_operations_out_of_scope_witness :
  (forall p, In p (prompts (store demo_db)) -> r_guid p = "g1" ->
             in_scope (Some bob) p = false)
  /\ fst (add_tag_to_prompt "g1" "x" (Some bob) demo_db) = Ok tt
  /\ prompt_tags (store (snd (add_tag_to_prompt "g1" "x" (Some bob) demo_db)))
     = prompt_tags (store demo_db).
Proof.
  assert (H : forall p, In p (prompts (store demo_db)) -> r_guid p = "g1" ->
                        in_scope (Some bob) p = false).
  { simpl. intros p [<-|[]] _. reflexivity. }
  split; [exact H|].
  destruct (proj2 (tag_operations_out_of_scope "g1" "x" (Some bob) demo_db H))
    as (A & _ & B & _).
  split; [exact A|exact B].
Defined.

(** X7. Adding a tag the prompt does not carry and removing it again gives
    the prompt its former tags back; the tag stays in the vocabulary. *)
Theorem add_then_remove_tag (g x : string) (user : option User)
    (db : DatabaseContext) (p : prompt_row) :
  wf_store (store db) ->
  In p (prompts (store db)) -> r_guid p = g -> in_scope user p = true ->
  ~ In x (tags_of (store db) (r_id p)) ->
  let r := (add_tag_to_prompt g x user ;; remove_tag_from_prompt g x user) db in
  fst r = Ok tt
  /\ tags_of (store (snd r)) (r_id p) = tags_of (store db) (r_id p)
  /\ In x (map t_tag (tags (store (snd r)))).
Proof.
  intros W Hp Hg Hs Hx. cbv zeta.
  destruct (add_tag_fresh g x user db p W Hp Hg Hs Hx)
    as (db1 & E1 & W1 & P1 & T1).
  rewrite (bind_ok _ _ _ _ _ E1).
  assert (Hp1 : In p (prompts (store db1))) by now rewrite P1.
  pose proof (remove_tag_tags_of g x user db1 p W1 Hp1 Hg Hs) as R2.
  rewrite remove_tag_runs in R2 |- *. cbn [fst snd store] in R2 |- *.
  split; [reflexivity|]. split.
  - rewrite R2, T1, filter_app. simpl. rewrite String.eqb_refl. simpl.
    rewrite app_nil_r. apply filter_all. intros y Hy.
    apply negb_true_iff. apply String.eqb_neq. intros ->. contradiction.
  - cbn [tags with_prompt_tags].
    assert (Hin : In x (tags_of (store db1) (r_id p))).
    { rewrite T1. apply in_or_app. right. now left. }
    apply tags_of_In in Hin. destruct Hin as (l & t & _ & _ & Ht & _ & Et).
    apply in_map_iff. now exists t.
Qed.

Lemma add_then_remove_tag_witness :
  wf_store (store demo_db)
  /\ ~ In "x" (tags_of (store demo_db) (r_id demo_row))
  /\ tags_of (store (snd ((add_tag_to_prompt "g1" "x" (Some alice) ;;
                           remove_tag_from_prompt "g1" "x" (Some alice))
                            demo_db))) (r_id demo_row)
     = tags_of (store demo_db) (r_id demo_row).
Proof.
  assert (H : ~ In "x" (tags_of (store demo_db) (r_id demo_row))).
  { simpl. intros [E|[E|[]]]; discriminate. }
  split; [exact wf_demo_store|]. split; [exact H|].
  exact (proj1 (proj2 (add_then_remove_tag "g1" "x" (Some alice) demo_db
                         demo_row wf_demo_store (or_introl eq_refl)
                         eq_refl eq_refl H))).
Defined.

(* ================================================================= *)
(** ** Further properties of updates *)

(** The tag replacement on a prompt in the caller's scope, for distinct
    tags: the prompt ends with exactly the given tags. *)
Lemma update_tags_replaces (g : string) (ts : list string)
    (user : option User) (db : DatabaseContext) (p : prompt_row) :
  wf_store (store db) ->
  In p (prompts (store db)) -> r_guid p = g -> in_scope user p = true ->
  NoDup ts ->
  exists db1,
    _update_tags g (Some ts) user db = (Ok tt, db1)
    /\ wf_store (store db1)
    /\ prompts (store db1) = prompts (store db)
    /\ tags_of (store db1) (r_id p) = ts.
Proof.
  intros W Hp Hg Hs Hn. unfold _update_tags.
  destruct (check_prompt_ownership_passes g user db p
              (find_by_guid g (store db) p W Hp Hg) Hs) as (db1 & Ec & Sc).
  rewrite (bind_ok _ _ _ _ _ Ec).
  assert (W1 : wf_store (store db1)) by now rewrite Sc.
  assert (Hp1 : In p (prompts (store db1))) by now rewrite Sc.
  destruct (remove_all_tags_clears g user db1 p Hp1 Hg Hs)
    as (db2 & Er & Pr & Tr).
  assert (W2 : wf_store (store db2)).
  { pose proof (wf_cursor_execute
                  (DELETE_prompt_tags false
                     [prompts_guid_eq g; author_clause user]) I db1 W1) as H.
    unfold remove_all_tags_from_prompt in Er. now rewrite Er in H. }
  rewrite (bind_ok _ _ _ _ _ Er).
  destruct (for_each_add_tags g user p ts db2) as (db3 & Ef & Wf & Pf & Tf);
    auto.
  - now rewrite Pr.
  - intros t _. rewrite Tr. auto.
  - exists db3. split; [exact Ef|]. split; [exact Wf|].
    split; [congruence|]. now rewrite Tf, Tr.
Qed.

Lemma map_assign_wf (g : string) (sets : list (column * string)) (s : Store) :
  wf_store s ->
  wf_store (with_prompts s
              (map (fun q => if eval_where [prompts_guid_eq g] q None
                             then fold_left assign sets q else q) (prompts s))
              (next_prompt_id s)).
Proof.
  intro W.
  apply (execute_wf (UPDATE_prompts sets [prompts_guid_eq g]) s _ [] W).
  - intros g0 c d a H. discriminate.
  - reflexivity.
Qed.

(** X9. An update that carries a list of distinct tags, by a caller in whose
    scope the prompt is: it returns, and the prompt then has exactly
    those tags, whatever tags it had before. *)
Theorem update_replaces_tags (g : string) (prompt : PromptUpdate)
    (ts : list string) (user : option User) (db : DatabaseContext)
    (p : prompt_row) :
  wf_store (store db) ->
  In p (prompts (store db)) -> r_guid p = g -> in_scope user p = true ->
  pu_tags prompt = Some ts ->
  NoDup ts ->
  exists db1,
    update_prompt g prompt user db = (Ok tt, db1)
    /\ tags_of (store db1) (r_id p) = ts
    /\ wf_store (store db1).
Proof.
  intros W Hp Hg Hs Ht Hn. unfold update_prompt. rewrite Ht.
  destruct (build_sets prompt) as [sets setting]. rewrite andb_false_r.
  destruct setting.
  - set (q := UPDATE_prompts sets [prompts_guid_eq g]).
    set (f := fun r => if eval_where [prompts_guid_eq g] r None
                       then fold_left assign sets r else r).
    assert (E : execute q (store db)
                = inr (with_prompts (store db) (map f (prompts (store db)))
                                    (next_prompt_id (store db)), []))
      by reflexivity.
    rewrite (bind_ok _ _ _ _ _ (cursor_execute_ok q db _ _ E)).
    assert (Hf : r_id (f p) = r_id p /\ r_guid (f p) = r_guid p
                 /\ r_author (f p) = r_author p).
    { unfold f. destruct (eval_where _ p None); [|auto]. apply assign_keeps. }
    destruct Hf as (F1 & F2 & F3).
    match goal with
    | |- context [_update_tags g (Some ts) user ?d] =>
        destruct (update_tags_replaces g ts user d (f p))
          as (db1 & E1 & W1 & _ & T1)
    end; cbn [store]; auto.
    + now apply map_assign_wf.
    + simpl. now apply in_map.
    + congruence.
    + unfold in_scope in *. now rewrite F3.
    + exists db1. rewrite <- F1. auto.
  - rewrite (bind_ok _ _ db db tt eq_refl).
    destruct (update_tags_replaces g ts user db p W Hp Hg Hs Hn)
      as (db1 & E1 & W1 & _ & T1).
    exists db1. auto.
Qed.

Lemma update_replaces_tags_witness :
  wf_store (store demo_db)
  /\ NoDup ["a"; "b"]
  /\ exists db1,
       update_prompt "g1" (PromptUpdate_init
                             (mkUpdateInput None None (Some (Some ["a"; "b"]))))
                     (Some alice) demo_db = (Ok tt, db1)
       /\ tags_of (store db1) (r_id demo_row) = ["a"; "b"].
Proof.
  assert (H : NoDup ["a"; "b"]).
  { repeat constructor; simpl; intuition discriminate. }
  split; [exact wf_demo_store|]. split; [exact H|].
  destruct (update_replaces_tags "g1"
              (PromptUpdate_init (mkUpdateInput None None (Some (Some ["a"; "b"]))))
              ["a"; "b"] (Some alice) demo_db demo_row wf_demo_store
              (or_introl eq_refl) eq_refl eq_refl eq_refl H)
    as (db1 & A & B & _).
  exists db1. auto.
Defined.

(** The tag loop fails on the first tag the prompt already carries, be it
    from before or from an earlier round of the loop. *)
Lemma for_each_add_tags_fails (g : string) (user : option User)
    (p : prompt_row) (ts : list string) :
  forall db,
    wf_store (store db) ->
    In p (prompts (store db)) -> r_guid p = g -> in_scope user p = true ->
    ~ (NoDup ts /\ forall t, In t ts -> ~ In t (tags_of (store db) (r_id p))) ->
    exists db1,
      for_each ts (fun tag => add_tag_to_prompt g tag user) db
      = (Raise IntegrityError, db1).
Proof.
  induction ts as [|x ts IH]; intros db W Hp Hg Hs Hbad.
  - exfalso. apply Hbad. split; [constructor|intros t []].
  - simpl.
    destruct (in_dec string_dec x (tags_of (store db) (r_id p))) as [Hin|Hnin].
    + destruct (add_tag_present g x user db p W Hp Hg Hs Hin) as (db1 & E & _).
      rewrite (bind_raise _ _ _ _ _ E). now exists db1.
    + destruct (add_tag_fresh g x user db p W Hp Hg Hs Hnin)
        as (db1 & E & W1 & P1 & T1).
      rewrite (bind_ok _ _ _ _ _ E). apply IH; auto.
      * now rewrite P1.
      * intros [Hn Hd]. apply Hbad. split.
        -- constructor; [|exact Hn]. intro Hx. apply (Hd x Hx).
           rewrite T1. apply in_or_app. right. now left.
        -- intros t [<-|Ht]; [exact Hnin|].
           intro Hc. apply (Hd t Ht). rewrite T1. apply in_or_app. now left.
Qed.

Lemma update_tags_duplicate (g : string) (ts : list string)
    (user : option User) (db : DatabaseContext) (p : prompt_row) :
  wf_store (store db) ->
  In p (prompts (store db)) -> r_guid p = g -> in_scope user p = true ->
  ~ NoDup ts ->
  fst (_update_tags g (Some ts) user db) = Raise IntegrityError.
Proof.
  intros W Hp Hg Hs Hn. unfold _update_tags.
  destruct (check_prompt_ownership_passes g user db p
              (find_by_guid g (store db) p W Hp Hg) Hs) as (db1 & Ec & Sc).
  rewrite (bind_ok _ _ _ _ _ Ec).
  assert (W1 : wf_store (store db1)) by now rewrite Sc.
  assert (Hp1 : In p (prompts (store db1))) by now rewrite Sc.
  destruct (remove_all_tags_clears g user db1 p Hp1 Hg Hs)
    as (db2 & Er & Pr & Tr).
  assert (W2 : wf_store (store db2)).
  { pose proof (wf_cursor_execute
                  (DELETE_prompt_tags false
                     [prompts_guid_eq g; author_clause user]) I db1 W1) as H.
    unfold remove_all_tags_from_prompt in Er. now rewrite Er in H. }
  rewrite (bind_ok _ _ _ _ _ Er).
  destruct (for_each_add_tags_fails g user p ts db2) as (db3 & Ef); auto.
  - now rewrite Pr.
  - intros [Hn' _]. contradiction.
  - now rewrite Ef.
Qed.

(** X10. A tag list with a repeated tag cannot be stored. [create_prompt] with
    such a list raises the driver's [IntegrityError] in the repository,
    and through the façade the generic [PromptException], with no prompt
    created; [update_prompt] with such a list fails the same way and
    through the façade leaves the prompt as it was. *)
Theorem repeated_tag_rejected (g : string) (ts : list string)
    (user : option User) (db : DatabaseContext) :
  wf_store (store db) ->
  ~ NoDup ts ->
  (forall prompt,
     (forall q, In q (prompts (store db)) -> r_guid q <> g) ->
     pc_tags prompt = Some ts ->
     fst (create_prompt g prompt user db) = Raise IntegrityError
     /\ (let r := PromptService.create_prompt g prompt user db in
         fst r = Raise (PromptException unexpected_msg (Some IntegrityError))
         /\ store (snd r) = store db))
  /\ (forall prompt p,
        In p (prompts (store db)) -> r_guid p = g -> in_scope user p = true ->
        pu_tags prompt = Some ts ->
        fst (update_prompt g prompt user db) = Raise IntegrityError
        /\ (let r := PromptService.update_prompt g prompt user db in
            fst r = Raise (PromptException unexpected_msg (Some IntegrityError))
            /\ store (snd r) = store db)).
Proof.
  intros W Hn. split.
  - intros prompt Hfresh Ht.
    assert (Hc : forall db', store db' = store db ->
              fst (create_prompt g prompt user db') = Raise IntegrityError).
    { intros db' Sd. unfold create_prompt.
      rewrite (bind_ok _ _ _ _ _
                 (cursor_execute_ok (INSERT_prompts _ _ _ _) db' _ [] eq_refl)).
      rewrite Ht, Sd.
      set (row := mkPromptRow (next_prompt_id (store db)) g (pc_content prompt)
                    (pc_display_name prompt) (username_or_None user)
                    (clock (store db)) (clock (store db))).
      destruct (insert_prompt_wf (store db) g (pc_content prompt)
                  (pc_display_name prompt) (username_or_None user) W Hfresh)
        as (W0 & _ & _).
      unfold bind.
      match goal with
      | |- context [_update_tags g (Some ts) user ?d] =>
          assert (Hu : fst (_update_tags g (Some ts) user d)
                       = Raise IntegrityError)
      end.
      { apply (update_tags_duplicate g ts user _ row); cbn [store]; auto.
        - simpl. apply in_or_app. right. now left.
        - apply opt_str_eqb_true. reflexivity. }
      destruct (_update_tags g (Some ts) user _) as [[u|e] db1]; simpl in *;
        [discriminate|]. now inversion Hu. }
    split; [now apply Hc|].
    destruct (in_transaction_raise (create_prompt g prompt user) db
                IntegrityError) as (H1 & H2 & _).
    + apply keeps_create_prompt.
    + now apply Hc.
    + split; assumption.
  - intros prompt p Hp Hg Hs Ht.
    assert (Hu : forall prompt0 db',
              pu_tags prompt0 = Some ts -> store db' = store db ->
              fst (update_prompt g prompt0 user db') = Raise IntegrityError).
    { intros prompt0 db' Ht0 Sd. unfold update_prompt. rewrite Ht0.
      destruct (build_sets prompt0) as [sets setting]. rewrite andb_false_r.
      destruct setting.
      - set (f := fun r => if eval_where [prompts_guid_eq g] r None
                           then fold_left assign sets r else r).
        rewrite (bind_ok _ _ _ _ _
                   (cursor_execute_ok (UPDATE_prompts sets [prompts_guid_eq g])
                      db' _ [] eq_refl)).
        assert (Hf : r_id (f p) = r_id p /\ r_guid (f p) = r_guid p
                     /\ r_author (f p) = r_author p).
        { unfold f. destruct (eval_where _ p None); [|auto].
          apply assign_keeps. }
        destruct Hf as (F1 & F2 & F3).
        apply (update_tags_duplicate g ts user _ (f p)); cbn [store]; auto.
        + rewrite Sd. now apply map_assign_wf.
        + simpl. rewrite Sd. now apply in_map.
        + congruence.
        + unfold in_scope in *. now rewrite F3.
      - rewrite (bind_ok _ _ db' db' tt eq_refl).
        apply (update_tags_duplicate g ts user db' p); auto;
          now rewrite Sd. }
    split; [now apply Hu|].
    unfold PromptService.update_prompt.
    destruct (in_transaction_raise
                (update_prompt g (PromptUpdate_init (PromptUpdate_dict prompt))
                               user) db IntegrityError) as (H1 & H2 & _).
    + apply keeps_update_prompt.
    + now apply Hu.
    + split; assumption.
Qed.

Lemma repeated_tag_rejected_witness :
  wf_store (store (fresh_context empty_store))
  /\ ~ NoDup ["a"; "a"]
  /\ fst (create_prompt "g1" (mkPromptCreate "hello" "name" None
                                             (Some ["a"; "a"]))
                        (Some alice) (fresh_context empty_store))
     = Raise IntegrityError.
Proof.
  assert (H : ~ NoDup ["a"; "a"]).
  { intro N. inversion N as [|? ? Hx _]. apply Hx. now left. }
  split; [exact wf_empty_store|]. split; [exact H|].
  exact (proj1 (proj1 (repeated_tag_rejected "g1" ["a"; "a"] (Some alice)
                         (fresh_context empty_store) wf_empty_store H)
                 (mkPromptCreate "hello" "name" None (Some ["a"; "a"]))
                 (fun q (F : In q []) => match F with end) eq_refl)).
Defined.

Lemma update_statement_runs (g : string) (sets : list (column * string))
    (db : DatabaseContext) :
  cursor_execute (UPDATE_prompts sets [prompts_guid_eq g]) db
  = (Ok tt,
     mkCtx (with_prompts (store db)
              (map (fun p => if has_guid g p then fold_left assign sets p else p)
                   (prompts (store db)))
              (next_prompt_id (store db)))
           [] (snapshot db)
           (log db ++ [ev_execute (UPDATE_prompts sets [prompts_guid_eq g])])).
Proof.
  erewrite cursor_execute_ok; [reflexivity|].
  cbn [execute]. change (malformed [prompts_guid_eq g]) with false.
  cbv iota. do 3 f_equal. apply map_ext. intro p.
  now rewrite eval_where_single.
Qed.



Lemma build_sets_false_nil (prompt : PromptUpdate) :
  snd (build_sets prompt) = false -> fst (build_sets prompt) = [].
Proof.
  unfold build_sets.
  assert (H : forall fs acc,
            (snd acc = false -> fst acc = []) ->
            snd (fold_left (set_field prompt) fs acc) = false ->
            fst (fold_left (set_field prompt) fs acc) = []).
  { induction fs as [|f fs IH]; intros acc Hacc; simpl; [exact Hacc|].
    apply IH. unfold set_field.
    destruct (column_of f) as [c|]; [|exact Hacc].
    destruct (getattr prompt c); [intro H; discriminate|exact Hacc]. }
  apply H. reflexivity.
Qed.

Lemma find_map_guid (g : string) (f : prompt_row -> prompt_row)
    (l : list prompt_row) :
  (forall p, r_guid (f p) = r_guid p) ->
  find (has_guid g) (map f l) = option_map f (find (has_guid g) l).
Proof.
  intro H. induction l as [|a l IH]; simpl; [reflexivity|].
  unfold has_guid at 1 3. rewrite H.
  destruct (String.eqb (r_guid a) g); [reflexivity|exact IH].
Qed.

(** X12. An update that carries tags, by a caller out of whose scope the
    prompt is, raises [UnauthorizedError] only after the column update
    has been executed: in the repository the scalar values are already
    in every row with the guid when the error is raised. It is the
    rollback of the façade that leaves the store as it was. *)
Theorem unauthorized_update_after_column_update (g : string)
    (prompt : PromptUpdate) (ts : list string) (user : option User)
    (db : DatabaseContext) (p : prompt_row) :
  find (has_guid g) (prompts (store db)) = Some p ->
  in_scope user p = false ->
  pu_tags prompt = Some ts ->
  (let r := update_prompt g prompt user db in
   fst r = Raise (UnauthorizedError unauthorized_msg)
   /\ prompts (store (snd r))
      = map (fun q => if has_guid g q
                      then fold_left assign (fst (build_sets prompt)) q else q)
            (prompts (store db)))
  /\ (let r := PromptService.update_prompt g prompt user db in
      fst r = Raise (UnauthorizedError unauthorized_msg)
      /\ store (snd r) = store db).
Proof.
  intros Hf Hs Ht.
  assert (Hc : forall db' q,
            find (has_guid g) (prompts (store db')) = Some q ->
            in_scope user q = false ->
            fst (_update_tags g (Some ts) user db')
            = Raise (UnauthorizedError unauthorized_msg)
            /\ store (snd (_update_tags g (Some ts) user db')) = store db').
  { intros db' q Hq Hsq. apply update_tags_check_fails.
    destruct (check_prompt_ownership_spec g user db') as (_ & _ & _ & Hr).
    simpl in Hr. rewrite Hr, Hq, Hsq. reflexivity. }
  assert (Hu : forall prompt0 db',
            pu_tags prompt0 = Some ts -> store db' = store db ->
            fst (update_prompt g prompt0 user db')
            = Raise (UnauthorizedError unauthorized_msg)
            /\ prompts (store (snd (update_prompt g prompt0 user db')))
               = map (fun q => if has_guid g q
                               then fold_left assign (fst (build_sets prompt0)) q
                               else q)
                     (prompts (store db))).
  { intros prompt0 db' Ht0 Sd. unfold update_prompt. rewrite Ht0.
    pose proof (build_sets_false_nil prompt0) as Hnil.
    destruct (build_sets prompt0) as [sets setting]. rewrite andb_false_r.
    cbn [fst snd] in *. destruct setting.
    - rewrite (bind_ok _ _ _ _ _ (update_statement_runs g sets db')).
      set (f := fun q => if has_guid g q then fold_left assign sets q else q).
      destruct (Hc (mkCtx (with_prompts (store db')
                             (map f (prompts (store db')))
                             (next_prompt_id (store db')))
                          [] (snapshot db')
                          (log db' ++ [ev_execute
                             (UPDATE_prompts sets [prompts_guid_eq g])]))
                   (f p)) as [H1 H2].
      + cbn [store prompts with_prompts]. rewrite find_map_guid, Sd, Hf.
        * reflexivity.
        * intro q. unfold f. destruct (has_guid g q); [|reflexivity].
          apply assign_keeps.
      + unfold in_scope in *. unfold f.
        destruct (has_guid g p); [|exact Hs].
        now rewrite (proj2 (proj2 (assign_keeps sets p))).
      + split; [exact H1|]. rewrite H2. cbn [store prompts with_prompts].
        now rewrite Sd.
    - rewrite (bind_ok _ _ db' db' tt eq_refl).
      destruct (Hc db' p) as [H1 H2]; [now rewrite Sd|exact Hs|].
      split; [exact H1|]. rewrite H2, Sd, (Hnil eq_refl).
      symmetry. rewrite <- (map_id (prompts (store db))) at 2.
      apply map_ext. intro q. now destruct (has_guid g q). }
  split.
  - now apply Hu.
  - unfold PromptService.update_prompt.
    destruct (in_transaction_raise
                (update_prompt g (PromptUpdate_init (PromptUpdate_dict prompt))
                               user) db (UnauthorizedError unauthorized_msg))
      as (H1 & H2 & _).
    + apply keeps_update_prompt.
    + now apply Hu.
    + split; assumption.
Qed.

Lemma unauthorized_update_after_column_update_witness :
  find (has_guid "g1") (prompts (store demo_db)) = Some demo_row
  /\ in_scope (Some bob) demo_row = false
  /\ prompts (store (snd (update_prompt "g1"
                            (PromptUpdate_init
                               (mkUpdateInput None (Some (Some "new"))
                                              (Some (Some ["z"]))))
                            (Some bob) demo_db)))
     = [mkPromptRow 1 "g1" "hello" "new" (Some "alice") 0 0].
Proof.
  split; [reflexivity|]. split; [reflexivity|].
  exact (proj2 (proj1 (unauthorized_update_after_column_update "g1"
                         (PromptUpdate_init
                            (mkUpdateInput None (Some (Some "new"))
                                           (Some (Some ["z"]))))
                         ["z"] (Some bob) demo_db demo_row
                         eq_refl eq_refl eq_refl))).
Defined.

(* ================================================================= *)
(** ** Further properties of creation and deletion *)

(** X13. [create_prompt] on an input whose [tags] is null: the row is inserted
    and the ownership check passes, then the loop over [None] is a
    [TypeError]. The repository leaves the new row behind; through the
    façade the caller gets the generic [PromptException] and no prompt
    has been created. *)
Theorem create_with_null_tags (g : string) (prompt : PromptCreate)
    (author : option User) (db : DatabaseContext) :
  (forall q, In q (prompts (store db)) -> r_guid q <> g) ->
  pc_tags prompt = None ->
  (let r := create_prompt g prompt author db in
   fst r = Raise TypeError
   /\ prompts (store (snd r))
      = prompts (store db)
        ++ [mkPromptRow (next_prompt_id (store db)) g (pc_content prompt)
              (pc_display_name prompt) (username_or_None author)
              (clock (store db)) (clock (store db))])
  /\ (let r := PromptService.create_prompt g prompt author db in
      fst r = Raise (PromptException unexpected_msg (Some TypeError))
      /\ store (snd r) = store db).
Proof.
  intros Hg Ht.
  set (row := mkPromptRow (next_prompt_id (store db)) g (pc_content prompt)
                (pc_display_name prompt) (username_or_None author)
                (clock (store db)) (clock (store db))).
  assert (H : forall db', store db' = store db ->
            exists db2,
              create_prompt g prompt author db' = (Raise TypeError, db2)
              /\ prompts (store db2) = prompts (store db) ++ [row]).
  { intros db' Sd. unfold create_prompt.
    rewrite (bind_ok _ _ _ _ _
               (cursor_execute_ok (INSERT_prompts _ _ _ _) db' _ [] eq_refl)).
    rewrite Ht, Sd. fold row.
    match goal with
    | |- context [bind _ _ ?d] =>
        destruct (check_prompt_ownership_passes g author d row)
          as (db1 & Ec & Sc)
    end.
    - simpl. apply find_snoc_fresh.
      + intros q Hq. apply String.eqb_neq. now apply Hg.
      + apply String.eqb_refl.
    - apply opt_str_eqb_true. reflexivity.
    - cbn [store] in Sc.
      eexists. split.
      + apply bind_raise. unfold _update_tags.
        rewrite (bind_ok _ _ _ _ _ Ec).
        unfold remove_all_tags_from_prompt.
        erewrite (bind_ok (cursor_execute _)).
        * reflexivity.
        * apply cursor_execute_ok. cbn [execute].
          rewrite (malformed_scoped (prompts_guid_eq g) author) by discriminate.
          reflexivity.
      + simpl. now rewrite Sc. }
  split.
  - destruct (H db eq_refl) as (db2 & E & P). cbv zeta. now rewrite E.
  - destruct (H (snd (begin_transaction db)) eq_refl) as (db2 & E & _).
    destruct (in_transaction_raise (create_prompt g prompt author) db TypeError)
      as (H1 & H2 & _).
    + apply keeps_create_prompt.
    + now rewrite E.
    + split; assumption.
Qed.

Lemma create_with_null_tags_witness :
  (forall q, In q (prompts (store demo_db)) -> r_guid q <> "g2")
  /\ fst (PromptService.create_prompt "g2"
            (mkPromptCreate "hello" "name" None None) (Some alice) demo_db)
     = Raise (PromptException unexpected_msg (Some TypeError)).
Proof.
  assert (H : forall q, In q (prompts (store demo_db)) -> r_guid q <> "g2").
  { simpl. intros q [<-|[]]. discriminate. }
  split; [exact H|].
  exact (proj1 (proj2 (create_with_null_tags "g2"
                         (mkPromptCreate "hello" "name" None None)
                         (Some alice) demo_db H eq_refl))).
Defined.

(** X14. A created prompt belongs to the scope it was created in and to no
    other: a caller of another scope (another user, or the public scope
    against a user) gets [RecordNotFoundError] for its guid and lists
    exactly the rows listed before the creation, while the creating scope
    lists its former rows followed by the new one. *)
Theorem created_prompt_private_to_scope (g : string) (prompt : PromptCreate)
    (author : option User) (db : DatabaseContext) (ts : list string) :
  wf_store (store db) ->
  (forall q, In q (prompts (store db)) -> r_guid q <> g) ->
  pc_tags prompt = Some ts ->
  NoDup ts ->
  exists db1 row,
    create_prompt g prompt author db = (Ok g, db1)
    /\ r_guid row = g /\ r_author row = username_or_None author
    /\ (forall user',
          username_or_None user' <> username_or_None author ->
          fst (get_prompt g user' db1)
          = Raise (RecordNotFoundError "Prompt not found")
          /\ exists ps,
               fst (list_prompts user' db1) = Ok ps
               /\ Forall2 represents ps
                    (filter (in_scope user') (prompts (store db))))
    /\ exists ps,
         fst (list_prompts author db1) = Ok ps
         /\ Forall2 represents ps
              (filter (in_scope author) (prompts (store db)) ++ [row]).
Proof.
  intros W Hg Ht Hn.
  destruct (create_prompt_spec g prompt author db ts W Hg Ht Hn)
    as (db1 & Ecr & W1 & P1 & T1).
  set (row := mkPromptRow (next_prompt_id (store db)) g (pc_content prompt)
                (pc_display_name prompt) (username_or_None author)
                (clock (store db)) (clock (store db))) in *.
  exists db1, row. split; [exact Ecr|]. split; [reflexivity|].
  split; [reflexivity|]. split.
  - intros user' Hne.
    assert (Hout : in_scope user' row = false).
    { apply opt_str_eqb_false. simpl. congruence. }
    split.
    + destruct (get_prompt_spec g user' db1) as [_ Hr]. rewrite Hr, P1.
      rewrite (proj2 (find_none_iff _ _)); [reflexivity|].
      intros q Hq. apply in_app_or in Hq. destruct Hq as [Hq|[<-|[]]].
      * unfold has_guid.
        now rewrite (proj2 (String.eqb_neq _ _) (Hg q Hq)).
      * rewrite Hout. apply andb_false_r.
    + destruct (list_prompts_spec user' db1) as (ps & E & F).
      exists ps. rewrite E. split; [reflexivity|].
      rewrite P1, filter_app in F. simpl in F. rewrite Hout in F.
      now rewrite app_nil_r in F.
  - destruct (list_prompts_spec author db1) as (ps & E & F).
    exists ps. rewrite E. split; [reflexivity|].
    rewrite P1, filter_app in F. simpl in F.
    assert (Hin : in_scope author row = true)
      by (apply opt_str_eqb_true; reflexivity).
    now rewrite Hin in F.
Qed.

Lemma created_prompt_private_to_scope_witness :
  wf_store (store demo_db)
  /\ NoDup ["t"]
  /\ exists db1 row,
       create_prompt "g2" (mkPromptCreate "c" "n" None (Some ["t"])) None demo_db
       = (Ok "g2", db1)
       /\ r_guid row = "g2" /\ r_author row = None.
Proof.
  assert (H : NoDup ["t"]) by (repeat constructor; simpl; tauto).
  split; [exact wf_demo_store|]. split; [exact H|].
  destruct (created_prompt_private_to_scope "g2"
              (mkPromptCreate "c" "n" None (Some ["t"])) None demo_db ["t"]
              wf_demo_store) as (db1 & row & A & B & C & _); auto.
  - simpl. intros q [<-|[]]. discriminate.
  - exists db1, row. auto.
Defined.

Lemma find_filter_implied {A} (f k : A -> bool) (l : list A) :
  (forall x, f x = true -> k x = true) ->
  find f (filter k l) = find f l.
Proof.
  intro H. induction l as [|a l IH]; simpl; [reflexivity|].
  destruct (k a) eqn:K; simpl.
  - destruct (f a); [reflexivity|exact IH].
  - destruct (f a) eqn:F; [|exact IH].
    rewrite (H a F) in K. discriminate.
Qed.

(** X15. After a successful [delete_prompt] the guid is gone for every
    caller, [get_prompt] raising [RecordNotFoundError], and
    [get_prompt] of any other guid answers as it did before, tags
    included. *)
Theorem delete_then_get (g : string) (user : option User)
    (db : DatabaseContext) (p : prompt_row) :
  wf_store (store db) ->
  In p (prompts (store db)) -> r_guid p = g -> in_scope user p = true ->
  let db1 := snd (delete_prompt g user db) in
  fst (delete_prompt g user db) = Ok tt
  /\ (forall user',
        fst (get_prompt g user' db1)
        = Raise (RecordNotFoundError "Prompt not found"))
  /\ (forall g' user', g' <> g ->
        fst (get_prompt g' user' db1) = fst (get_prompt g' user' db)).
Proof.
  intros W Hp Hg Hs. cbv zeta.
  destruct (delete_prompt_spec g user db p
              (find_by_guid g (store db) p W Hp Hg) Hs) as [E S].
  split; [exact E|]. split.
  - intro user'.
    destruct (get_prompt_spec g user' (snd (delete_prompt g user db)))
      as [_ Hr].
    rewrite Hr, S. cbn [prompts with_prompts].
    rewrite (proj2 (find_none_iff _ _)); [reflexivity|].
    intros q Hq. apply filter_In in Hq. destruct Hq as [_ Hq].
    apply negb_true_iff in Hq. now rewrite Hq.
  - intros g' user' Hne.
    destruct (get_prompt_spec g' user' (snd (delete_prompt g user db)))
      as [_ Hr].
    destruct (get_prompt_spec g' user' db) as [_ Hr0].
    rewrite Hr, Hr0, S. cbn [prompts with_prompts].
    rewrite find_filter_implied.
    + reflexivity.
    + intros q Hq. apply andb_true_iff in Hq. destruct Hq as [Hq _].
      apply String.eqb_eq in Hq. apply negb_true_iff. apply String.eqb_neq.
      congruence.
Qed.

Lemma delete_then_get_witness :
  wf_store (store demo_db)
  /\ In demo_row (prompts (store demo_db))
  /\ in_scope (Some alice) demo_row = true
  /\ fst (get_prompt "g1" (Some alice)
            (snd (delete_prompt "g1" (Some alice) demo_db)))
     = Raise (RecordNotFoundError "Prompt not found").
Proof.
  split; [exact wf_demo_store|]. split; [now left|]. split; [reflexivity|].
  exact (proj1 (proj2 (delete_then_get "g1" (Some alice) demo_db demo_row
                         wf_demo_store (or_introl eq_refl) eq_refl eq_refl))
           (Some alice)).
Defined.

(* ================================================================= *)
(** ** Further properties of the listings *)

Lemma Forall2_map_left {A B} (R : B -> A -> Prop) (f : A -> B) (l : list A) :
  (forall a, In a l -> R (f a) a) -> Forall2 R (map f l) l.
Proof.
  induction l as [|a l IH]; simpl; intro H; constructor.
  - apply H. now left.
  - apply IH. intros x Hx. apply H. now right.
Qed.

(** The tags the grouped SELECT of [list_prompts_by_tags] aggregates for
    a prompt in scope: those of its tags that are asked for. *)
Lemma matching_tags (ts : list string) (user : option User) (p : prompt_row)
    (l : list (option tag_row)) :
  in_scope user p = true ->
  flat_map (fun o => match o with Some t => [t_tag t] | None => [] end)
           (filter (eval_where [tags_tag_in ts; author_clause user] p) l)
  = filter (fun x => existsb (String.eqb x) ts)
           (flat_map (fun o => match o with Some t => [t_tag t] | None => [] end)
                     l).
Proof.
  intro Hs. induction l as [|[t|] l IH]; cbn [filter flat_map].
  - reflexivity.
  - assert (E : eval_where [tags_tag_in ts; author_clause user] p (Some t)
                = existsb (String.eqb (t_tag t)) ts).
    { unfold eval_where. cbn [forallb].
      rewrite author_clause_in_scope, Hs. cbn [eval_cond].
      now rewrite !andb_true_r. }
    rewrite E. cbn [app filter].
    destruct (existsb (String.eqb (t_tag t)) ts); cbn [flat_map app];
      now rewrite IH.
  - assert (E : eval_where [tags_tag_in ts; author_clause user] p None = false)
      by reflexivity.
    rewrite E. exact IH.
Qed.

(** X16. [list_prompts_by_tags] returns each matching prompt with the matching
    tags only: for tags to look for that are non-empty and free of commas,
    the [tags] of a returned prompt are those tags of the row that are
    among the ones asked for, not all the tags of the row. *)
Theorem list_by_tags_reports_matching_tags (ts : list string)
    (user : option User) (db : DatabaseContext) :
  ts <> [] ->
  Forall (fun t => Py.contains comma t = false /\ t <> "") ts ->
  exists ps,
    fst (list_prompts_by_tags ts user db) = Ok ps
    /\ Forall2
         (fun pr p =>
            represents pr p
            /\ p_tags pr
               = Some (filter (fun x => existsb (String.eqb x) ts)
                              (tags_of (store db) (r_id p))))
         ps
         (filter (fun p => in_scope user p && has_tag_in (store db) ts p)
                 (prompts (store db))).
Proof.
  intros Hne Hall. unfold list_prompts_by_tags.
  rewrite select_all_spec.
  2:{ apply malformed_scoped. intros ts' E. now inversion E; subst. }
  eexists. split; [reflexivity|].
  rewrite (filter_ext _ (fun p => in_scope user p && has_tag_in (store db) ts p))
    by (intro p; apply where_tags).
  apply Forall2_map_left. intros p Hp. split; [apply represents_Prompt_of|].
  apply filter_In in Hp. destruct Hp as [_ Hp].
  apply andb_true_iff in Hp. destruct Hp as [Hs _].
  unfold Prompt_of. cbn [p_tags]. f_equal. unfold GROUP_CONCAT.
  rewrite (matching_tags ts user p _ Hs), joined_tags_tags_of.
  set (m := filter (fun x => existsb (String.eqb x) ts)
                   (tags_of (store db) (r_id p))).
  assert (Hm : forall x, In x m -> Py.contains comma x = false /\ x <> "").
  { intros x Hx. apply filter_In in Hx. destruct Hx as [_ Hx].
    apply existsb_exists in Hx. destruct Hx as (t & Ht & E).
    apply String.eqb_eq in E. subst t.
    exact (proj1 (Forall_forall _ _) Hall x Ht). }
  destruct m as [|x m']; [reflexivity|]. lazy iota beta.
  rewrite truthy_join.
  - apply split_join; [discriminate|].
    apply Forall_forall. intros y Hy. apply (Hm y Hy).
  - discriminate.
  - intro E. inversion E; subst. now apply (proj2 (Hm "" (or_introl eq_refl))).
Qed.

Lemma list_by_tags_reports_matching_tags_witness :
  ["a"] <> []
  /\ Forall (fun t => Py.contains comma t = false /\ t <> "") ["a"]
  /\ exists ps,
       fst (list_prompts_by_tags ["a"] (Some alice) demo_db) = Ok ps
       /\ Forall2
            (fun pr p =>
               represents pr p
               /\ p_tags pr
                  = Some (filter (fun x => existsb (String.eqb x) ["a"])
                                 (tags_of (store demo_db) (r_id p))))
            ps
            (filter (fun p => in_scope (Some alice) p
                              && has_tag_in (store demo_db) ["a"] p)
                    (prompts (store demo_db))).
Proof.
  assert (H1 : ["a"] <> []) by discriminate.
  assert (H2 : Forall (fun t => Py.contains comma t = false /\ t <> "") ["a"]).
  { repeat constructor. discriminate. }
  split; [exact H1|]. split; [exact H2|].
  exact (list_by_tags_reports_matching_tags ["a"] (Some alice) demo_db H1 H2).
Defined.

(** X17. The comma-separated tags string of the façade stands for the list of
    its pieces: for a non-empty list of tags without commas, the façade
    called with the comma-joined string answers exactly as the repository
    called with the list. *)
Theorem service_tags_string_is_list (ts : list string) (user : option User)
    (db : DatabaseContext) :
  ts <> [] ->
  Forall (fun t => Py.contains comma t = false) ts ->
  PromptService.list_prompts_by_tags (Py.join "," ts) user db
  = list_prompts_by_tags ts user db.
Proof.
  intros Hne Hall.
  unfold PromptService.list_prompts_by_tags, PromptService.guarded.
  cbv zeta. rewrite truthy_split. change (negb true) with false. cbv iota.
  rewrite (split_join ts Hne Hall).
  destruct (list_prompts_by_tags_spec ts user db Hne) as (ps & E & _).
  now rewrite E.
Qed.

Lemma service_tags_string_is_list_witness :
  ["a"; "c"] <> []
  /\ Forall (fun t => Py.contains comma t = false) ["a"; "c"]
  /\ PromptService.list_prompts_by_tags "a,c" (Some alice) demo_db
     = list_prompts_by_tags ["a"; "c"] (Some alice) demo_db.
Proof.
  assert (H1 : ["a"; "c"] <> []) by discriminate.
  assert (H2 : Forall (fun t => Py.contains comma t = false) ["a"; "c"])
    by (repeat constructor).
  split; [exact H1|]. split; [exact H2|].
  exact (service_tags_string_is_list ["a"; "c"] (Some alice) demo_db H1 H2).
Defined.

(* ================================================================= *)
(** ** The routers *)

Lemma slice_index_nonneg (n : nat) (i : Z) :
  (0 <= i)%Z -> slice_index n i = Nat.min (Z.to_nat i) n.
Proof.
  intro H. unfold slice_index.
  destruct (i <? 0)%Z eqn:E; [|reflexivity].
  apply Z.ltb_lt in E. lia.
Qed.

Lemma firstn_min_length {A} (m : nat) (l : list A) :
  firstn (Nat.min m (List.length l)) l = firstn m l.
Proof.
  destruct (Nat.le_ge_cases m (List.length l)) as [H|H].
  - now rewrite Nat.min_l.
  - rewrite Nat.min_r by exact H. now rewrite !firstn_all2 by lia.
Qed.

(** A page with non-negative [skip] and [limit]: drop [skip] elements,
    keep at most [limit]. *)
Lemma slice_page {A} (l : list A) (skip limit : Z) :
  (0 <= skip)%Z -> (0 <= limit)%Z ->
  slice l skip (skip + limit)
  = firstn (Z.to_nat limit) (skipn (Z.to_nat skip) l).
Proof.
  intros Hs Hl. unfold slice.
  rewrite !slice_index_nonneg by lia.
  set (n := List.length l). set (k := Z.to_nat skip).
  replace (Z.to_nat (skip + limit)) with (k + Z.to_nat limit) by (unfold k; lia).
  set (m := Z.to_nat limit).
  destruct (Nat.le_ge_cases n k) as [H|H].
  - rewrite (Nat.min_r k n H). rewrite !skipn_all2 by (unfold n in *; lia).
    now rewrite !firstn_nil.
  - rewrite (Nat.min_l k n H).
    replace (Nat.min (k + m) n - k) with (Nat.min m (n - k)) by lia.
    replace (n - k) with (List.length (skipn k l))
      by (rewrite length_skipn; reflexivity).
    apply firstn_min_length.
Qed.

Lemma slice_segment {A} (l : list A) (start stop : Z) :
  exists pre post, l = pre ++ slice l start stop ++ post.
Proof.
  unfold slice.
  set (a := slice_index (List.length l) start).
  set (b := slice_index (List.length l) stop).
  exists (firstn a l), (skipn (b - a) (skipn a l)).
  now rewrite firstn_skipn, firstn_skipn.
Qed.

Lemma router_list_prompts_spec (skip limit : Z) (user : option User)
    (db : DatabaseContext) :
  exists ps db1,
    PromptService.list_prompts user db = (Ok ps, db1)
    /\ Forall2 represents ps (filter (in_scope user) (prompts (store db)))
    /\ (ps0 <- PromptService.list_prompts user ;;
        ret (slice ps0 skip (skip + limit))) db
       = (Ok (slice ps skip (skip + limit)), db1).
Proof.
  destruct (list_prompts_spec user db) as (ps & E & F).
  unfold PromptService.list_prompts, PromptService.guarded.
  rewrite E. eexists. eexists. split; [reflexivity|]. split; [exact F|].
  unfold bind. now rewrite E.
Qed.

(** X18. The listing routes return a window of the caller's prompts: whatever
    integers [skip] and [limit] are, the page is a contiguous run of the
    service's list; for non-negative ones it is the list without its
    first [skip] elements, cut to at most [limit] elements, and it is
    empty when [limit] is zero. The private route lists the prompts of
    the user, the public one those without an author. *)
Theorem router_list_prompts_page (skip limit : Z) (db : DatabaseContext) :
  (forall user,
     exists ps page db1,
       PromptService.list_prompts (Some user) db = (Ok ps, db1)
       /\ PrivateRouter.list_prompts skip limit user db = (Ok page, db1)
       /\ Forall2 represents ps
            (filter (in_scope (Some user)) (prompts (store db)))
       /\ (exists pre post, ps = pre ++ page ++ post)
       /\ ((0 <= skip)%Z -> (0 <= limit)%Z ->
           page = firstn (Z.to_nat limit) (skipn (Z.to_nat skip) ps)
           /\ List.length page <= Z.to_nat limit))
  /\ exists ps page db1,
       PromptService.list_prompts None db = (Ok ps, db1)
       /\ PublicRouter.list_prompts skip limit db = (Ok page, db1)
       /\ Forall2 represents ps (filter (in_scope None) (prompts (store db)))
       /\ (exists pre post, ps = pre ++ page ++ post)
       /\ ((0 <= skip)%Z -> (0 <= limit)%Z ->
           page = firstn (Z.to_nat limit) (skipn (Z.to_nat skip) ps)
           /\ List.length page <= Z.to_nat limit).
Proof.
  assert (H : forall user,
            exists ps page db1,
              PromptService.list_prompts user db = (Ok ps, db1)
              /\ (ps0 <- PromptService.list_prompts user ;;
                  ret (slice ps0 skip (skip + limit))) db = (Ok page, db1)
              /\ Forall2 represents ps
                   (filter (in_scope user) (prompts (store db)))
              /\ (exists pre post, ps = pre ++ page ++ post)
              /\ ((0 <= skip)%Z -> (0 <= limit)%Z ->
                  page = firstn (Z.to_nat limit) (skipn (Z.to_nat skip) ps)
                  /\ List.length page <= Z.to_nat limit)).
  { intro user.
    destruct (router_list_prompts_spec skip limit user db)
      as (ps & db1 & E & F & R).
    exists ps, (slice ps skip (skip + limit)), db1.
    split; [exact E|]. split; [exact R|]. split; [exact F|].
    split; [apply slice_segment|].
    intros Hs Hl. rewrite slice_page by assumption.
    split; [reflexivity|apply firstn_le_length]. }
  split.
  - intro user. exact (H (Some user)).
  - exact (H None).
Qed.

Lemma router_list_prompts_page_witness :
  (0 <= 0)%Z /\ (0 <= 10)%Z
  /\ exists ps page db1,
       PromptService.list_prompts (Some alice) demo_db = (Ok ps, db1)
       /\ PrivateRouter.list_prompts 0 10 alice demo_db = (Ok page, db1)
       /\ page = firstn (Z.to_nat 10) (skipn (Z.to_nat 0) ps).
Proof.
  assert (H1 : (0 <= 0)%Z) by lia. assert (H2 : (0 <= 10)%Z) by lia.
  split; [exact H1|]. split; [exact H2|].
  destruct (proj1 (router_list_prompts_page 0 10 demo_db) alice)
    as (ps & page & db1 & A & B & _ & _ & C).
  exists ps, page, db1. split; [exact A|]. split; [exact B|].
  exact (proj1 (C H1 H2)).
Defined.

Lemma not_found_is_404_get (body : M Prompt) (db : DatabaseContext)
    (found : option prompt_row) (agg : prompt_row -> option string) :
  fst (body db)
  = match found with
    | Some p => Ok (Prompt_of p (agg p))
    | None => Raise (RecordNotFoundError "Prompt not found")
    end ->
  match found with
  | Some p => exists pr, fst (not_found_is_404 (PromptService.guarded body) db)
                         = Returned pr /\ represents pr p
  | None => fst (not_found_is_404 (PromptService.guarded body) db)
            = HTTPException 404 "Prompt not found"
  end.
Proof.
  unfold not_found_is_404, PromptService.guarded.
  destruct (body db) as [[pr|e] db1]; simpl; intro H; destruct found as [p|];
    try discriminate.
  - inversion H; subst. eexists. split; [reflexivity|].
    apply represents_Prompt_of.
  - inversion H; subst. reflexivity.
Qed.

(** X19. The lookup routes answer with the prompt or with the 404 response
    and let no exception through: the private routes return the first row
    with the guid, or the name, among the rows of the user, the public
    route among the rows without an author, and raise
    [HTTPException(404)] exactly when there is no such row. A guid of
    another user's prompt is a 404 like a guid nobody has. *)
Theorem router_lookup_outcome (db : DatabaseContext) :
  (forall g user,
     match find (fun p => has_guid g p && in_scope (Some user) p)
                (prompts (store db)) with
     | Some p => exists pr, fst (PrivateRouter.get_prompt g user db)
                            = Returned pr /\ represents pr p
     | None => fst (PrivateRouter.get_prompt g user db)
               = HTTPException 404 "Prompt not found"
     end)
  /\ (forall n user,
        match find (fun p => has_name n p && in_scope (Some user) p)
                   (prompts (store db)) with
        | Some p => exists pr, fst (PrivateRouter.get_prompt_by_name n user db)
                               = Returned pr /\ represents pr p
        | None => fst (PrivateRouter.get_prompt_by_name n user db)
                  = HTTPException 404 "Prompt not found"
        end)
  /\ (forall g,
        match find (fun p => has_guid g p && in_scope None p)
                   (prompts (store db)) with
        | Some p => exists pr, fst (PublicRouter.get_prompt g db)
                               = Returned pr /\ represents pr p
        | None => fst (PublicRouter.get_prompt g db)
                  = HTTPException 404 "Prompt not found"
        end).
Proof.
  repeat apply conj.
  - intros g user. unfold PrivateRouter.get_prompt, PromptService.get_prompt.
    destruct (get_prompt_spec g (Some user) db) as [_ Hr].
    apply (not_found_is_404_get _ db _ _ Hr).
  - intros n user.
    unfold PrivateRouter.get_prompt_by_name, PromptService.get_prompt_by_name.
    destruct (get_prompt_by_name_spec n (Some user) db) as [_ Hr].
    apply (not_found_is_404_get _ db _ _ Hr).
  - intros g. unfold PublicRouter.get_prompt, PromptService.get_prompt.
    destruct (get_prompt_spec g None db) as [_ Hr].
    apply (not_found_is_404_get _ db _ _ Hr).
Qed.

(* ================================================================= *)
(** ** The tag vocabulary only grows *)

Lemma execute_keeps_tags (q : stmt) (s s' : Store) (rows : list result_row)
    (t : tag_row) :
  execute q s = inr (s', rows) -> In t (tags s) -> In t (tags s').
Proof.
  intros E Ht. destruct q; cbn [execute] in E;
    try (destruct (malformed where_); [discriminate|]);
    try (inversion E; subst; exact Ht).
  - destruct (existsb _ (tags s)); inversion E; subst; [exact Ht|].
    simpl. apply in_or_app. now left.
  - destruct (_ || _); [discriminate|]. inversion E; subst. exact Ht.
Qed.

Lemma vocabulary_ret {A} (a : A) : keeps_vocabulary (ret a).
Proof. intros db t H. exact H. Qed.

Lemma vocabulary_raise {A} (e : exn) : keeps_vocabulary (@raise A e).
Proof. intros db t H. exact H. Qed.

Lemma vocabulary_bind {A B} (m : M A) (k : A -> M B) :
  keeps_vocabulary m -> (forall a, keeps_vocabulary (k a)) ->
  keeps_vocabulary (bind m k).
Proof.
  intros Hm Hk db t Ht. unfold bind. specialize (Hm db t Ht).
  destruct (m db) as [[a|e] db1]; simpl in *; [|exact Hm].
  now apply Hk.
Qed.

Lemma vocabulary_cursor_execute (q : stmt) :
  keeps_vocabulary (cursor_execute q).
Proof.
  intros db t Ht. unfold cursor_execute.
  destruct (execute q (store db)) as [e|[s' rows]] eqn:E; simpl; [exact Ht|].
  exact (execute_keeps_tags q (store db) s' rows t E Ht).
Qed.

Lemma vocabulary_fetchone : keeps_vocabulary fetchone.
Proof. intros db t H. unfold fetchone. destruct (cursor db); exact H. Qed.

Lemma vocabulary_fetchall : keeps_vocabulary fetchall.
Proof. intros db t H. exact H. Qed.

Lemma vocabulary_for_each {A} (xs : list A) (body : A -> M unit) :
  (forall x, keeps_vocabulary (body x)) -> keeps_vocabulary (for_each xs body).
Proof.
  intro H. induction xs as [|x xs IH]; simpl.
  - apply vocabulary_ret.
  - apply vocabulary_bind; [apply H|intros _; exact IH].
Qed.

Lemma vocabulary_make_prompts (rows : list result_row) :
  keeps_vocabulary (make_prompts rows).
Proof.
  intros db t H. now rewrite make_prompts_frame.
Qed.

Create HintDb vocabulary discriminated.
#[local] Hint Resolve vocabulary_ret vocabulary_raise vocabulary_cursor_execute
  vocabulary_fetchone vocabulary_fetchall vocabulary_make_prompts : vocabulary.
#[local] Hint Extern 2 (keeps_vocabulary (bind _ _)) =>
  apply vocabulary_bind; [|intro] : vocabulary.
#[local] Hint Extern 2 (keeps_vocabulary (for_each _ _)) =>
  apply vocabulary_for_each; intro : vocabulary.
#[local] Hint Extern 3 (keeps_vocabulary (match ?x with _ => _ end)) =>
  destruct x : vocabulary.

(** X20. No repository operation removes a row of the tag vocabulary, not even
    the deletion of the last prompt that used a tag: a tag once entered
    stays, with its identity, whether the operation returns or raises. *)
Theorem repository_keeps_vocabulary :
  (forall g prompt author, keeps_vocabulary (create_prompt g prompt author))
  /\ (forall g prompt user, keeps_vocabulary (update_prompt g prompt user))
  /\ (forall g user, keeps_vocabulary (delete_prompt g user))
  /\ (forall g t user, keeps_vocabulary (add_tag_to_prompt g t user))
  /\ (forall g t user, keeps_vocabulary (remove_tag_from_prompt g t user))
  /\ (forall g user, keeps_vocabulary (get_prompt g user))
  /\ (forall n user, keeps_vocabulary (get_prompt_by_name n user))
  /\ (forall user, keeps_vocabulary (list_prompts user))
  /\ (forall ts user, keeps_vocabulary (list_prompts_by_tags ts user)).
Proof.
  repeat apply conj; intros.
  - unfold create_prompt, _update_tags, _check_prompt_ownership,
      remove_all_tags_from_prompt, add_tag_to_prompt.
    auto 15 with vocabulary.
  - unfold update_prompt.
    destruct (build_sets prompt) as [sets setting].
    destruct (negb setting && _); [apply vocabulary_raise|].
    unfold _update_tags, _check_prompt_ownership,
      remove_all_tags_from_prompt, add_tag_to_prompt.
    apply vocabulary_bind.
    + destruct setting; auto with vocabulary.
    + intros _. destruct (pu_tags prompt); auto 15 with vocabulary.
  - unfold delete_prompt, _check_prompt_ownership,
      remove_all_tags_from_prompt.
    auto 12 with vocabulary.
  - unfold add_tag_to_prompt. auto with vocabulary.
  - unfold remove_tag_from_prompt. auto with vocabulary.
  - unfold get_prompt, fetch_prompt_or_not_found, make_result_dict.
    auto 12 with vocabulary.
  - unfold get_prompt_by_name, fetch_prompt_or_not_found, make_result_dict.
    auto 12 with vocabulary.
  - unfold list_prompts. auto 12 with vocabulary.
  - unfold list_prompts_by_tags. auto 12 with vocabulary.
Qed.

(* ================================================================= *)
(** ** What adding a tag leaves alone *)

(** X8. Adding a tag to a prompt in the caller's scope touches that prompt
    only: the tags of every other prompt and the prompt rows are as
    before. A tag that is already in the vocabulary, from this or any
    other prompt, is reused, the vocabulary being unchanged; a new tag
    gets one new vocabulary row with the next identity. *)
Theorem add_tag_frame (g x : string) (user : option User)
    (db : DatabaseContext) (p : prompt_row) :
  wf_store (store db) ->
  In p (prompts (store db)) -> r_guid p = g -> in_scope user p = true ->
  ~ In x (tags_of (store db) (r_id p)) ->
  let r := add_tag_to_prompt g x user db in
  fst r = Ok tt
  /\ (forall pid, pid <> r_id p ->
                  tags_of (store (snd r)) pid = tags_of (store db) pid)
  /\ prompts (store (snd r)) = prompts (store db)
  /\ (In x (map t_tag (tags (store db))) ->
      tags (store (snd r)) = tags (store db))
  /\ (~ In x (map t_tag (tags (store db))) ->
      tags (store (snd r))
      = tags (store db) ++ [mkTagRow (next_tag_id (store db)) x]).
Proof.
  intros W Hp Hg Hs Hx. cbv zeta.
  destruct (upsert_tag_spec x (store db) W)
    as (s1 & E1 & W1 & P1 & L1 & T1 & (tx & Htx & Etx) & Hsame).
  assert (Hp1 : In p (prompts s1)) by now rewrite P1.
  assert (Hnl : ~ In (mkLink (r_id p) (t_id tx)) (prompt_tags s1)).
  { intro H. apply (link_In_tags_of s1 (r_id p) tx W1 Htx) in H.
    rewrite Etx, T1 in H. contradiction. }
  assert (E2 : execute (INSERT_prompt_tags_select
                          [prompts_guid_eq g; tags_tag_eq x; author_clause user])
                       s1
               = inr (with_prompt_tags s1
                        (prompt_tags s1 ++ [mkLink (r_id p) (t_id tx)]), [])).
  { cbn [execute]. rewrite malformed_add_tag.
    rewrite (select_pairs_single g x user s1 p tx W1 Hp1 Hg Hs Htx Etx).
    cbn [has_dup existsb]. rewrite orb_false_r. simpl orb.
    assert (H : existsb (link_eqb (mkLink (r_id p) (t_id tx)))
                        (prompt_tags s1) = false).
    { apply not_true_is_false. intro H. apply existsb_link_In in H.
      contradiction. }
    now rewrite H. }
  unfold add_tag_to_prompt.
  rewrite (bind_ok _ _ _ _ _ (cursor_execute_ok _ db _ _ E1)).
  erewrite cursor_execute_ok by exact E2. cbn [fst snd store].
  split; [reflexivity|]. split; [|split; [exact P1|split]].
  - intros pid Hne. rewrite <- T1. unfold tags_of.
    cbn [prompt_tags with_prompt_tags tags]. rewrite filter_app.
    cbn [filter l_prompt_id].
    rewrite (proj2 (Nat.eqb_neq (r_id p) pid)) by congruence.
    now rewrite app_nil_r.
  - intro Hin. cbn [tags with_prompt_tags]. now rewrite (Hsame Hin).
  - intro Hnin. cbn [tags with_prompt_tags].
    cbn [execute] in E1.
    destruct (existsb (fun t => String.eqb (t_tag t) x) (tags (store db)))
      eqn:Ex.
    + exfalso. apply Hnin. apply existsb_exists in Ex.
      destruct Ex as (t & Ht & Et). apply String.eqb_eq in Et.
      apply in_map_iff. now exists t.
    + inversion E1. reflexivity.
Qed.

Lemma add_tag_frame_witness :
  wf_store (store demo_db)
  /\ ~ In "x" (tags_of (store demo_db) (r_id demo_row))
  /\ fst (add_tag_to_prompt "g1" "x" (Some alice) demo_db) = Ok tt
  /\ prompts (store (snd (add_tag_to_prompt "g1" "x" (Some alice) demo_db)))
     = prompts (store demo_db).
Proof.
  assert (H : ~ In "x" (tags_of (store demo_db) (r_id demo_row))).
  { simpl. intros [E|[E|[]]]; discriminate. }
  split; [exact wf_demo_store|]. split; [exact H|].
  destruct (add_tag_frame "g1" "x" (Some alice) demo_db demo_row
              wf_demo_store (or_introl eq_refl) eq_refl eq_refl H)
    as (A & _ & B & _).
  split; [exact A|exact B].
Defined.

Lemma repository_preserves_wf_witness :
  wf_store (store demo_db)
  /\ (forall p, In p (prompts (store demo_db)) -> r_guid p <> "g2")
  /\ wf_store (store (snd (create_prompt "g2"
                             (mkPromptCreate "c" "n" None (Some ["t"]))
                             (Some bob) demo_db))).
Proof.
  assert (H : forall p, In p (prompts (store demo_db)) -> r_guid p <> "g2").
  { simpl. intros q [<-|[]]. discriminate. }
  split; [exact wf_demo_store|]. split; [exact H|].
  exact (proj1 (proj2 repository_preserves_wf) "g2"
           (mkPromptCreate "c" "n" None (Some ["t"])) (Some bob) demo_db
           wf_demo_store H).
Defined.
